(** * var_cleaner: a shallow embedding of [var_cleaner.py]

    The program scans one directory for files named [<base>.<version>.var],
    finds for every base the versions older than the newest one, reports
    their number and size, and deletes them on request.

    Layout of this development:
    - [PyStr]    : the Python string operations the program calls;
    - [Re]       : a backtracking matcher for the fragment of [re] that
                   [VERSION_RE] is written in;
    - [PyFloat]  : binary64 arithmetic and the [.2f] format;
    - [OS]       : the file system, the console, the directory dialog, the
                   preference file, and the monad of state and exceptions;
    - the program: [load_last_dir], [save_last_dir], [pick_directory],
                   [scan_directory], [format_size] and [main], under the
                   names of the source;
    - the vocabulary of the specification, and the theorems.

    What the model takes from Python and from the system:
    - characters are the code points below 256 (the type [ascii] read as
      Latin-1); on that range [str.lower], [str.strip] and the class [\d]
      are modelled exactly;
    - paths are joined as [posixpath.join] does;
    - a [float] is an IEEE 754 binary64 number, as [SpecFloat] defines
      them, and [.2f] rounds the exact value to the nearest hundredth,
      ties to even;
    - nothing but the program changes the files while it runs;
    - the preference file is kept apart from the files and the listings
      that the program scans: [files] and [dirs] describe everything but
      the preference file, whose name matches no versioned file;
    - no file descriptor of the process is open on a directory (this is
      what [os.path.isdir] is asked when the preference file holds a
      number where a path is expected);
    - the lines of standard input are text, and the user does not
      interrupt the program: the exceptions of the model are those that
      the calls of the program raise on such input. *)

From Stdlib Require Import ZArith String Ascii List Lia Bool.
From Stdlib Require Import Floats.SpecFloat.
From stdpp Require Import gmap strings list fin_maps pretty.

Open Scope string_scope.
Open Scope list_scope.
Open Scope Z_scope.

(* ===================================================================== *)
(** ** Python string operations *)
(* ===================================================================== *)

Module PyStr.

Definition code (c : ascii) : N := N_of_ascii c.

(** [\d] and [str.isdigit] below U+0100: the ten ASCII digits. *)
Definition is_digit (c : ascii) : bool :=
  ((48 <=? code c) && (code c <=? 57))%N.

Definition digit_value (c : ascii) : Z := Z.of_N (code c) - 48.

(** [str.isspace] below U+0100. *)
Definition is_space (c : ascii) : bool :=
  let n := code c in
  (((9 <=? n) && (n <=? 13)) || ((28 <=? n) && (n <=? 32))
   || (n =? 133) || (n =? 160))%N.

(** [str.lower] on one character below U+0100: [A-Z] and the Latin-1
    capitals U+00C0..U+00DE (the multiplication sign U+00D7 apart). *)
Definition lower_char (c : ascii) : ascii :=
  let n := code c in
  if (((65 <=? n) && (n <=? 90))
      || ((192 <=? n) && (n <=? 222) && negb (n =? 215)))%N
  then ascii_of_N (n + 32) else c.

Fixpoint lower (s : string) : string :=
  match s with
  | EmptyString => EmptyString
  | String c s' => String (lower_char c) (lower s')
  end.

Fixpoint lstrip (s : string) : string :=
  match s with
  | EmptyString => EmptyString
  | String c s' => if is_space c then lstrip s' else s
  end.

Fixpoint rstrip (s : string) : string :=
  match s with
  | EmptyString => EmptyString
  | String c s' =>
      match rstrip s' with
      | EmptyString => if is_space c then EmptyString else String c EmptyString
      | r => String c r
      end
  end.

Definition strip (s : string) : string := rstrip (lstrip s).

Definition startswith (s p : string) : bool := String.prefix p s.

Fixpoint endswith (s suffix : string) : bool :=
  if String.eqb s suffix then true
  else match s with
       | EmptyString => false
       | String _ s' => endswith s' suffix
       end.

(** [int(s)] for the strings the program passes to it: a non-empty run of
    decimal digits.  Any other text is [None] (Python's [ValueError]);
    signs, underscores and surrounding blanks, which [int] also reads, do
    not occur in a [\d+] group. *)
Fixpoint int_acc (acc : Z) (s : string) : option Z :=
  match s with
  | EmptyString => Some acc
  | String c s' =>
      if is_digit c then int_acc (10 * acc + digit_value c) s' else None
  end.

Definition int (s : string) : option Z :=
  match s with
  | EmptyString => None
  | _ => int_acc 0 s
  end.

(** [str(n)] for an integer. *)
Definition str_of_Z (n : Z) : string := pretty n.

(** [posixpath.join(a, b)]. *)
Definition path_join (a b : string) : string :=
  if startswith b "/" then b
  else if String.eqb a "" || endswith a "/" then a +:+ b
  else a +:+ "/" +:+ b.

End PyStr.

(* ===================================================================== *)
(** ** The regular expressions of [re] that the program uses *)
(* ===================================================================== *)

Module Re.

(** What one pattern position accepts. *)
Inductive atom :=
| Dot                 (* [.]  : any character but a newline *)
| DigitClass          (* [\d] *)
| Chr (c : ascii).    (* a literal character *)

Inductive quant :=
| Once                (* no quantifier *)
| PlusLazy            (* [+?] *)
| PlusGreedy.         (* [+]  *)

(** A quantified atom, inside a named group or not. *)
Record token := Tok { group : option string; what : atom; how : quant }.

(** A pattern [^ t1 t2 ... tn $]. *)
Definition pattern := list token.

Record flags := { ignorecase : bool }.

Definition newline : ascii := ascii_of_N 10.

Definition accepts (fl : flags) (a : atom) (c : ascii) : bool :=
  match a with
  | Dot => negb (Ascii.eqb c newline)
  | DigitClass => PyStr.is_digit c
  | Chr d =>
      if ignorecase fl
      then Ascii.eqb (PyStr.lower_char c) (PyStr.lower_char d)
      else Ascii.eqb c d
  end.

(** The groups matched so far, last binding first. *)
Definition captures := list (string * string).

Definition bind_group (g : option string) (text : string) (caps : captures)
  : captures :=
  match g with
  | Some name => (name, text) :: caps
  | None => caps
  end.

(** [$] without [re.MULTILINE]: the end of the string, or just before a
    newline that ends it. *)
Definition at_end (s : string) : bool :=
  match s with
  | EmptyString => true
  | String c EmptyString => Ascii.eqb c newline
  | _ => false
  end.

(** The backtracking search of [re], one function per quantifier.  [ok]
    is the test of the atom, [taken] the text the repetition has taken so
    far, and [k taken rest] goes on with the rest of the pattern. *)
Definition once (ok : ascii -> bool) (k : string -> string -> option captures)
    (s : string) : option captures :=
  match s with
  | String c s' => if ok c then k (String c EmptyString) s' else None
  | EmptyString => None
  end.

(** [+?]: after each character, first try the rest of the pattern; take
    one more character only when that fails. *)
Fixpoint lazy_plus (ok : ascii -> bool)
    (k : string -> string -> option captures)
    (s taken : string) : option captures :=
  match s with
  | String c s' =>
      if ok c then
        match k (taken +:+ String c EmptyString) s' with
        | Some r => Some r
        | None => lazy_plus ok k s' (taken +:+ String c EmptyString)
        end
      else None
  | EmptyString => None
  end.

(** [+]: after each character, first try to take one more; go on with the
    rest of the pattern only when that fails. *)
Fixpoint greedy_plus (ok : ascii -> bool)
    (k : string -> string -> option captures)
    (s taken : string) : option captures :=
  match s with
  | String c s' =>
      if ok c then
        match greedy_plus ok k s' (taken +:+ String c EmptyString) with
        | Some r => Some r
        | None => k (taken +:+ String c EmptyString) s'
        end
      else None
  | EmptyString => None
  end.

Fixpoint run (fl : flags) (p : pattern) (s : string) (caps : captures)
  : option captures :=
  match p with
  | [] => if at_end s then Some caps else None
  | t :: p' =>
      let k taken rest := run fl p' rest (bind_group (group t) taken caps) in
      match how t with
      | Once => once (accepts fl (what t)) k s
      | PlusLazy => lazy_plus (accepts fl (what t)) k s EmptyString
      | PlusGreedy => greedy_plus (accepts fl (what t)) k s EmptyString
      end
  end.

(** [pattern.match(s)]: the match object, as the list of its groups. *)
Definition match_ (fl : flags) (p : pattern) (s : string) : option captures :=
  run fl p s [].

(** [m.group(name)]. *)
Fixpoint lookup_group (name : string) (caps : captures) : option string :=
  match caps with
  | [] => None
  | (n, text) :: caps' =>
      if String.eqb n name then Some text else lookup_group name caps'
  end.

End Re.

(** Line 52: [VERSION_RE = re.compile(
    r"^(?P<base>.+?)\.(?P<version>\d+)\.var$", re.IGNORECASE)] *)
Definition VERSION_RE : Re.pattern :=
  [ Re.Tok (Some "base") Re.Dot Re.PlusLazy;
    Re.Tok None (Re.Chr ".") Re.Once;
    Re.Tok (Some "version") Re.DigitClass Re.PlusGreedy;
    Re.Tok None (Re.Chr ".") Re.Once;
    Re.Tok None (Re.Chr "v") Re.Once;
    Re.Tok None (Re.Chr "a") Re.Once;
    Re.Tok None (Re.Chr "r") Re.Once ].

Definition VERSION_FLAGS : Re.flags := {| Re.ignorecase := true |}.

Definition VERSION_RE_match (name : string) : option Re.captures :=
  Re.match_ VERSION_FLAGS VERSION_RE name.

(* ===================================================================== *)
(** ** Python numbers: [int], and [float] as IEEE 754 binary64 *)
(* ===================================================================== *)

Module PyFloat.

Definition prec : Z := 53.
Definition emax : Z := 1024.

Definition float := spec_float.

(** A value of a variable that holds an [int] or a [float]. *)
Inductive number :=
| Int (n : Z)
| Float (f : float).

(** [float(n)]: the nearest binary64, ties to even; [None] is Python's
    [OverflowError] (int too large to convert to float). *)
Definition of_int (n : Z) : option float :=
  match binary_normalize prec emax n 0 false with
  | S754_infinity _ => None
  | f => Some f
  end.

(** The literal [1024.0]. *)
Definition f1024 : float := binary_normalize prec emax 1024 0 false.

(** [n < f] for an int and a float: Python compares the exact values. *)
Definition int_ltb_float (n : Z) (f : float) : bool :=
  match f with
  | S754_nan => false
  | S754_infinity s => negb s
  | S754_zero _ => (n <? 0)%Z
  | S754_finite s m e =>
      let v := if s then Z.neg m else Z.pos m in
      if (0 <=? e)%Z then (n <? v * 2 ^ e)%Z else (n * 2 ^ (- e) <? v)%Z
  end.

(** [x < f] where [f] is a float. *)
Definition ltb (x : number) (f : float) : bool :=
  match x with
  | Int n => int_ltb_float n f
  | Float g => SFltb g f
  end.

(** [x / f] where [f] is a non-zero float: an int is converted first. *)
Definition div (x : number) (f : float) : option number :=
  match x with
  | Int n =>
      match of_int n with
      | Some g => Some (Float (SFdiv prec emax g f))
      | None => None
      end
  | Float g => Some (Float (SFdiv prec emax g f))
  end.

(** [a / b] rounded to the nearest integer, ties to even. *)
Definition round_half_even (a b : Z) : Z :=
  let q := a / b in
  let r := a mod b in
  match (2 * r ?= b)%Z with
  | Lt => q
  | Gt => q + 1
  | Eq => if Z.even q then q else q + 1
  end.

(** The value [m * 2 ^ e] of a finite float in hundredths, rounded to the
    nearest integer, ties to even: the digits that [.2f] prints. *)
Definition hundredths (m : positive) (e : Z) : Z :=
  if (0 <=? e)%Z then Z.pos m * 100 * 2 ^ e
  else round_half_even (Z.pos m * 100) (2 ^ (- e)).

Definition two_digits (n : Z) : string :=
  PyStr.str_of_Z (n / 10) +:+ PyStr.str_of_Z (n mod 10).

Definition fixed2 (h : Z) : string :=
  PyStr.str_of_Z (h / 100) +:+ "." +:+ two_digits (h mod 100).

Definition sign_text (s : bool) : string := if s then "-" else "".

(** [format(f, ".2f")] for a float. *)
Definition format_2f_float (f : float) : string :=
  match f with
  | S754_nan => "nan"
  | S754_infinity s => sign_text s +:+ "inf"
  | S754_zero s => sign_text s +:+ "0.00"
  | S754_finite s m e => sign_text s +:+ fixed2 (hundredths m e)
  end.

(** [format(x, ".2f")]: an int is converted to a float first. *)
Definition format_2f (x : number) : option string :=
  match x with
  | Int n =>
      match of_int n with
      | Some g => Some (format_2f_float g)
      | None => None
      end
  | Float g => Some (format_2f_float g)
  end.

End PyFloat.

(* ===================================================================== *)
(** ** The operating system: files, console, exceptions *)
(* ===================================================================== *)

Module OS.

Inductive exn :=
| OSError (msg : string)
| EOFError
| ValueError
| IndexError
| OverflowError
| TclError
| TypeError.

Inductive res (A : Type) :=
| Ok (a : A)
| Raise (e : exn).
Arguments Ok {A} a.
Arguments Raise {A} e.

(** What the program can observe of what is at one path: [size] is the
    answer of [os.path.getsize] ([None]: it raises [OSError]); [locked] is
    [Some reason] when [os.remove] raises [OSError(reason)] whatever is
    there; [folder] tells a directory from a file. *)
Record file := File {
  size : option Z;
  locked : option string;
  folder : bool
}.

(** A JSON value other than a string and [null], as far as Python tells
    such values apart where the program uses them: [bool(v)] needs to know
    whether a number is zero and whether an array or an object is empty,
    and [str(v)] is carried as [text] where it depends on more than
    that. *)
Inductive json :=
| JBool (b : bool)
| JInt (n : Z)
| JFloat (zero : bool) (text : string)
| JArray (empty : bool) (text : string)
| JObject (empty : bool) (text : string).

(** A value of the variables [initial] and [path] of [pick_directory]: a
    string, or what [json.load] has found under [last_dir]. *)
Inductive value :=
| Str (s : string)
| Other (v : json).

(** [bool(x)] *)
Definition truthy (x : value) : bool :=
  match x with
  | Str s => negb (String.eqb s "")
  | Other (JBool b) => b
  | Other (JInt n) => negb (n =? 0)%Z
  | Other (JFloat zero _) => negb zero
  | Other (JArray empty _) => negb empty
  | Other (JObject empty _) => negb empty
  end.

(** [str(x)], as an f-string shows it. *)
Definition str (x : value) : string :=
  match x with
  | Str s => s
  | Other (JBool true) => "True"
  | Other (JBool false) => "False"
  | Other (JInt n) => PyStr.str_of_Z n
  | Other (JFloat _ text) => text
  | Other (JArray _ text) => text
  | Other (JObject _ text) => text
  end.

(** The preference file [~/.var_cleaner_config.json]: absent, unreadable
    (not JSON, not an object, not to be opened), or an object whose key
    [last_dir] holds the string [dir] ([None] when the key is missing or
    holds [null]), or an object whose key [last_dir] holds another JSON
    value. *)
Inductive config_file :=
| NoFile
| Corrupt
| LastDir (dir : option string)
| LastOther (v : json).

(** What the program does to its environment, in order. *)
Inductive event :=
| Print (line : string)
| Input (prompt : string)
| Dialog (initialdir : string)
| DialogOther (initialdir : json)
| Listdir (path : string)
| Getsize (path : string)
| Remove (path : string).

(** - [dirs]   : the listing of every directory that can be listed, in
                 the order [os.listdir] reports it;
    - [files]  : what is at each path: the files, and the directories
                 that the program meets as entries or that cannot be
                 listed (no permission to read them);
    - [stdin]  : the lines that [input] will read;
    - [dialog] : the answer of the directory dialog of [tkinter], [""]
                 when the user cancels; [None] when the [try] block of
                 [pick_directory] raises, as [tk.Tk()] does without a
                 display;
    - [cwd]    : the working directory, [None] when it has been removed;
    - [config] : the preference file; [config_writable], whether it can
                 be written in full; and, when it cannot,
                 [config_openable], whether it can at least be opened for
                 writing, which truncates it;
    - [trace]  : the events so far. *)
Record world := World {
  dirs : gmap string (list string);
  files : gmap string file;
  stdin : list string;
  dialog : option string;
  cwd : option string;
  config : config_file;
  config_writable : bool;
  config_openable : bool;
  trace : list event
}.

Definition set_trace (t : list event) (w : world) : world :=
  World (dirs w) (files w) (stdin w) (dialog w) (cwd w) (config w)
        (config_writable w) (config_openable w) t.

Definition set_stdin (lines : list string) (w : world) : world :=
  World (dirs w) (files w) lines (dialog w) (cwd w) (config w)
        (config_writable w) (config_openable w) (trace w).

Definition set_files (ds : gmap string (list string)) (fs : gmap string file)
    (w : world) : world :=
  World ds fs (stdin w) (dialog w) (cwd w) (config w)
        (config_writable w) (config_openable w) (trace w).

Definition set_config (c : config_file) (w : world) : world :=
  World (dirs w) (files w) (stdin w) (dialog w) (cwd w) c
        (config_writable w) (config_openable w) (trace w).

Definition log (e : event) (w : world) : world :=
  set_trace (trace w ++ [e])%list w.

(** A computation: a result or an exception, and the world after it. *)
Definition M (A : Type) : Type := world -> res A * world.

Definition ret {A} (a : A) : M A := fun w => (Ok a, w).

Definition bind {A B} (c : M A) (k : A -> M B) : M B :=
  fun w =>
    match c w with
    | (Ok a, w') => k a w'
    | (Raise e, w') => (Raise e, w')
    end.

Definition raise {A} (e : exn) : M A := fun w => (Raise e, w).

(** [try: c  except ...: h e] *)
Definition catch {A} (c : M A) (h : exn -> M A) : M A :=
  fun w =>
    match c w with
    | (Ok a, w') => (Ok a, w')
    | (Raise e, w') => h e w'
    end.

(** A pure step that can raise. *)
Definition lift {A} (e : exn) (o : option A) : M A :=
  match o with
  | Some a => ret a
  | None => raise e
  end.

Definition print (line : string) : M unit :=
  fun w => (Ok tt, log (Print line) w).

(** [input(prompt)]: the next line of standard input, [EOFError] when
    there is none. *)
Definition input (prompt : string) : M string :=
  fun w =>
    let w' := log (Input prompt) w in
    match stdin w' with
    | line :: rest => (Ok line, set_stdin rest w')
    | [] => (Raise EOFError, w')
    end.

Definition no_such (path : string) : exn :=
  OSError ("[Errno 2] No such file or directory: '" +:+ path +:+ "'").

Definition not_a_directory (path : string) : exn :=
  OSError ("[Errno 20] Not a directory: '" +:+ path +:+ "'").

Definition permission_denied (path : string) : exn :=
  OSError ("[Errno 13] Permission denied: '" +:+ path +:+ "'").

(** What [os.listdir] raises on a path it cannot list: a directory
    without the permission to read it, a file, or nothing at all. *)
Definition listdir_error (w : world) (path : string) : exn :=
  match files w !! path with
  | Some f => if folder f then permission_denied path
              else not_a_directory path
  | None => no_such path
  end.

Definition listdir (path : string) : M (list string) :=
  fun w =>
    let w' := log (Listdir path) w in
    match dirs w' !! path with
    | Some names => (Ok names, w')
    | None => (Raise (listdir_error w' path), w')
    end.

(** What is at [path] is a directory. *)
Definition is_folder (w : world) (path : string) : bool :=
  match files w !! path with
  | Some f => folder f
  | None => false
  end.

(** [os.path.isdir(path)] for a string: a directory is one whether or
    not it can be listed. *)
Definition isdir (path : string) : M bool :=
  fun w =>
    (Ok (bool_decide (is_Some (dirs w !! path)) || is_folder w path), w).

(** [os.path.isdir(v)] for a value that is not a string.  [os.stat]
    refuses an array, an object and a float with [TypeError]; it reads an
    int or a bool as a file descriptor and refuses one outside the range
    of a C [int] with [OverflowError].  For the other descriptors the
    answer is [False], since none is open on a directory. *)
Definition isdir_other (v : json) : M bool :=
  match v with
  | JBool _ => ret false
  | JInt n =>
      if ((- 2 ^ 31 <=? n) && (n <? 2 ^ 31))%Z then ret false
      else raise OverflowError
  | JFloat _ _ | JArray _ _ | JObject _ _ => raise TypeError
  end.

Definition isdir_value (path : value) : M bool :=
  match path with
  | Str s => isdir s
  | Other v => isdir_other v
  end.

Definition getsize (path : string) : M Z :=
  fun w =>
    let w' := log (Getsize path) w in
    match files w' !! path with
    | Some f =>
        match size f with
        | Some n => (Ok n, w')
        | None => (Raise (OSError "[Errno 13] Permission denied"), w')
        end
    | None => (Raise (no_such path), w')
    end.

(** The listings once the file at [path] is gone. *)
Definition unlist (path : string) (ds : gmap string (list string))
  : gmap string (list string) :=
  map_imap
    (fun d names =>
       Some (filter (fun n => PyStr.path_join d n <> path) names)) ds.

Definition is_a_directory (path : string) : exn :=
  OSError ("[Errno 21] Is a directory: '" +:+ path +:+ "'").

(** [os.remove(path)]; it deletes files only. *)
Definition remove (path : string) : M unit :=
  fun w =>
    let w' := log (Remove path) w in
    match files w' !! path with
    | Some f =>
        match locked f with
        | None =>
            if folder f then (Raise (is_a_directory path), w')
            else
              (Ok tt,
               set_files (unlist path (dirs w')) (delete path (files w')) w')
        | Some reason => (Raise (OSError reason), w')
        end
    | None => (Raise (no_such path), w')
    end.

(** [os.getcwd()]; it raises [FileNotFoundError] when the working
    directory has been removed. *)
Definition getcwd : M string :=
  fun w =>
    match cwd w with
    | Some d => (Ok d, w)
    | None => (Raise (OSError "[Errno 2] No such file or directory"), w)
    end.

Definition dialog_event (initialdir : value) : event :=
  match initialdir with
  | Str s => Dialog s
  | Other v => DialogOther v
  end.

(** [tk.Tk()], [filedialog.askdirectory(initialdir=...)] and
    [root.destroy()]: the answer of the dialog, or the exception of a
    [tkinter] without a display. *)
Definition askdirectory (initialdir : value) : M string :=
  fun w =>
    match dialog w with
    | Some answer => (Ok answer, log (dialog_event initialdir) w)
    | None => (Raise TclError, w)
    end.

(** The preference file as [json.load] and [data.get("last_dir")] read
    it; [None] stands for any exception on the way. *)
Definition read_config : M (option (option value)) :=
  fun w =>
    (Ok match config w with
        | NoFile | Corrupt => None
        | LastDir dir => Some (Str <$> dir)
        | LastOther v => Some (Some (Other v))
        end, w).

Definition config_exists : M bool :=
  fun w => (Ok match config w with NoFile => false | _ => true end, w).

(** [open(CONFIG_PATH, "w")] and [json.dump({"last_dir": path}, f)].
    When the file cannot be opened, [open] raises and the file is as it
    was.  When it is opened and the text cannot be written in full, the
    file has been truncated by [open] and is left without a JSON value in
    it. *)
Definition write_config (path : string) : M unit :=
  fun w =>
    if config_writable w then (Ok tt, set_config (LastDir (Some path)) w)
    else if config_openable w then
      (Raise (OSError "[Errno 28] No space left on device"),
       set_config Corrupt w)
    else (Raise (OSError "[Errno 13] Permission denied"), w).

End OS.

(** The monad notation of stdpp ([x ← c; k] and [c;; k]) on [OS.M]. *)
#[global] Instance M_ret : MRet OS.M := @OS.ret.
#[global] Instance M_bind : MBind OS.M := fun A B k c => OS.bind c k.

(* ===================================================================== *)
(** ** The program *)
(* ===================================================================== *)

(** [load_last_dir] (lines 12-20). *)
Definition load_last_dir : OS.M (option OS.value) :=
  found ← OS.config_exists;
  if (found : bool) then
    data ← OS.read_config;
    match data with
    | Some dir => OS.ret dir
    | None => OS.ret None
    end
  else OS.ret None.

(** [save_last_dir] (lines 23-28). *)
Definition save_last_dir (path : string) : OS.M unit :=
  OS.catch (OS.write_config path) (fun _ => OS.ret tt).

(** [x or y] on an optional value and a computation: [x] unless it is
    [None] or falsy (an empty string among others). *)
Definition or_else (x : option OS.value) (y : OS.M OS.value)
  : OS.M OS.value :=
  match x with
  | Some v => if OS.truthy v then OS.ret v else y
  | None => y
  end.

(** [pick_directory] (lines 31-49).  The test [path and
    os.path.isdir(path)] asks [os.path.isdir] only when [path] is truthy;
    for a value that is not a string the answer is never [True], so that
    what is saved and returned is a string. *)
Definition pick_directory : OS.M (option string) :=
  last ← load_last_dir;
  initial ← or_else last (cwd ← OS.getcwd; OS.ret (OS.Str cwd));
  path ←
    OS.catch (answer ← OS.askdirectory initial; OS.ret (OS.Str answer))
      (fun _ =>
         line ← OS.input ("Enter directory path [" +:+ OS.str initial +:+ "]: ");
         or_else (Some (OS.Str (PyStr.strip line))) (OS.ret initial));
  if OS.truthy path then
    is_dir ← OS.isdir_value path;
    match path with
    | OS.Str s =>
        if (is_dir : bool) then
          save_last_dir s;;
          OS.ret (Some s)
        else OS.ret None
    | OS.Other _ => OS.ret None
    end
  else OS.ret None.

(** The first loop of [scan_directory] (lines 56-66): the newest version of
    every base. *)
Fixpoint first_pass (names : list string) (latest : gmap string Z)
  : OS.M (gmap string Z) :=
  match names with
  | [] => OS.ret latest
  | name :: rest =>
      if negb (PyStr.endswith (PyStr.lower name) ".var") then
        first_pass rest latest
      else
        match VERSION_RE_match name with
        | None => first_pass rest latest
        | Some m =>
            base ← OS.lift OS.IndexError (Re.lookup_group "base" m);
            text ← OS.lift OS.IndexError (Re.lookup_group "version" m);
            ver ← OS.lift OS.ValueError (PyStr.int text);
            if (ver >? default (-1) (latest !! base))%Z
            then first_pass rest (<[base := ver]> latest)
            else first_pass rest latest
        end
  end.

(** The second loop of [scan_directory] (lines 68-84): the files older than
    the newest version of their base, and the sum of their sizes. *)
Fixpoint second_pass (dirpath : string) (latest : gmap string Z)
    (names : list string) (outdated : list string) (total_size : Z)
  : OS.M (list string * Z) :=
  match names with
  | [] => OS.ret (outdated, total_size)
  | name :: rest =>
      if negb (PyStr.endswith (PyStr.lower name) ".var") then
        second_pass dirpath latest rest outdated total_size
      else
        match VERSION_RE_match name with
        | None => second_pass dirpath latest rest outdated total_size
        | Some m =>
            base ← OS.lift OS.IndexError (Re.lookup_group "base" m);
            text ← OS.lift OS.IndexError (Re.lookup_group "version" m);
            ver ← OS.lift OS.ValueError (PyStr.int text);
            if (ver <? default ver (latest !! base))%Z then
              let path := PyStr.path_join dirpath name in
              let outdated := (outdated ++ [path])%list in
              total_size ←
                OS.catch
                  (n ← OS.getsize path; OS.ret (total_size + n))
                  (fun e =>
                     match e with
                     | OS.OSError _ => OS.ret total_size
                     | _ => OS.raise e
                     end);
              second_pass dirpath latest rest outdated total_size
            else second_pass dirpath latest rest outdated total_size
        end
  end.

(** [scan_directory] (lines 55-85). *)
Definition scan_directory (dirpath : string) : OS.M (list string * Z) :=
  names ← OS.listdir dirpath;
  latest ← first_pass names ∅;
  names ← OS.listdir dirpath;
  second_pass dirpath latest names [] 0.

(** The loop of [format_size] over its five units (lines 89-93). *)
Fixpoint format_size_loop (units : list string) (num : PyFloat.number)
  : option string :=
  match units with
  | [] =>
      match PyFloat.format_2f num with
      | Some text => Some (text +:+ " PB")
      | None => None
      end
  | unit :: rest =>
      if PyFloat.ltb num PyFloat.f1024 then
        match PyFloat.format_2f num with
        | Some text => Some (text +:+ " " +:+ unit)
        | None => None
        end
      else
        match PyFloat.div num PyFloat.f1024 with
        | Some num => format_size_loop rest num
        | None => None
        end
  end.

(** [format_size(num)]; [None] is Python's [OverflowError]. *)
Definition format_size (num : PyFloat.number) : option string :=
  format_size_loop ["bytes"; "KB"; "MB"; "GB"; "TB"] num.

(** The deletion loop of [main] (lines 115-119). *)
Fixpoint delete_all (paths : list string) : OS.M unit :=
  match paths with
  | [] => OS.ret tt
  | path :: rest =>
      OS.catch (OS.remove path)
        (fun e =>
           match e with
           | OS.OSError reason =>
               OS.print ("Failed to delete " +:+ path +:+ ": " +:+ reason)
           | _ => OS.raise e
           end);;
      delete_all rest
  end.

Definition len {A} (l : list A) : Z := Z.of_nat (length l).

(** [main] (lines 96-124). *)
Definition main : OS.M unit :=
  dirpath ← pick_directory;
  match dirpath with
  | None => OS.print "No directory selected. Exiting."
  | Some dirpath =>
      mode ← OS.input "Choose mode (VIEW/UPDATE): ";
      let mode := PyStr.lower (PyStr.strip mode) in
      if negb (String.eqb mode "view" || String.eqb mode "update") then
        OS.print "Invalid mode. Exiting."
      else
        '(outdated, size) ← scan_directory dirpath;
        let count := len outdated in
        OS.print ("Outdated files: " +:+ PyStr.str_of_Z count);;
        text ← OS.lift OS.OverflowError (format_size (PyFloat.Int size));
        OS.print ("Disk space used: " +:+ text);;
        (if String.eqb mode "update" && (count >? 0)%Z then
           resp ← OS.input "OK to delete? [y/N]: ";
           let resp := PyStr.lower (PyStr.strip resp) in
           if PyStr.startswith resp "y" then
             delete_all outdated;;
             OS.print ("Deleted " +:+ PyStr.str_of_Z (len outdated) +:+ " files.")
           else OS.print "Deletion cancelled."
         else OS.ret tt);;
        _ ← OS.input "Press Enter to exit...";
        OS.ret tt
  end.

(* ===================================================================== *)
(** ** The specification of the scan *)
(* ===================================================================== *)

(** Every character of [s] passes the test [ok]. *)
Fixpoint all_chars (ok : ascii -> bool) (s : string) : bool :=
  match s with
  | EmptyString => true
  | String c s' => ok c && all_chars ok s'
  end.

(** The base and the version of a matching file: a name that ends in
    [.var] in lower case and that [VERSION_RE] matches. *)
Definition parse (name : string) : option (string * Z) :=
  if PyStr.endswith (PyStr.lower name) ".var" then
    m ← VERSION_RE_match name;
    base ← Re.lookup_group "base" m;
    digits ← Re.lookup_group "version" m;
    ver ← PyStr.int digits;
    Some (base, ver)
  else None.

Definition matching (name : string) : Prop := is_Some (parse name).

#[global] Instance matching_dec name : Decision (matching name).
Proof. unfold matching. apply _. Defined.

(** The versions of the matching files of [base], in listing order. *)
Definition versions_of (names : list string) (base : string) : list Z :=
  omap (fun n => '(b, v) ← parse n; if decide (b = base) then Some v else None)
       names.

Definition max_list (l : list Z) : option Z :=
  match l with
  | [] => None
  | v :: vs => Some (foldl Z.max v vs)
  end.

(** The maximum version observed for [base] among the matching files. *)
Definition max_version (names : list string) (base : string) : option Z :=
  max_list (versions_of names base).

(** [m] is the maximum version of [base] in the listing: some matching
    file of the base carries it, and none carries more. *)
Definition is_max_version (names : list string) (base : string) (m : Z)
  : Prop :=
  (exists n, n ∈ names /\ parse n = Some (base, m)) /\
  (forall n v, n ∈ names -> parse n = Some (base, v) -> v <= m).

(** A matching file whose version is strictly less than the maximum
    version of its base. *)
Definition outdated_name (names : list string) (name : string) : bool :=
  match parse name with
  | Some (b, v) =>
      match max_version names b with
      | Some m => (v <? m)%Z
      | None => false
      end
  | None => false
  end.

Definition outdated_names (names : list string) : list string :=
  filter (fun n => outdated_name names n = true) names.

Definition outdated_paths (dirpath : string) (names : list string)
  : list string :=
  PyStr.path_join dirpath <$> outdated_names names.

(** The size of a file, 0 when it cannot be read. *)
Definition readable_size (w : OS.world) (path : string) : Z :=
  match OS.files w !! path with
  | Some f => default 0 (OS.size f)
  | None => 0
  end.

Definition sum_Z (l : list Z) : Z := foldr Z.add 0 l.

(** A name that [os.listdir] can report: it holds no [/]. *)
Definition entry_name (name : string) : Prop :=
  all_chars (fun c => negb (Ascii.eqb c "/")) name = true.

(** The pure content of the two loops. *)
Definition record (latest : gmap string Z) (name : string) : gmap string Z :=
  match parse name with
  | Some (b, v) =>
      if (v >? default (-1) (latest !! b))%Z then <[b := v]> latest else latest
  | None => latest
  end.

(** How one more version changes the entry of its base in [latest]. *)
Definition join_max (o : option Z) (v : Z) : option Z :=
  Some (match o with Some u => Z.max u v | None => v end).

Definition old (latest : gmap string Z) (name : string) : bool :=
  match parse name with
  | Some (b, v) => (v <? default v (latest !! b))%Z
  | None => false
  end.

(** The world [w] with [names] as the listing of [d]. *)
Definition with_listing (w : OS.world) (d : string) (names : list string)
  : OS.world :=
  OS.set_files (<[d := names]> (OS.dirs w)) (OS.files w) w.

(** The paths that [os.remove] was called on, in order. *)
Definition removals (t : list OS.event) : list string :=
  omap (fun e => match e with OS.Remove p => Some p | _ => None end) t.

(** The calls of [os.listdir], [os.path.getsize] and [os.remove], in
    order. *)
Definition accesses (t : list OS.event) : list OS.event :=
  omap (fun e =>
          match e with
          | OS.Listdir _ | OS.Getsize _ | OS.Remove _ => Some e
          | _ => None
          end) t.

(** The message of [main] for a deletion that failed. *)
Definition failure_message (path reason : string) : string :=
  "Failed to delete " +:+ path +:+ ": " +:+ reason.

(** The answer of [os.remove] in a world: the reason of the [OSError] it
    raises, if it raises. *)
Definition remove_error (w : OS.world) (path : string) : option string :=
  match fst (OS.remove path w) with
  | OS.Raise (OS.OSError reason) => Some reason
  | _ => None
  end.

Definition add_events (w : OS.world) (es : list OS.event) : OS.world :=
  OS.set_trace (OS.trace w ++ es) w.

(** The six units of [format_size], the last one for what is left after
    the loop. *)
Definition unit_names : list string := ["bytes"; "KB"; "MB"; "GB"; "TB"; "PB"].

Definition unit_name (k : nat) : string := nth k unit_names "PB".

(** [num] divided [k] times by [1024.0]. *)
Fixpoint scaled (num : PyFloat.number) (k : nat) : option PyFloat.number :=
  match k with
  | O => Some num
  | S k' =>
      match PyFloat.div num PyFloat.f1024 with
      | Some num' => scaled num' k'
      | None => None
      end
  end.

(** A number that [float] accepts: any float, and an int in the range of
    binary64. *)
Definition convertible (num : PyFloat.number) : Prop :=
  match num with
  | PyFloat.Int n => is_Some (PyFloat.of_int n)
  | PyFloat.Float _ => True
  end.

(** The text of [num] with two decimals in the unit of index [k]. *)
Definition render (num : PyFloat.number) (k : nat) : option string :=
  match PyFloat.format_2f num with
  | Some text => Some (text +:+ " " +:+ unit_name k)
  | None => None
  end.

(** Two parts of [main], named for the proofs: what follows the prompt
    for the confirmation, and what follows the scan. *)
Definition confirm_and_delete (outdated : list string) : OS.M unit :=
  resp ← OS.input "OK to delete? [y/N]: ";
  let resp := PyStr.lower (PyStr.strip resp) in
  if PyStr.startswith resp "y" then
    delete_all outdated;;
    OS.print ("Deleted " +:+ PyStr.str_of_Z (len outdated) +:+ " files.")
  else OS.print "Deletion cancelled.".

Definition report_and_delete (mode : string) (outdated : list string)
    (size : Z) : OS.M unit :=
  let count := len outdated in
  OS.print ("Outdated files: " +:+ PyStr.str_of_Z count);;
  text ← OS.lift OS.OverflowError (format_size (PyFloat.Int size));
  OS.print ("Disk space used: " +:+ text);;
  (if String.eqb mode "update" && (count >? 0)%Z
   then confirm_and_delete outdated
   else OS.ret tt);;
  _ ← OS.input "Press Enter to exit...";
  OS.ret tt.

(** The world after [input] has read a line. *)
Definition after_input (w : OS.world) (prompt : string) (rest : list string)
  : OS.world :=
  OS.set_stdin rest (add_events w [OS.Input prompt]).

(** Two worlds with the same directories and files. *)
Definition same_files (w w' : OS.world) : Prop :=
  OS.dirs w' = OS.dirs w /\ OS.files w' = OS.files w.

(** A computation that leaves the directories and the files as they are
    and calls none of [os.listdir], [os.path.getsize] and [os.remove]. *)
Definition quiet {A} (c : OS.M A) : Prop :=
  forall w r w',
    c w = (r, w') ->
    same_files w w' /\ accesses (OS.trace w') = accesses (OS.trace w).

(** A directory to run the program on: three versions of [pack] (two of
    them spell version 1), one of [x], and three names outside the
    grammar.  The size of [pack.01.VAR] cannot be read, and [pack.1.var]
    cannot be deleted.  The dialog answers [/d], and there is no
    preference file yet. *)
Definition shelf_names : list string :=
  ["pack.1.var"; "readme.txt"; "pack.2.var"; "x.5.var"; "pack.01.VAR";
   "a.var"; "a.x.var"].

Definition shelf (lines : list string) : OS.world :=
  OS.World
    {[ "/d" := shelf_names ]}
    {[ "/d/pack.1.var" :=
         OS.File (Some 100) (Some "[Errno 13] Permission denied") false;
       "/d/pack.2.var" := OS.File (Some 200) None false;
       "/d/pack.01.VAR" := OS.File None None false;
       "/d/x.5.var" := OS.File (Some 7) None false;
       "/d/readme.txt" := OS.File (Some 4096) None false;
       "/d/a.var" := OS.File (Some 1) None false;
       "/d/a.x.var" := OS.File (Some 1) None false ]}
    lines (Some "/d") (Some "/home/user") OS.NoFile true true [].

(* ===================================================================== *)
(** ** The vocabulary of the further properties *)
(* ===================================================================== *)

(** A text without a newline: what [.+?] can take. *)
Definition one_line (s : string) : Prop :=
  all_chars (Re.accepts VERSION_FLAGS Re.Dot) s = true.

(** The events of a scan of [d]: a listing of [d], or a size asked. *)
Definition scan_event (d : string) (e : OS.event) : Prop :=
  match e with
  | OS.Listdir p => p = d
  | OS.Getsize _ => True
  | _ => False
  end.

(** [os.remove] can delete [p] in [w]: the file is there and nothing
    protects it. *)
Definition deletable (w : OS.world) (p : string) : Prop :=
  remove_error w p = None.

#[global] Instance deletable_dec w p : Decision (deletable w p).
Proof. unfold deletable. apply _. Defined.

(** The events of [main] from the prompt for the mode to the two lines
    of its report. *)
Definition report_events (d : string) (outdated : list string)
    (text : string) : list OS.event :=
  [OS.Input "Choose mode (VIEW/UPDATE): "; OS.Listdir d; OS.Listdir d]
  ++ (OS.Getsize <$> outdated)
  ++ [OS.Print ("Outdated files: " +:+ PyStr.str_of_Z (len outdated));
      OS.Print ("Disk space used: " +:+ text)].

(** How [main] ends at its last prompt, with [rest] left to read. *)
Definition at_last_prompt (rest : list string) : OS.res unit :=
  match rest with
  | [] => OS.Raise OS.EOFError
  | _ :: _ => OS.Ok tt
  end.

(** The files that the scan keeps. *)
Definition kept_names (names : list string) : list string :=
  filter (fun n => outdated_name names n = false) names.

(** The world [w] where the directory dialog answers [answer]. *)
Definition with_dialog (answer : option string) (w : OS.world) : OS.world :=
  OS.World (OS.dirs w) (OS.files w) (OS.stdin w) answer
           (OS.cwd w) (OS.config w) (OS.config_writable w)
           (OS.config_openable w) (OS.trace w).

(** The shelf with nothing protected: every file can be deleted. *)
Definition open_shelf (lines : list string) : OS.world :=
  OS.set_files (OS.dirs (shelf lines))
    (<["/d/pack.1.var" := OS.File (Some 100) None false]>
       (OS.files (shelf lines)))
    (shelf lines).

(** What [pick_directory] takes from the preference file: the value
    under [last_dir], unless there is none or it is falsy. *)
Definition remembered (w : OS.world) : option OS.value :=
  match OS.config w with
  | OS.LastDir (Some dir) =>
      if OS.truthy (OS.Str dir) then Some (OS.Str dir) else None
  | OS.LastOther v =>
      if OS.truthy (OS.Other v) then Some (OS.Other v) else None
  | _ => None
  end.



(** The directory that [pick_directory] proposes: the remembered one,
    the working directory when there is none; [None] when there is
    neither, and [os.getcwd] raises. *)
Definition initial_dir (w : OS.world) : option OS.value :=
  match remembered w with
  | Some v => Some v
  | None => OS.Str <$> OS.cwd w
  end.

(** The world once [save_last_dir path] is over: the path is recorded;
    or the preference file was opened, which has emptied it, and could
    not be written; or it could not be opened, and is as it was. *)
Definition recorded (path : string) (w : OS.world) : OS.world :=
  if OS.config_writable w then OS.set_config (OS.LastDir (Some path)) w
  else if OS.config_openable w then OS.set_config OS.Corrupt w
  else w.

(** The last lines of [pick_directory] (46-49), from the path that was
    chosen. *)
Definition keep_directory (path : OS.value) : OS.M (option string) :=
  if OS.truthy path then
    is_dir ← OS.isdir_value path;
    match path with
    | OS.Str s =>
        if (is_dir : bool) then
          save_last_dir s;;
          OS.ret (Some s)
        else OS.ret None
    | OS.Other _ => OS.ret None
    end
  else OS.ret None.

(** The error of [os.getcwd] in a working directory that is gone. *)
Definition cwd_gone : OS.exn := OS.OSError "[Errno 2] No such file or directory".

(** The prompt of [pick_directory] without a display. *)
Definition path_prompt (initial : OS.value) : string :=
  "Enter directory path [" +:+ OS.str initial +:+ "]: ".

(* ===================================================================== *)
(** ** What a match of [VERSION_RE] looks like *)
(* ===================================================================== *)

Section ReFacts.

Lemma app_cons c s t : String c s +:+ t = String c (s +:+ t).
Proof. reflexivity. Qed.

Lemma app_empty_r s : s +:+ "" = s.
Proof. induction s as [|c s IH]; [done|]. by rewrite app_cons, IH. Qed.

Lemma app_assoc' s t u : (s +:+ t) +:+ u = s +:+ (t +:+ u).
Proof. induction s as [|c s IH]; [done|]. by rewrite !app_cons, IH. Qed.

Lemma all_chars_app ok s t :
  all_chars ok (s +:+ t) = all_chars ok s && all_chars ok t.
Proof.
  induction s as [|c s IH]; [done|].
  rewrite app_cons. simpl. rewrite IH. by rewrite andb_assoc.
Qed.

Lemma once_inv ok k s r :
  Re.once ok k s = Some r ->
  exists c s', s = String c s' /\ ok c = true /\ k (String c "") s' = Some r.
Proof.
  destruct s as [|c s']; simpl; [done|].
  destruct (ok c) eqn:Hc; [|done]. intros H. by exists c, s'.
Qed.

Lemma lazy_plus_inv ok k s taken r :
  Re.lazy_plus ok k s taken = Some r ->
  exists more rest,
    more <> "" /\ s = more +:+ rest /\ all_chars ok more = true /\
    k (taken +:+ more) rest = Some r.
Proof.
  revert taken. induction s as [|c s IH]; intros taken; simpl; [done|].
  destruct (ok c) eqn:Hc; [|done].
  destruct (k (taken +:+ String c "") s) as [r'|] eqn:Hk.
  - intros [= <-]. exists (String c ""), s. simpl. by rewrite Hc.
  - intros H. apply IH in H as (more & rest & _ & -> & Hall & Hr).
    exists (String c more), rest. repeat split; [done| |].
    + simpl. by rewrite Hc.
    + by rewrite app_assoc' in Hr.
Qed.

Lemma greedy_plus_inv ok k s taken r :
  Re.greedy_plus ok k s taken = Some r ->
  exists more rest,
    more <> "" /\ s = more +:+ rest /\ all_chars ok more = true /\
    k (taken +:+ more) rest = Some r.
Proof.
  revert taken. induction s as [|c s IH]; intros taken; simpl; [done|].
  destruct (ok c) eqn:Hc; [|done].
  destruct (Re.greedy_plus ok k s (taken +:+ String c "")) as [r'|] eqn:Hg.
  - intros [= <-]. apply IH in Hg as (more & rest & _ & -> & Hall & Hr).
    exists (String c more), rest. repeat split; [done| |].
    + simpl. by rewrite Hc.
    + by rewrite app_assoc' in Hr.
  - intros H. exists (String c ""), s. simpl. by rewrite Hc.
Qed.

Lemma at_end_inv s :
  Re.at_end s = true -> s = "" \/ s = String Re.newline "".
Proof.
  destruct s as [|c [|d s]]; simpl; [by left| |done].
  intros H. apply Ascii.eqb_eq in H as ->. by right.
Qed.

(** The characters that a case-insensitive literal accepts. *)
Lemma accepts_dot c :
  Re.accepts VERSION_FLAGS (Re.Chr ".") c = true -> c = "."%char.
Proof.
  destruct c as [[] [] [] [] [] [] [] []]; vm_compute; congruence.
Qed.

Lemma accepts_letter (l : ascii) c :
  (l = "v" \/ l = "a" \/ l = "r")%char ->
  Re.accepts VERSION_FLAGS (Re.Chr l) c = true ->
  PyStr.lower_char c = l.
Proof.
  intros [-> | [-> | ->]];
    destruct c as [[] [] [] [] [] [] [] []]; vm_compute; congruence.
Qed.

(** A match of [VERSION_RE] splits the name into a base, a dot, a run of
    digits, a dot and an extension that reads [var] in lower case; the
    only text that may follow is the one newline that [$] tolerates. *)
Lemma VERSION_RE_shape name m :
  VERSION_RE_match name = Some m ->
  exists base digits ext tail,
    name = base +:+ "." +:+ digits +:+ "." +:+ ext +:+ tail /\
    base <> "" /\ all_chars (Re.accepts VERSION_FLAGS Re.Dot) base = true /\
    digits <> "" /\ all_chars PyStr.is_digit digits = true /\
    PyStr.lower ext = "var" /\
    (tail = "" \/ tail = String Re.newline "") /\
    m = [("version", digits); ("base", base)].
Proof.
  unfold VERSION_RE_match, Re.match_, VERSION_RE. simpl.
  intros H.
  apply lazy_plus_inv in H as (base & r1 & Hb & -> & Hball & H).
  apply once_inv in H as (c1 & r2 & -> & Hc1 & H).
  apply accepts_dot in Hc1 as ->.
  apply greedy_plus_inv in H as (digits & r3 & Hd & -> & Hdall & H).
  apply once_inv in H as (c2 & r4 & -> & Hc2 & H).
  apply accepts_dot in Hc2 as ->.
  apply once_inv in H as (cv & r5 & -> & Hv & H).
  apply once_inv in H as (ca & r6 & -> & Ha & H).
  apply once_inv in H as (cr & r7 & -> & Hr & H).
  apply accepts_letter in Hv; [|tauto].
  apply accepts_letter in Ha; [|tauto].
  apply accepts_letter in Hr; [|tauto].
  simpl in H. destruct (Re.at_end r7) eqn:Hend; [|done].
  injection H as <-. apply at_end_inv in Hend.
  exists base, digits, (String cv (String ca (String cr ""))), r7.
  repeat split; try done.
  simpl. by rewrite Hv, Ha, Hr.
Qed.

Lemma int_acc_digits acc s :
  all_chars PyStr.is_digit s = true -> 0 <= acc ->
  exists v, PyStr.int_acc acc s = Some v /\ 0 <= v.
Proof.
  revert acc. induction s as [|c s IH]; intros acc; simpl.
  - intros _ Hacc. by exists acc.
  - intros [Hc Hs]%andb_prop Hacc. rewrite Hc. apply IH; [done|].
    unfold PyStr.digit_value, PyStr.is_digit in *.
    apply andb_prop in Hc as [Hlo%N.leb_le _]. lia.
Qed.

Lemma int_digits s :
  s <> "" -> all_chars PyStr.is_digit s = true ->
  exists v, PyStr.int s = Some v /\ 0 <= v.
Proof.
  intros Hne Hall. destruct s as [|c s]; [done|].
  unfold PyStr.int. by apply int_acc_digits.
Qed.

(** The groups and the version that the two loops of [scan_directory]
    read off a match: they are always there, and the version is a
    natural number. *)
Lemma VERSION_RE_groups name m :
  VERSION_RE_match name = Some m ->
  exists base digits ver,
    Re.lookup_group "base" m = Some base /\
    Re.lookup_group "version" m = Some digits /\
    PyStr.int digits = Some ver /\ 0 <= ver.
Proof.
  intros H.
  apply VERSION_RE_shape in H
    as (base & digits & ext & tail & _ & _ & _ & Hd & Hall & _ & _ & ->).
  destruct (int_digits digits Hd Hall) as (ver & Hint & Hpos).
  by exists base, digits, ver.
Qed.

Lemma lower_app s t : PyStr.lower (s +:+ t) = PyStr.lower s +:+ PyStr.lower t.
Proof. induction s as [|c s IH]; [done|]. rewrite app_cons. simpl. by rewrite IH. Qed.

Lemma newline_last_not_var s : s +:+ String Re.newline "" <> "var".
Proof.
  destruct s as [|a [|b [|c [|d s]]]]; try discriminate.
Qed.

(** A name that ends in a newline fails the test on the extension. *)
Lemma endswith_newline s :
  PyStr.endswith (PyStr.lower (s +:+ String Re.newline "")) ".var" = false.
Proof.
  induction s as [|c s IH]; [done|].
  rewrite app_cons. cbn [PyStr.lower PyStr.endswith].
  rewrite IH.
  destruct (String.eqb_spec
              (String (PyStr.lower_char c)
                 (PyStr.lower (s +:+ String Re.newline ""))) ".var")
    as [Heq|Hne]; [|done].
  exfalso. injection Heq as _ Heq. rewrite lower_app in Heq.
  by apply newline_last_not_var in Heq.
Qed.

End ReFacts.

Section ScanFacts.

Lemma add_events_nil w : add_events w [] = w.
Proof. destruct w. unfold add_events. simpl. by rewrite app_nil_r. Qed.

Lemma add_events_app w es es' :
  add_events (add_events w es) es' = add_events w (es ++ es').
Proof. unfold add_events. simpl. by rewrite <- app_assoc. Qed.

Lemma parse_Some n b v : parse n = Some (b, v) -> 0 <= v.
Proof.
  unfold parse. destruct (PyStr.endswith _ _); [|done].
  destruct (VERSION_RE_match n) as [m|] eqn:Hm; [|done]. simpl.
  destruct (VERSION_RE_groups _ _ Hm) as (b' & t & v' & Hb & Ht & Hi & Hv).
  rewrite Hb. simpl. rewrite Ht. simpl. rewrite Hi. simpl.
  by intros [= _ <-].
Qed.

(** What [parse] reads is what the name spells: the base, a dot, the
    digits of the version, a dot, and [var] in any case. *)
Lemma parse_shape name b v :
  parse name = Some (b, v) ->
  exists digits ext,
    name = b +:+ "." +:+ digits +:+ "." +:+ ext /\
    b <> "" /\ digits <> "" /\ all_chars PyStr.is_digit digits = true /\
    PyStr.lower ext = "var" /\ PyStr.int digits = Some v.
Proof.
  unfold parse. destruct (PyStr.endswith _ _) eqn:Hend; [|done].
  destruct (VERSION_RE_match name) as [m|] eqn:Hm; [|done]. simpl.
  destruct (VERSION_RE_shape _ _ Hm)
    as (base & digits & ext & tl & Hname & Hb & _ & Hd & Hall & Hext & Htl & ->).
  cbn. destruct (PyStr.int digits) as [v'|] eqn:Hint; [|done].
  cbn. intros [= <- <-]. exists digits, ext.
  destruct Htl as [->| ->].
  - rewrite app_empty_r in Hname. done.
  - exfalso. rewrite Hname in Hend.
    replace (base +:+ "." +:+ digits +:+ "." +:+ ext +:+ String Re.newline "")
      with ((base +:+ "." +:+ digits +:+ "." +:+ ext) +:+ String Re.newline "")
      in Hend by (by rewrite !app_assoc').
    by rewrite endswith_newline in Hend.
Qed.

(** One turn of either loop: the name is skipped, or its base and
    version are read without an exception. *)
Lemma loop_head A (name : string) (skip : OS.M A)
    (body : string -> Z -> OS.M A) :
  (if negb (PyStr.endswith (PyStr.lower name) ".var") then skip
   else
     match VERSION_RE_match name with
     | None => skip
     | Some m =>
         base ← OS.lift OS.IndexError (Re.lookup_group "base" m);
         text ← OS.lift OS.IndexError (Re.lookup_group "version" m);
         ver ← OS.lift OS.ValueError (PyStr.int text);
         body base ver
     end)
  = match parse name with
    | Some (b, v) => body b v
    | None => skip
    end.
Proof.
  unfold parse. destruct (PyStr.endswith _ _); [|done]. simpl.
  destruct (VERSION_RE_match name) as [m|] eqn:Hm; [|done]. simpl.
  destruct (VERSION_RE_groups _ _ Hm) as (b & t & v & Hb & Ht & Hi & _).
  rewrite Hb. simpl. rewrite Ht. simpl. rewrite Hi. simpl.
  unfold mbind, M_bind, OS.bind. simpl. rewrite Hi. done.
Qed.

Lemma first_pass_run names latest w :
  first_pass names latest w = (OS.Ok (foldl record latest names), w).
Proof.
  revert latest. induction names as [|n names IH]; intros latest; [done|].
  simpl first_pass. rewrite loop_head. simpl foldl. unfold record at 2.
  destruct (parse n) as [[b v]|]; [|apply IH].
  destruct (v >? default (-1) (latest !! b))%Z; apply IH.
Qed.

Lemma second_pass_run d latest names outdated total w :
  let found := PyStr.path_join d <$> filter (fun n => old latest n = true) names in
  second_pass d latest names outdated total w
  = (OS.Ok (outdated ++ found, total + sum_Z (readable_size w <$> found)),
     add_events w (OS.Getsize <$> found)).
Proof.
  revert outdated total w.
  induction names as [|n names IH]; intros outdated total w; simpl.
  - by rewrite app_nil_r, Z.add_0_r, add_events_nil.
  - rewrite loop_head, filter_cons.
    destruct (decide (old latest n = true)) as [Hold|Hold]; unfold old in Hold.
    + destruct (parse n) as [[b v]|]; [|done]. rewrite Hold. simpl.
      unfold mbind, M_bind, OS.bind, OS.catch, OS.getsize, OS.ret. simpl.
      set (p := PyStr.path_join d n).
      set (rest := PyStr.path_join d <$>
                     filter (fun n => old latest n = true) names).
      assert (Hstep : forall t' : Z,
        t' = total + readable_size w p ->
        second_pass d latest names (outdated ++ [p]) t'
          (OS.log (OS.Getsize p) w)
        = (OS.Ok (outdated ++ p :: rest,
                  total + (readable_size w p
                           + sum_Z (readable_size w <$> rest))),
           add_events w (OS.Getsize p :: (OS.Getsize <$> rest)))).
      { intros t' ->. rewrite IH. fold rest. f_equal.
        - f_equal. f_equal; [by rewrite <- app_assoc|].
          change (readable_size (OS.log (OS.Getsize p) w))
            with (readable_size w). lia.
        - change (OS.log (OS.Getsize p) w) with (add_events w [OS.Getsize p]).
          by rewrite add_events_app. }
      unfold readable_size in Hstep at 1.
      destruct (OS.files w !! p) as [f|]; simpl.
      * destruct (OS.size f) as [sz|]; simpl; apply Hstep; simpl; lia.
      * apply Hstep; lia.
    + destruct (parse n) as [[b v]|]; [|apply IH].
      destruct (v <? default v (latest !! b)); [done|apply IH].
Qed.

Lemma record_lookup latest n b :
  (forall b' u, latest !! b' = Some u -> 0 <= u) ->
  record latest n !! b
  = match parse n with
    | Some (b', v) =>
        if decide (b' = b) then join_max (latest !! b) v else latest !! b
    | None => latest !! b
    end.
Proof.
  intros Hpos. unfold record.
  destruct (parse n) as [[b' v]|] eqn:Hp; [|done].
  apply parse_Some in Hp.
  destruct (v >? default (-1) (latest !! b')) eqn:Hgt.
  - destruct (decide (b' = b)) as [->|Hne].
    + rewrite lookup_insert_eq. unfold join_max.
      destruct (latest !! b) as [u|]; simpl in *; f_equal; lia.
    + by rewrite lookup_insert_ne.
  - destruct (decide (b' = b)) as [->|Hne]; [|done].
    unfold join_max. destruct (latest !! b) as [u|] eqn:Hu; simpl in *.
    + f_equal. lia.
    + lia.
Qed.

Lemma record_nonneg latest n :
  (forall b u, latest !! b = Some u -> 0 <= u) ->
  forall b u, record latest n !! b = Some u -> 0 <= u.
Proof.
  intros Hpos b u. rewrite record_lookup by done.
  destruct (parse n) as [[b' v]|] eqn:Hp; [|apply Hpos].
  apply parse_Some in Hp.
  destruct (decide (b' = b)) as [->|Hne]; [|apply Hpos].
  unfold join_max. destruct (latest !! b) as [u'|] eqn:Hu.
  - intros [= <-]. apply Hpos in Hu. lia.
  - by intros [= <-].
Qed.

Lemma first_pass_lookup names latest b :
  (forall b' u, latest !! b' = Some u -> 0 <= u) ->
  foldl record latest names !! b
  = foldl join_max (latest !! b) (versions_of names b).
Proof.
  revert latest. induction names as [|n names IH]; intros latest Hpos; [done|].
  simpl foldl. rewrite IH by by apply record_nonneg.
  rewrite record_lookup by done. unfold versions_of. simpl omap.
  destruct (parse n) as [[b' v]|]; simpl; [|done].
  by destruct (decide (b' = b)).
Qed.

Lemma join_max_Some u l : foldl join_max (Some u) l = Some (foldl Z.max u l).
Proof. revert u. induction l as [|v l IH]; intros u; [done|]. apply IH. Qed.

Lemma join_max_list l : foldl join_max None l = max_list l.
Proof. destruct l as [|v l]; [done|]. apply join_max_Some. Qed.

Lemma latest_is_max names b :
  foldl record ∅ names !! b = max_version names b.
Proof.
  rewrite first_pass_lookup.
  - rewrite lookup_empty. apply join_max_list.
  - intros b' u. by rewrite lookup_empty.
Qed.

Lemma foldl_max_spec u l m :
  foldl Z.max u l = m <->
  (m = u \/ m ∈ l) /\ u <= m /\ (forall v, v ∈ l -> v <= m).
Proof.
  revert u. induction l as [|v l IH]; intros u; simpl.
  - split.
    + intros <-. split; [by left|]. split; [lia|]. by intros v ?%elem_of_nil.
    + intros ([->|?%elem_of_nil] & _ & _); done.
  - rewrite IH. split.
    + intros (Hin & Hle & Hall). split; [|split].
      * destruct Hin as [->|Hin]; [|right; by right].
        destruct (Z.max_spec u v) as [[_ ->]|[_ ->]]; [right; by left|by left].
      * lia.
      * intros x [->|Hx]%elem_of_cons; [lia|by apply Hall].
    + intros (Hin & Hle & Hall).
      assert (v <= m) by (apply Hall; by left).
      split; [|split].
      * destruct Hin as [->|[->|Hin]%elem_of_cons]; [left; lia|left; lia|by right].
      * lia.
      * intros x Hx. apply Hall. by right.
Qed.

Lemma max_list_spec l m :
  max_list l = Some m <-> m ∈ l /\ forall v, v ∈ l -> v <= m.
Proof.
  destruct l as [|u l]; simpl.
  - split; [done|]. by intros [?%elem_of_nil _].
  - split.
    + intros [= H]. apply foldl_max_spec in H as (Hin & Hle & Hall). split.
      * destruct Hin as [->|Hin]; [by left|by right].
      * intros v [->|Hv]%elem_of_cons; [done|by apply Hall].
    + intros [Hin Hall]. f_equal. apply foldl_max_spec. split; [|split].
      * by apply elem_of_cons in Hin.
      * apply Hall. by left.
      * intros v Hv. apply Hall. by right.
Qed.

Lemma elem_of_versions_of names b v :
  v ∈ versions_of names b <-> exists n, n ∈ names /\ parse n = Some (b, v).
Proof.
  unfold versions_of. rewrite list_elem_of_omap. split.
  - intros (n & Hn & H). exists n. split; [done|].
    destruct (parse n) as [[b' v']|]; simpl in H; [|done].
    destruct (decide (b' = b)) as [->|]; [|done]. by injection H as ->.
  - intros (n & Hn & Hp). exists n. split; [done|]. rewrite Hp. simpl.
    by rewrite decide_True.
Qed.

Lemma max_version_spec names b m :
  max_version names b = Some m <-> is_max_version names b m.
Proof.
  unfold max_version, is_max_version. rewrite max_list_spec.
  rewrite elem_of_versions_of. split; intros [Hin Hall]; (split; [done|]).
  - intros n v Hn Hp. apply Hall. apply elem_of_versions_of. eauto.
  - intros v (n & Hn & Hp)%elem_of_versions_of. eauto.
Qed.

Lemma max_version_exists names n b v :
  n ∈ names -> parse n = Some (b, v) ->
  exists m, max_version names b = Some m /\ v <= m.
Proof.
  intros Hn Hp. destruct (max_version names b) as [m|] eqn:Hm.
  - exists m. split; [done|]. apply max_version_spec in Hm as [_ Hall]. eauto.
  - unfold max_version in Hm.
    assert (Hv : v ∈ versions_of names b) by (apply elem_of_versions_of; eauto).
    destruct (versions_of names b); [by apply elem_of_nil in Hv|done].
Qed.

Lemma old_latest names n :
  old (foldl record ∅ names) n = outdated_name names n.
Proof.
  unfold old, outdated_name. destruct (parse n) as [[b v]|]; [|done].
  rewrite latest_is_max. destruct (max_version names b); simpl; [done|lia].
Qed.

(** The run of [scan_directory] on a directory that can be listed. *)
Lemma scan_directory_run w d names :
  OS.dirs w !! d = Some names ->
  scan_directory d w
  = (OS.Ok (outdated_paths d names,
            sum_Z (readable_size w <$> outdated_paths d names)),
     add_events w (OS.Listdir d :: OS.Listdir d ::
                     (OS.Getsize <$> outdated_paths d names))).
Proof.
  intros Hd. unfold scan_directory, mbind, M_bind, OS.bind, OS.listdir.
  simpl. rewrite Hd, first_pass_run. simpl. rewrite Hd.
  rewrite second_pass_run. simpl.
  assert (Hf : filter (fun n => old (foldl record ∅ names) n = true) names
               = outdated_names names).
  { unfold outdated_names. apply list_filter_iff. intros n.
    by rewrite old_latest. }
  rewrite Hf. fold (outdated_paths d names). f_equal.
  change (OS.log (OS.Listdir d) (OS.log (OS.Listdir d) w))
    with (add_events (add_events w [OS.Listdir d]) [OS.Listdir d]).
  by rewrite !add_events_app.
Qed.

End ScanFacts.

(* ===================================================================== *)
(** ** Paths *)
(* ===================================================================== *)

Section PathFacts.

Lemma entry_name_not_absolute n :
  entry_name n -> PyStr.startswith n "/" = false.
Proof.
  unfold entry_name, PyStr.startswith. destruct n as [|c n]; [done|].
  cbn [all_chars String.prefix]. intros [Hc _]%andb_prop.
  destruct (ascii_dec "/" c) as [<-|Hne]; [done|done].
Qed.

(** Inside one directory, different names have different paths. *)
Lemma path_join_inj d n n' :
  entry_name n -> entry_name n' ->
  PyStr.path_join d n = PyStr.path_join d n' -> n = n'.
Proof.
  intros Hn%entry_name_not_absolute Hn'%entry_name_not_absolute.
  unfold PyStr.path_join. rewrite Hn, Hn'.
  destruct (String.eqb d "" || PyStr.endswith d "/").
  - apply String.app_inj.
  - intros H%String.app_inj. by apply (String.app_inj "/") in H.
Qed.

Lemma in_outdated_paths d names n :
  Forall entry_name names -> n ∈ names ->
  PyStr.path_join d n ∈ outdated_paths d names <-> n ∈ outdated_names names.
Proof.
  intros Hall Hn. unfold outdated_paths. rewrite list_elem_of_fmap. split.
  - intros (n' & Heq & Hn'). 
    assert (n' ∈ names) as Hin by (eapply list_elem_of_filter, Hn').
    rewrite Forall_forall in Hall.
    by rewrite (path_join_inj d n n' (Hall n Hn) (Hall n' Hin) Heq).
  - intros H. by exists n.
Qed.

End PathFacts.

(* ===================================================================== *)
(** ** The scan: which files are outdated *)
(* ===================================================================== *)

Section ScanTheorems.

Lemma elem_of_outdated_names names n :
  n ∈ outdated_names names <->
  n ∈ names /\
  exists b v m, parse n = Some (b, v) /\ is_max_version names b m /\ v < m.
Proof.
  unfold outdated_names. rewrite list_elem_of_filter. unfold outdated_name.
  split.
  - intros [H Hn]. split; [done|].
    destruct (parse n) as [[b v]|]; [|done].
    destruct (max_version names b) as [m|] eqn:Hm; [|done].
    exists b, v, m. apply max_version_spec in Hm. split; [done|]. split; [done|lia].
  - intros [Hn (b & v & m & Hp & Hm%max_version_spec & Hlt)]. split; [|done].
    rewrite Hp, Hm. lia.
Qed.

Lemma max_version_not_outdated names n b m :
  parse n = Some (b, m) -> is_max_version names b m -> n ∉ outdated_names names.
Proof.
  intros Hp Hm (_ & b' & v & m' & Hp' & Hm' & Hlt)%elem_of_outdated_names.
  rewrite Hp in Hp'. injection Hp' as <- <-.
  apply max_version_spec in Hm, Hm'. rewrite Hm in Hm'. injection Hm' as <-. lia.
Qed.

(** C1. In a directory that can be listed, [scan_directory] returns, in
    listing order, the paths of exactly the matching files whose version is
    strictly less than the maximum version of their base among the matching
    files of the listing.  Hence the only matching file of a base is never
    outdated, and files that carry the maximum version of their base are
    not outdated, however many of them there are. *)
Theorem scan_directory_outdated w d names :
  OS.dirs w !! d = Some names ->
  exists total w',
    scan_directory d w = (OS.Ok (outdated_paths d names, total), w') /\
    (forall n, n ∈ outdated_names names <->
       n ∈ names /\
       exists b v m,
         parse n = Some (b, v) /\ is_max_version names b m /\ v < m) /\
    (Forall entry_name names -> forall n, n ∈ names ->
       PyStr.path_join d n ∈ outdated_paths d names <->
       n ∈ outdated_names names) /\
    (forall n b v, n ∈ names -> parse n = Some (b, v) ->
       (forall n' v', n' ∈ names -> parse n' = Some (b, v') -> n' = n) ->
       n ∉ outdated_names names) /\
    (forall n1 n2 b m, n1 ∈ names -> n2 ∈ names ->
       parse n1 = Some (b, m) -> parse n2 = Some (b, m) ->
       is_max_version names b m ->
       (n1 ∉ outdated_names names) /\ (n2 ∉ outdated_names names)).
Proof.
  intros Hd. eexists _, _. split; [by apply scan_directory_run|].
  split; [apply elem_of_outdated_names|].
  split; [(intros; by apply in_outdated_paths)|].
  split.
  - intros n b v Hn Hp Honly. apply (max_version_not_outdated names n b v Hp).
    split; [by exists n|].
    intros n' v' Hn' Hp'. rewrite (Honly n' v' Hn' Hp') in Hp'.
    rewrite Hp in Hp'. injection Hp' as <-. lia.
  - intros n1 n2 b m _ _ Hp1 Hp2 Hm.
    split; eapply max_version_not_outdated; eauto.
Qed.

Lemma scan_directory_outdated_witness :
  OS.dirs (shelf []) !! "/d" = Some shelf_names /\
  exists total w',
    scan_directory "/d" (shelf [])
    = (OS.Ok (["/d/pack.1.var"; "/d/pack.01.VAR"], total), w').
Proof.
  split; [reflexivity|].
  destruct (scan_directory_outdated (shelf []) "/d" shelf_names eq_refl)
    as (total & w' & Hrun & _).
  exists total, w'. exact Hrun.
Defined.

Lemma readable_size_getsize w p :
  match fst (OS.getsize p w) with
  | OS.Ok n => readable_size w p = n
  | OS.Raise _ => readable_size w p = 0
  end.
Proof.
  unfold OS.getsize, readable_size. simpl.
  destruct (OS.files w !! p) as [f|]; [|done]. by destruct (OS.size f).
Qed.

(** C4. In a directory that can be listed, the total that [scan_directory]
    returns is the sum, over the outdated files it returns and over no other
    file, of the size that [os.path.getsize] reports, with 0 for a file
    whose size cannot be read; such a file is in the outdated list all the
    same, since the list does not depend on the sizes. *)
Theorem scan_directory_total w d names :
  OS.dirs w !! d = Some names ->
  exists w',
    scan_directory d w
    = (OS.Ok (outdated_paths d names,
              sum_Z (readable_size w <$> outdated_paths d names)), w') /\
    (forall p,
       match fst (OS.getsize p w) with
       | OS.Ok n => readable_size w p = n
       | OS.Raise _ => readable_size w p = 0
       end) /\
    (forall n, n ∈ outdated_names names ->
       PyStr.path_join d n ∈ outdated_paths d names).
Proof.
  intros Hd. eexists. split; [by apply scan_directory_run|].
  split; [intros p; apply readable_size_getsize|].
  intros n Hn. unfold outdated_paths. apply list_elem_of_fmap. by exists n.
Qed.

Lemma scan_directory_total_witness :
  OS.dirs (shelf []) !! "/d" = Some shelf_names /\
  (exists e, fst (OS.getsize "/d/pack.01.VAR" (shelf [])) = OS.Raise e) /\
  exists w',
    scan_directory "/d" (shelf [])
    = (OS.Ok (["/d/pack.1.var"; "/d/pack.01.VAR"], 100), w').
Proof.
  split; [reflexivity|]. split; [by eexists|].
  destruct (scan_directory_total (shelf []) "/d" shelf_names eq_refl)
    as (w' & Hrun & _).
  exists w'. exact Hrun.
Defined.

Lemma omap_filter {A B} (f : A -> option B) (P : A -> Prop)
    `{!forall x, Decision (P x)} (l : list A) :
  (forall x, ~ P x -> f x = None) -> omap f (filter P l) = omap f l.
Proof.
  intros Hf. induction l as [|x l IH]; [done|].
  rewrite filter_cons. destruct (decide (P x)) as [Hx|Hx].
  - change (omap f (x :: filter P l))
      with (match f x with
            | Some y => y :: omap f (filter P l)
            | None => omap f (filter P l)
            end).
    by rewrite IH.
  - rewrite IH.
    change (omap f (x :: l))
      with (match f x with
            | Some y => y :: omap f l
            | None => omap f l
            end).
    by rewrite (Hf x Hx).
Qed.

Lemma versions_of_matching names b :
  versions_of (filter matching names) b = versions_of names b.
Proof.
  unfold versions_of. apply omap_filter. intros n Hm. unfold matching in Hm.
  destruct (parse n) as [[b' v]|]; [|done]. destruct Hm. by eexists.
Qed.

Lemma max_version_matching names b :
  max_version (filter matching names) b = max_version names b.
Proof. unfold max_version. by rewrite versions_of_matching. Qed.

Lemma outdated_name_matching names n :
  outdated_name (filter matching names) n = outdated_name names n.
Proof.
  unfold outdated_name. destruct (parse n) as [[b v]|]; [|done].
  by rewrite max_version_matching.
Qed.

Lemma outdated_names_matching names :
  outdated_names (filter matching names) = outdated_names names.
Proof.
  unfold outdated_names.
  rewrite (list_filter_iff _ (fun n => outdated_name names n = true))
    by (intros n; by rewrite outdated_name_matching).
  rewrite list_filter_filter. apply list_filter_iff. intros n. split; [tauto|].
  intros H. split; [done|]. unfold outdated_name in H. unfold matching.
  destruct (parse n); [by eexists|done].
Qed.

Lemma first_pass_matching names :
  foldl record ∅ (filter matching names) = foldl record ∅ names.
Proof.
  generalize (∅ : gmap string Z).
  induction names as [|n names IH]; intros latest; [done|].
  rewrite filter_cons. destruct (decide (matching n)) as [Hm|Hm]; simpl.
  - apply IH.
  - rewrite IH. f_equal. unfold record, matching in *.
    destruct (parse n); [|done]. destruct Hm. by eexists.
Qed.

(** C9. The names [readme.txt], [a.var] and [a.x.var] do not match, and a
    name matches only if it spells a base, a dot, digits, a dot and [var]
    in any case.  A name that does not match is left out of both loops of
    [scan_directory]: every outdated path comes from a matching name, no
    size is asked for any other path, and the dictionary of the first loop,
    the maximum version of every base, the outdated list and the total are
    what they are in the same directory without the names that do not
    match. *)
Theorem scan_directory_ignores_non_matching :
  (VERSION_RE_match "readme.txt" = None /\ VERSION_RE_match "a.var" = None /\
   VERSION_RE_match "a.x.var" = None) /\
  (parse "readme.txt" = None /\ parse "a.var" = None /\ parse "a.x.var" = None) /\
  (forall name b v,
     parse name = Some (b, v) ->
     exists digits ext,
       name = b +:+ "." +:+ digits +:+ "." +:+ ext /\
       b <> "" /\ digits <> "" /\ all_chars PyStr.is_digit digits = true /\
       PyStr.lower ext = "var" /\ PyStr.int digits = Some v) /\
  forall w d names,
    OS.dirs w !! d = Some names ->
    let kept := filter matching names in
    (forall p, p ∈ outdated_paths d names ->
       exists n, n ∈ names /\ matching n /\ p = PyStr.path_join d n) /\
    (Forall entry_name names -> forall n, n ∈ names -> ~ matching n ->
       PyStr.path_join d n ∉ outdated_paths d names) /\
    (forall p, OS.Getsize p ∈ OS.trace (snd (scan_directory d w)) ->
       OS.Getsize p ∈ OS.trace w \/ p ∈ outdated_paths d names) /\
    fst (first_pass names ∅ w) = fst (first_pass kept ∅ w) /\
    (forall b, max_version names b = max_version kept b) /\
    fst (scan_directory d w) = fst (scan_directory d (with_listing w d kept)) /\
    fst (scan_directory d w)
    = OS.Ok (outdated_paths d names,
             sum_Z (readable_size w <$> outdated_paths d names)).
Proof.
  split; [by vm_compute|]. split; [by vm_compute|].
  split; [exact parse_shape|].
  intros w d names Hd kept.
  assert (Hmatch : forall n, n ∈ outdated_names names -> matching n).
  { intros n (_ & b & v & m & Hp & _)%elem_of_outdated_names.
    unfold matching. by rewrite Hp. }
  split; [|split; [|split; [|split; [|split; [|split]]]]].
  - intros p (n & -> & Hn)%list_elem_of_fmap. exists n.
    split; [eapply list_elem_of_filter, Hn|]. split; [by apply Hmatch|done].
  - intros Hall n Hn Hno Hin. apply in_outdated_paths in Hin; [|done|done].
    by apply Hno, Hmatch.
  - rewrite (scan_directory_run w d names Hd). simpl.
    intros p [Hp|Hp]%elem_of_app; [by left|right].
    apply elem_of_cons in Hp as [?|Hp]; [done|].
    apply elem_of_cons in Hp as [?|Hp]; [done|].
    apply list_elem_of_fmap in Hp as (q & [= ->] & Hq). done.
  - rewrite !first_pass_run. simpl. unfold kept. by rewrite first_pass_matching.
  - intros b. unfold kept. by rewrite max_version_matching.
  - rewrite (scan_directory_run w d names Hd).
    rewrite (scan_directory_run (with_listing w d kept) d kept)
      by (simpl; apply lookup_insert_eq).
    simpl. unfold outdated_paths, kept. by rewrite outdated_names_matching.
  - by rewrite (scan_directory_run w d names Hd).
Qed.

Lemma scan_directory_ignores_non_matching_witness :
  OS.dirs (shelf []) !! "/d" = Some shelf_names /\
  filter matching shelf_names
  = ["pack.1.var"; "pack.2.var"; "x.5.var"; "pack.01.VAR"] /\
  fst (scan_directory "/d" (shelf []))
  = fst (scan_directory "/d"
           (with_listing (shelf []) "/d" (filter matching shelf_names))).
Proof.
  split; [reflexivity|]. split; [by vm_compute|].
  destruct scan_directory_ignores_non_matching as (_ & _ & _ & H).
  destruct (H (shelf []) "/d" shelf_names eq_refl) as (_ & _ & _ & _ & _ & Hsame & _).
  exact Hsame.
Defined.

End ScanTheorems.

(* ===================================================================== *)
(** ** The deletion loop *)
(* ===================================================================== *)

Section DeleteFacts.

Lemma removals_app t t' : removals (t ++ t') = removals t ++ removals t'.
Proof. apply omap_app. Qed.

(** One turn of the loop: it never raises, it calls [os.remove] once, it
    touches no other path, it leaves a file that cannot be deleted in
    place and reports it. *)
Lemma delete_step p w :
  exists w1,
    (forall rest, delete_all (p :: rest) w = delete_all rest w1) /\
    OS.stdin w1 = OS.stdin w /\ OS.config w1 = OS.config w /\
    (exists es, OS.trace w1 = OS.trace w ++ es /\ removals es = [p] /\
       forall reason, remove_error w p = Some reason ->
         OS.Print (failure_message p reason) ∈ es) /\
    (forall q, q <> p -> OS.files w1 !! q = OS.files w !! q) /\
    (forall reason, remove_error w p = Some reason ->
       OS.files w1 = OS.files w /\ OS.dirs w1 = OS.dirs w) /\
    (remove_error w p = None ->
       OS.files w1 !! p = None /\ is_Some (OS.files w !! p)) /\
    (forall d names n, OS.dirs w !! d = Some names -> n ∈ names ->
       PyStr.path_join d n <> p ->
       exists names', OS.dirs w1 !! d = Some names' /\ n ∈ names').
Proof.
  unfold remove_error.
  cbn [delete_all]. unfold mbind, M_bind, OS.bind, OS.catch, OS.remove.
  cbn [OS.files OS.log OS.set_trace OS.dirs OS.trace OS.stdin fst].
  destruct (OS.files w !! p) as [f|] eqn:Hf;
    [destruct (OS.locked f) as [reason|] eqn:Hl;
       [|destruct (OS.folder f) eqn:Hfo]|].
  - eexists. split; [intros rest; reflexivity|]. cbn.
    split; [done|]. split; [done|]. split.
    { rewrite <- app_assoc. eexists. split; [reflexivity|]. split; [done|].
      intros r [= <-]. apply elem_of_cons. right. by left. }
    split; [done|]. split; [done|]. split; [done|]. eauto.
  - eexists. split; [intros rest; reflexivity|]. cbn.
    split; [done|]. split; [done|]. split.
    { rewrite <- app_assoc. eexists. split; [reflexivity|]. split; [done|].
      intros r [= <-]. apply elem_of_cons. right. by left. }
    split; [done|]. split; [done|]. split; [done|]. eauto.
  - eexists. split; [intros rest; reflexivity|]. cbn.
    split; [done|]. split; [done|]. split.
    { eexists. split; [reflexivity|]. split; [done|]. done. }
    split; [intros q Hq; by rewrite lookup_delete_ne|].
    split; [done|].
    split; [intros _; split; [apply lookup_delete_eq|by eexists]|].
    intros d names n Hd Hn Hneq. unfold OS.unlist.
    rewrite map_lookup_imap, Hd. cbn. eexists. split; [reflexivity|].
    apply list_elem_of_filter. done.
  - eexists. split; [intros rest; reflexivity|]. cbn.
    split; [done|]. split; [done|]. split.
    { rewrite <- app_assoc. eexists. split; [reflexivity|]. split; [done|].
      intros r [= <-]. apply elem_of_cons. right. by left. }
    split; [done|]. split; [done|]. split; [done|]. eauto.
Qed.

(** The whole loop. *)
Lemma delete_all_run paths w :
  exists w',
    delete_all paths w = (OS.Ok tt, w') /\
    OS.stdin w' = OS.stdin w /\ OS.config w' = OS.config w /\
    (exists es, OS.trace w' = OS.trace w ++ es /\ removals es = paths) /\
    (forall q, q ∉ paths -> OS.files w' !! q = OS.files w !! q) /\
    (forall d names n, OS.dirs w !! d = Some names -> n ∈ names ->
       PyStr.path_join d n ∉ paths ->
       exists names', OS.dirs w' !! d = Some names' /\ n ∈ names').
Proof.
  revert w. induction paths as [|p paths IH]; intros w.
  - exists w. split; [done|]. split; [done|]. split; [done|].
    split; [exists []; by rewrite app_nil_r|]. split; [done|]. eauto.
  - destruct (delete_step p w)
      as (w1 & Hrun & Hin & Hch & (es & Ht & Hes & _) & Hfiles & _ & _ & Hdirs).
    destruct (IH w1)
      as (w' & Hrun' & Hin' & Hch' & (es' & Ht' & Hes') & Hfiles' & Hdirs').
    exists w'. split; [by rewrite Hrun|].
    split; [congruence|]. split; [congruence|]. split; [|split].
    + exists (es ++ es'). split; [by rewrite Ht', Ht, app_assoc|].
      by rewrite removals_app, Hes, Hes'.
    + intros q Hq. apply not_elem_of_cons in Hq as [Hne Hq].
      by rewrite Hfiles', Hfiles.
    + intros d names n Hd Hn Hq. apply not_elem_of_cons in Hq as [Hne Hq].
      destruct (Hdirs d names n Hd Hn Hne) as (names1 & Hd1 & Hn1). eauto.
Qed.

Lemma delete_all_app l1 l2 w w1 :
  delete_all l1 w = (OS.Ok tt, w1) ->
  delete_all (l1 ++ l2) w = delete_all l2 w1.
Proof.
  revert w. induction l1 as [|p l1 IH]; intros w; simpl app.
  - cbn. by intros [= ->].
  - destruct (delete_step p w) as (w' & Hrun & _). rewrite !Hrun. apply IH.
Qed.

(** The turn of the loop for the path at position [i]: it starts in the
    world that the loop over the paths before it has left, and whatever
    [os.remove] answers there, the loop goes on; when [os.remove] raises
    [OSError(reason)], the path and the reason are printed. *)
Lemma delete_all_turn paths w i p :
  paths !! i = Some p ->
  exists wi w',
    delete_all (take i paths) w = (OS.Ok tt, wi) /\
    delete_all paths w = (OS.Ok tt, w') /\
    (forall reason, remove_error wi p = Some reason ->
       OS.Print (failure_message p reason) ∈ OS.trace w').
Proof.
  intros Hi.
  destruct (delete_all_run (take i paths) w) as (wi & Hpre & _).
  destruct (delete_all_run paths w) as (w' & Hrun & _).
  exists wi, w'. split; [done|]. split; [done|].
  intros reason Hr.
  rewrite <- (take_drop_middle paths i p Hi) in Hrun.
  rewrite (delete_all_app _ _ _ _ Hpre) in Hrun.
  destruct (delete_step p wi) as (w1 & Hstep & _ & _ & (es & Ht & _ & Hmsg) & _).
  rewrite Hstep in Hrun.
  destruct (delete_all_run (drop (S i) paths) w1)
    as (w2 & Hrun2 & _ & _ & (es2 & Ht2 & _) & _).
  rewrite Hrun2 in Hrun. injection Hrun as <-.
  rewrite Ht2, Ht. apply elem_of_app. left. apply elem_of_app. right.
  by apply Hmsg.
Qed.

End DeleteFacts.

(* ===================================================================== *)
(** ** The run of [main] *)
(* ===================================================================== *)

Section MainFacts.

Lemma bind_run {A B} (c : OS.M A) (k : A -> OS.M B) w a w1 :
  c w = (OS.Ok a, w1) -> (c ≫= k) w = k a w1.
Proof. intros H. unfold mbind, M_bind, OS.bind. by rewrite H. Qed.


Lemma removals_getsize l : removals (OS.Getsize <$> l) = [].
Proof. by induction l. Qed.

Lemma accesses_app t t' : accesses (t ++ t') = accesses t ++ accesses t'.
Proof. apply omap_app. Qed.

Lemma removals_accesses t : removals (accesses t) = removals t.
Proof.
  induction t as [|e t IH]; [done|].
  destruct e; unfold accesses, removals in *; cbn; by rewrite ?IH.
Qed.

Lemma quiet_ret {A} (a : A) : quiet (OS.ret a).
Proof. by intros w r w' [= <- <-]. Qed.

Lemma quiet_bind {A B} (c : OS.M A) (k : A -> OS.M B) :
  quiet c -> (forall a, quiet (k a)) -> quiet (c ≫= k).
Proof.
  intros Hc Hk w r w'. unfold mbind, M_bind, OS.bind.
  destruct (c w) as [[a|e] w1] eqn:Hcw.
  - destruct (Hc _ _ _ Hcw) as [[Hd1 Hf1] Hr1]. intros Hkw.
    destruct (Hk a _ _ _ Hkw) as [[Hd2 Hf2] Hr2].
    split; [split|]; congruence.
  - intros [= <- <-]. by apply (Hc _ _ _ Hcw).
Qed.

Lemma quiet_catch {A} (c : OS.M A) (h : OS.exn -> OS.M A) :
  quiet c -> (forall e, quiet (h e)) -> quiet (OS.catch c h).
Proof.
  intros Hc Hh w r w'. unfold OS.catch.
  destruct (c w) as [[a|e] w1] eqn:Hcw.
  - intros [= <- <-]. by apply (Hc _ _ _ Hcw).
  - destruct (Hc _ _ _ Hcw) as [[Hd1 Hf1] Hr1]. intros Hhw.
    destruct (Hh e _ _ _ Hhw) as [[Hd2 Hf2] Hr2].
    split; [split|]; congruence.
Qed.

Lemma quiet_input prompt : quiet (OS.input prompt).
Proof.
  intros w r w'. unfold OS.input. simpl.
  destruct (OS.stdin w); intros [= <- <-]; (split; [done|]); simpl;
    by rewrite accesses_app, app_nil_r.
Qed.

Lemma quiet_raise {A} (e : OS.exn) : quiet (@OS.raise A e).
Proof. by intros w r w' [= <- <-]. Qed.

Lemma quiet_askdirectory initial : quiet (OS.askdirectory initial).
Proof.
  intros w r w'. unfold OS.askdirectory.
  destruct (OS.dialog w); intros [= <- <-]; (split; [done|]); simpl;
    [|done].
  rewrite accesses_app. destruct initial; simpl; by rewrite app_nil_r.
Qed.

Lemma quiet_write_config path : quiet (OS.write_config path).
Proof.
  intros w r w'. unfold OS.write_config.
  by destruct (OS.config_writable w), (OS.config_openable w);
    intros [= <- <-].
Qed.

Lemma quiet_getcwd : quiet OS.getcwd.
Proof.
  intros w r w'. unfold OS.getcwd. by destruct (OS.cwd w); intros [= <- <-].
Qed.

Lemma quiet_isdir_value path : quiet (OS.isdir_value path).
Proof.
  destruct path as [s|v]; [by intros w r w' [= <- <-]|].
  destruct v; simpl;
    [apply quiet_ret | | apply quiet_raise | apply quiet_raise
     | apply quiet_raise].
  destruct (_ && _); [apply quiet_ret|apply quiet_raise].
Qed.

Lemma quiet_or_else x y : quiet y -> quiet (or_else x y).
Proof.
  intros Hy. unfold or_else. destruct x as [v|]; [|done].
  destruct (OS.truthy v); [apply quiet_ret|done].
Qed.

Lemma quiet_load_last_dir : quiet load_last_dir.
Proof.
  unfold load_last_dir. apply quiet_bind; [by intros w r w' [= <- <-]|].
  intros [|]; [|apply quiet_ret].
  apply quiet_bind; [by intros w r w' [= <- <-]|].
  intros [dir|]; apply quiet_ret.
Qed.

(** [pick_directory] touches neither directories nor files. *)
Lemma quiet_pick_directory : quiet pick_directory.
Proof.
  unfold pick_directory.
  apply quiet_bind; [apply quiet_load_last_dir|]. intros last.
  apply quiet_bind.
  { apply quiet_or_else, quiet_bind; [apply quiet_getcwd|].
    intros; apply quiet_ret. }
  intros initial. apply quiet_bind.
  { apply quiet_catch.
    - apply quiet_bind; [apply quiet_askdirectory|]. intros; apply quiet_ret.
    - intros _. apply quiet_bind; [apply quiet_input|]. intros line.
      apply quiet_or_else, quiet_ret. }
  intros path. destruct (OS.truthy path); [|apply quiet_ret].
  apply quiet_bind; [apply quiet_isdir_value|].
  intros is_dir. destruct path as [s|v]; [|apply quiet_ret].
  destruct is_dir; [|apply quiet_ret].
  apply quiet_bind; [|intros; apply quiet_ret].
  apply quiet_catch; [apply quiet_write_config|intros; apply quiet_ret].
Qed.

Lemma pick_directory_files w r w0 :
  pick_directory w = (r, w0) ->
  same_files w w0 /\ removals (OS.trace w0) = removals (OS.trace w).
Proof.
  intros [Hs Ha]%quiet_pick_directory. split; [done|].
  by rewrite <- (removals_accesses (OS.trace w0)), Ha, removals_accesses.
Qed.

Lemma input_run prompt w :
  OS.input prompt w
  = match OS.stdin w with
    | line :: rest => (OS.Ok line, after_input w prompt rest)
    | [] => (OS.Raise OS.EOFError, add_events w [OS.Input prompt])
    end.
Proof. unfold OS.input. simpl. by destruct (OS.stdin w). Qed.

(** [main] up to the test of the mode. *)
Lemma main_head w d w0 :
  pick_directory w = (OS.Ok (Some d), w0) ->
  main w
  = let prompt := "Choose mode (VIEW/UPDATE): " in
    match OS.stdin w0 with
    | [] => (OS.Raise OS.EOFError, add_events w0 [OS.Input prompt])
    | line :: rest =>
        let mode := PyStr.lower (PyStr.strip line) in
        let w1 := after_input w0 prompt rest in
        if negb (String.eqb mode "view" || String.eqb mode "update") then
          (OS.Ok tt, add_events w1 [OS.Print "Invalid mode. Exiting."])
        else
          (scan_directory d
           ≫= fun '(outdated, size) => report_and_delete mode outdated size) w1
    end.
Proof.
  intros Hpick. unfold main. rewrite (bind_run _ _ _ _ _ Hpick).
  cbv zeta. unfold mbind at 1, M_bind at 1, OS.bind at 1. rewrite input_run.
  destruct (OS.stdin w0) as [|line rest]; [done|].
  by destruct (negb _).
Qed.

(** [main] up to the end of the scan. *)
Lemma main_run w d w0 names :
  pick_directory w = (OS.Ok (Some d), w0) ->
  OS.dirs w !! d = Some names ->
  main w
  = let prompt := "Choose mode (VIEW/UPDATE): " in
    match OS.stdin w0 with
    | [] => (OS.Raise OS.EOFError, add_events w0 [OS.Input prompt])
    | line :: rest =>
        let mode := PyStr.lower (PyStr.strip line) in
        let w1 := after_input w0 prompt rest in
        if negb (String.eqb mode "view" || String.eqb mode "update") then
          (OS.Ok tt, add_events w1 [OS.Print "Invalid mode. Exiting."])
        else
          report_and_delete mode (outdated_paths d names)
            (sum_Z (readable_size w <$> outdated_paths d names))
            (add_events w1 (OS.Listdir d :: OS.Listdir d ::
                              (OS.Getsize <$> outdated_paths d names)))
    end.
Proof.
  intros Hpick Hd. rewrite (main_head w d w0 Hpick). cbv zeta.
  destruct (pick_directory_files w _ w0 Hpick) as [[Hs1 Hs2] _].
  destruct (OS.stdin w0) as [|line rest]; [done|].
  destruct (negb _); [done|].
  rewrite (bind_run _ _ _ _ _
             (scan_directory_run (after_input w0 _ rest) d names
                ltac:(simpl; by rewrite Hs1))).
  unfold readable_size. simpl. by rewrite Hs2.
Qed.

Lemma finish_run w :
  (OS.input "Press Enter to exit..." ≫= fun _ => OS.ret tt) w
  = match OS.stdin w with
    | _ :: rest => (OS.Ok tt, after_input w "Press Enter to exit..." rest)
    | [] => (OS.Raise OS.EOFError, add_events w [OS.Input "Press Enter to exit..."])
    end.
Proof.
  unfold mbind, M_bind, OS.bind. rewrite input_run.
  by destruct (OS.stdin w).
Qed.

Lemma finish_same_files w :
  exists r w',
    (OS.input "Press Enter to exit..." ≫= fun _ => OS.ret tt) w = (r, w') /\
    same_files w w' /\
    OS.trace w' = OS.trace w ++ [OS.Input "Press Enter to exit..."].
Proof.
  rewrite finish_run. destruct (OS.stdin w); by eexists _, _.
Qed.

Lemma confirm_and_delete_run outdated w :
  confirm_and_delete outdated w
  = match OS.stdin w with
    | [] => (OS.Raise OS.EOFError, add_events w [OS.Input "OK to delete? [y/N]: "])
    | resp :: rest =>
        let w1 := after_input w "OK to delete? [y/N]: " rest in
        if PyStr.startswith (PyStr.lower (PyStr.strip resp)) "y" then
          (delete_all outdated;;
           OS.print ("Deleted " +:+ PyStr.str_of_Z (len outdated) +:+ " files."))
            w1
        else (OS.Ok tt, add_events w1 [OS.Print "Deletion cancelled."])
    end.
Proof.
  unfold confirm_and_delete. unfold mbind at 1, M_bind at 1, OS.bind at 1.
  rewrite input_run. destruct (OS.stdin w) as [|resp rest]; [done|].
  cbv zeta. by destruct (PyStr.startswith _ _).
Qed.

(** [report_and_delete] once the size has been formatted. *)
Lemma report_and_delete_run mode outdated size w :
  report_and_delete mode outdated size w
  = let w1 := add_events w [OS.Print ("Outdated files: "
                                       +:+ PyStr.str_of_Z (len outdated))] in
    match format_size (PyFloat.Int size) with
    | None => (OS.Raise OS.OverflowError, w1)
    | Some text =>
        let w2 := add_events w1 [OS.Print ("Disk space used: " +:+ text)] in
        ((if String.eqb mode "update" && (len outdated >? 0)
          then confirm_and_delete outdated else OS.ret tt);;
         _ ← OS.input "Press Enter to exit..."; OS.ret tt) w2
    end.
Proof.
  unfold report_and_delete. cbv zeta.
  unfold mbind at 1, M_bind at 1, OS.bind at 1. unfold OS.print at 1.
  unfold mbind at 1, M_bind at 1, OS.bind at 1.
  destruct (format_size (PyFloat.Int size)) as [text|]; [|done]. done.
Qed.

(** The deletion is the only thing that [main] does to the files. *)
Lemma report_and_delete_files mode outdated size w :
  exists r w',
    report_and_delete mode outdated size w = (r, w') /\
    ((same_files w w' /\ removals (OS.trace w') = removals (OS.trace w)) \/
     exists w1 w2,
       same_files w w1 /\ delete_all outdated w1 = (OS.Ok tt, w2) /\
       same_files w2 w').
Proof.
  rewrite report_and_delete_run. cbv zeta.
  destruct (format_size (PyFloat.Int size)) as [text|].
  2:{ eexists _, _. split; [done|]. left. split; [done|].
      simpl. by rewrite removals_app, app_nil_r. }
  set (w2 := add_events (add_events w _) _).
  assert (H2 : same_files w w2 /\ removals (OS.trace w2) = removals (OS.trace w)).
  { split; [done|]. unfold w2. simpl. by rewrite !removals_app, !app_nil_r. }
  clearbody w2. destruct H2 as [Hsame Hrem].
  destruct (String.eqb mode "update" && (len outdated >? 0)).
  - unfold mbind at 1, M_bind at 1, OS.bind at 1.
    rewrite confirm_and_delete_run.
    destruct (OS.stdin w2) as [|resp rest].
    { eexists _, _. split; [done|]. left. split; [done|].
      simpl. by rewrite removals_app, app_nil_r. }
    cbv zeta. destruct (PyStr.startswith _ _).
    + destruct (delete_all_run outdated (after_input w2 "OK to delete? [y/N]: " rest))
        as (w3 & Hdel & _).
      rewrite (bind_run _ _ _ _ _ Hdel). unfold OS.print at 1.
      destruct (finish_same_files (OS.log (OS.Print ("Deleted " +:+
                  PyStr.str_of_Z (len outdated) +:+ " files.")) w3))
        as (r & w' & Hfin & Hs & _).
      exists r, w'. split; [exact Hfin|]. right.
      exists (after_input w2 "OK to delete? [y/N]: " rest), w3.
      split; [done|]. split; [done|]. done.
    + destruct (finish_same_files
                  (add_events (after_input w2 "OK to delete? [y/N]: " rest)
                     [OS.Print "Deletion cancelled."]))
        as (r & w' & Hfin & Hs & Ht).
      exists r, w'. split; [exact Hfin|]. left.
      destruct Hs as [Hs1 Hs2], Hsame as [Hs3 Hs4]. simpl in *.
      split; [split; congruence|].
      rewrite Ht. simpl. rewrite !removals_app. simpl.
      by rewrite !app_nil_r.
  - destruct (finish_same_files w2) as (r & w' & Hfin & Hs & Ht).
    exists r, w'. split; [exact Hfin|]. left.
    destruct Hs as [Hs1 Hs2], Hsame as [Hs3 Hs4].
    split; [split; congruence|].
    rewrite Ht, removals_app. simpl. by rewrite app_nil_r.
Qed.

Lemma main_files w d w0 names :
  pick_directory w = (OS.Ok (Some d), w0) ->
  OS.dirs w !! d = Some names ->
  exists r w',
    main w = (r, w') /\
    ((same_files w w' /\ removals (OS.trace w') = removals (OS.trace w)) \/
     exists w1 w2,
       same_files w w1 /\
       delete_all (outdated_paths d names) w1 = (OS.Ok tt, w2) /\
       same_files w2 w').
Proof.
  intros Hpick Hd. rewrite (main_run w d w0 names Hpick Hd). cbv zeta.
  destruct (pick_directory_files w _ w0 Hpick) as [[Hp1 Hp2] Hp3].
  destruct (OS.stdin w0) as [|line rest].
  { eexists _, _. split; [done|]. left. split; [done|].
    simpl. by rewrite removals_app, app_nil_r. }
  destruct (negb _).
  { eexists _, _. split; [done|]. left. split; [done|].
    simpl. by rewrite !removals_app, !app_nil_r. }
  set (w1 := add_events _ _).
  assert (H1 : same_files w w1 /\ removals (OS.trace w1) = removals (OS.trace w)).
  { split; [done|]. unfold w1. simpl. rewrite !removals_app. simpl.
    by rewrite removals_getsize, !app_nil_r. }
  clearbody w1. destruct H1 as [[Hs1 Hs2] Hrem].
  destruct (report_and_delete_files (PyStr.lower (PyStr.strip line))
              (outdated_paths d names)
              (sum_Z (readable_size w <$> outdated_paths d names)) w1)
    as (r & w' & Hrun & [[[Hs3 Hs4] Hrem']|(wa & wb & [Hs3 Hs4] & Hdel & Hs5)]).
  - exists r, w'. split; [done|]. left. split; [split; congruence|congruence].
  - exists r, w'. split; [done|]. right. exists wa, wb.
    split; [split; congruence|]. done.
Qed.

(** [main] in update mode, with outdated files and a confirmation: the
    deletion loop runs on the outdated list, and its length is printed. *)
Lemma main_confirmed w d w0 names line resp rest text :
  pick_directory w = (OS.Ok (Some d), w0) ->
  OS.dirs w !! d = Some names ->
  OS.stdin w0 = line :: resp :: rest ->
  PyStr.lower (PyStr.strip line) = "update" ->
  outdated_paths d names <> [] ->
  PyStr.startswith (PyStr.lower (PyStr.strip resp)) "y" = true ->
  format_size (PyFloat.Int (sum_Z (readable_size w <$> outdated_paths d names)))
  = Some text ->
  exists w1 w2 r w',
    same_files w w1 /\ removals (OS.trace w1) = removals (OS.trace w) /\
    delete_all (outdated_paths d names) w1 = (OS.Ok tt, w2) /\
    main w = (r, w') /\ same_files w2 w' /\
    OS.trace w'
    = OS.trace w2
      ++ [OS.Print ("Deleted "
                    +:+ PyStr.str_of_Z (len (outdated_paths d names))
                    +:+ " files.");
          OS.Input "Press Enter to exit..."].
Proof.
  intros Hpick Hd Hin Hmode Hout Hyes Htext.
  destruct (pick_directory_files w _ w0 Hpick) as [[Hp1 Hp2] Hp3].
  rewrite (main_run w d w0 names Hpick Hd), Hin. cbv zeta. rewrite Hmode.
  change ("update" =? "view")%string with false.
  change ("update" =? "update")%string with true. cbn [negb orb].
  rewrite report_and_delete_run. cbv zeta. rewrite Htext.
  change ("update" =? "update")%string with true.
  assert (Hlen : (len (outdated_paths d names) >? 0) = true).
  { unfold len. destruct (outdated_paths d names); [done|].
    apply Z.gtb_lt. simpl length. lia. }
  rewrite Hlen. cbn [andb].
  unfold mbind at 1, M_bind at 1, OS.bind at 1.
  rewrite confirm_and_delete_run. simpl (OS.stdin _).
  cbv beta iota zeta. rewrite Hyes.
  set (w1 := after_input _ "OK to delete? [y/N]: " _).
  destruct (delete_all_run (outdated_paths d names) w1)
    as (w2 & Hdel & _).
  rewrite (bind_run _ _ _ _ _ Hdel). unfold OS.print at 1.
  set (w3 := OS.log _ w2).
  destruct (finish_same_files w3) as (r & w' & Hfin & [Hs1 Hs2] & Ht).
  exists w1, w2, r, w'. split; [done|]. split.
  { unfold w1. simpl. rewrite !removals_app. simpl.
    by rewrite removals_getsize, !app_nil_r. }
  split; [done|]. split; [exact Hfin|]. split; [done|].
  rewrite Ht. unfold w3. simpl. by rewrite <- app_assoc.
Qed.

End MainFacts.

(* ===================================================================== *)
(** ** The modes and the confirmation *)
(* ===================================================================== *)

Section MainTheorems.

(** C6, as the program has it.  Once a directory is picked, when the line
    read for the mode, once the blanks around it are stripped and its
    letters are put in lower case, is neither [view] nor [update], [main]
    prints [Invalid mode. Exiting.] and returns: after the prompt for the
    mode nothing happens but this line, and before it [pick_directory] has
    called none of [os.listdir], [os.path.getsize] and [os.remove]; so the
    directory is not listed, no size is read, nothing is deleted, no
    further line is read, and the directories and files are what they
    were at the start.  (The preference file is not one of them:
    [pick_directory] has recorded the directory in it before the mode is
    asked.) *)
Theorem invalid_mode_exits w d w0 line rest :
  pick_directory w = (OS.Ok (Some d), w0) ->
  OS.stdin w0 = line :: rest ->
  PyStr.lower (PyStr.strip line) <> "view" ->
  PyStr.lower (PyStr.strip line) <> "update" ->
  main w
  = (OS.Ok tt,
     OS.set_stdin rest
       (OS.set_trace
          (OS.trace w0 ++ [OS.Input "Choose mode (VIEW/UPDATE): ";
                           OS.Print "Invalid mode. Exiting."]) w0)) /\
  OS.dirs w0 = OS.dirs w /\ OS.files w0 = OS.files w /\
  accesses (OS.trace w0) = accesses (OS.trace w).
Proof.
  intros Hpick Hin Hv Hu.
  destruct (quiet_pick_directory w _ w0 Hpick) as [[Hp1 Hp2] Hp3].
  split; [|done].
  rewrite (main_head w d w0 Hpick), Hin. cbv zeta.
  apply String.eqb_neq in Hv, Hu. rewrite Hv, Hu. simpl.
  unfold add_events, after_input, OS.set_stdin, OS.set_trace. simpl.
  by rewrite <- app_assoc.
Qed.

Lemma invalid_mode_exits_witness :
  pick_directory (shelf ["blah"; "y"])
  = (OS.Ok (Some "/d"),
     OS.set_config (OS.LastDir (Some "/d"))
       (OS.set_trace [OS.Dialog "/home/user"] (shelf ["blah"; "y"]))) /\
  main (shelf ["blah"; "y"])
  = (OS.Ok tt,
     OS.set_config (OS.LastDir (Some "/d"))
       (OS.set_trace [OS.Dialog "/home/user";
                      OS.Input "Choose mode (VIEW/UPDATE): ";
                      OS.Print "Invalid mode. Exiting."] (shelf ["y"]))).
Proof.
  assert (Hpick : pick_directory (shelf ["blah"; "y"])
                  = (OS.Ok (Some "/d"),
                     OS.set_config (OS.LastDir (Some "/d"))
                       (OS.set_trace [OS.Dialog "/home/user"]
                          (shelf ["blah"; "y"])))) by reflexivity.
  split; [exact Hpick|].
  destruct (invalid_mode_exits (shelf ["blah"; "y"]) "/d" _ "blah" ["y"] Hpick)
    as [Hrun _].
  - reflexivity.
  - vm_compute. discriminate.
  - vm_compute. discriminate.
  - exact Hrun.
Defined.

(** C6, as it is worded, fails: with its letters put in lower case and
    nothing else, the line [" VIEW "] is neither [view] nor [update], and
    yet the program, which strips the blanks first, takes it for the
    mode: it lists the directory, reads the sizes and prints its report,
    and never prints [Invalid mode. Exiting.].  In the same way
    [" UPDATE "] followed by [y] deletes [pack.01.VAR]. *)
Lemma padded_mode_is_accepted :
  PyStr.lower " VIEW " <> "view" /\ PyStr.lower " VIEW " <> "update" /\
  OS.trace (snd (main (shelf [" VIEW "; ""])))
  = [OS.Dialog "/home/user";
     OS.Input "Choose mode (VIEW/UPDATE): ";
     OS.Listdir "/d"; OS.Listdir "/d";
     OS.Getsize "/d/pack.1.var"; OS.Getsize "/d/pack.01.VAR";
     OS.Print "Outdated files: 2";
     OS.Print "Disk space used: 100.00 bytes";
     OS.Input "Press Enter to exit..."] /\
  PyStr.lower " UPDATE " <> "view" /\ PyStr.lower " UPDATE " <> "update" /\
  is_Some (OS.files (shelf [" UPDATE "; "y"; ""]) !! "/d/pack.01.VAR") /\
  OS.files (snd (main (shelf [" UPDATE "; "y"; ""]))) !! "/d/pack.01.VAR" = None /\
  removals (OS.trace (snd (main (shelf [" UPDATE "; "y"; ""]))))
  = ["/d/pack.1.var"; "/d/pack.01.VAR"].
Proof.
  repeat split; try (by vm_compute); by vm_compute; eexists.
Qed.

Lemma lower_starts_with_y s :
  PyStr.startswith (PyStr.lower s) "y"
  = PyStr.startswith s "y" || PyStr.startswith s "Y".
Proof.
  unfold PyStr.startswith. destruct s as [|c s]; [done|].
  cbn [PyStr.lower String.prefix].
  assert (Hempty : forall t, String.prefix "" t = true) by (by intros []).
  destruct c as [[] [] [] [] [] [] [] []];
    vm_compute ascii_dec; vm_compute PyStr.lower_char; cbv iota;
    rewrite ?Hempty; reflexivity.
Qed.

(** C7, as the program has it.  In update mode with a non-empty outdated
    list, when the confirmation, once the blanks around it are stripped,
    does not begin with [y] or [Y], [main] calls [os.remove] on nothing and
    leaves the directories and files as they were, so that a scan of the
    directory afterwards returns the same outdated list and the same
    total; if the size could be formatted, [Deletion cancelled.] is
    printed. *)
Theorem declined_deletes_nothing w d w0 names line resp rest :
  pick_directory w = (OS.Ok (Some d), w0) ->
  OS.dirs w !! d = Some names ->
  OS.stdin w0 = line :: resp :: rest ->
  PyStr.lower (PyStr.strip line) = "update" ->
  outdated_paths d names <> [] ->
  PyStr.startswith (PyStr.strip resp) "y" = false ->
  PyStr.startswith (PyStr.strip resp) "Y" = false ->
  exists r w',
    main w = (r, w') /\
    OS.dirs w' = OS.dirs w /\ OS.files w' = OS.files w /\
    removals (OS.trace w') = removals (OS.trace w) /\
    fst (scan_directory d w') = fst (scan_directory d w) /\
    (is_Some (format_size
                (PyFloat.Int (sum_Z (readable_size w <$>
                                       outdated_paths d names)))) ->
     OS.Print "Deletion cancelled." ∈ OS.trace w').
Proof.
  intros Hpick Hd Hin Hmode Hout Hy HY.
  destruct (pick_directory_files w _ w0 Hpick) as [[Hp1 Hp2] Hp3].
  assert (Hscan : forall w', OS.dirs w' = OS.dirs w -> OS.files w' = OS.files w ->
            fst (scan_directory d w') = fst (scan_directory d w)).
  { intros w' Hd' Hf'.
    rewrite (scan_directory_run w _ names Hd).
    rewrite (scan_directory_run w' _ names) by by rewrite Hd'.
    simpl. unfold readable_size. by rewrite Hf'. }
  rewrite (main_run w d w0 names Hpick Hd), Hin. cbv zeta. rewrite Hmode.
  change ("update" =? "view")%string with false.
  change ("update" =? "update")%string with true. cbn [negb orb].
  rewrite report_and_delete_run. cbv zeta.
  destruct (format_size _) as [text|].
  2:{ eexists _, _. split; [done|]. split; [done|]. split; [done|]. split.
      - simpl. rewrite !removals_app. simpl.
        by rewrite removals_getsize, !app_nil_r.
      - split; [by apply Hscan|]. by intros [? ?]. }
  change ("update" =? "update")%string with true.
  assert (Hlen : (len (outdated_paths d names) >? 0) = true).
  { unfold len. destruct (outdated_paths d names); [done|].
    apply Z.gtb_lt. simpl length. lia. }
  rewrite Hlen. cbn [andb].
  unfold mbind at 1, M_bind at 1, OS.bind at 1.
  rewrite confirm_and_delete_run. simpl (OS.stdin _).
  cbv beta iota zeta. rewrite lower_starts_with_y, Hy, HY. cbn [orb].
  set (w3 := add_events _ _).
  destruct (finish_same_files w3) as (r & w' & Hfin & [Hs1 Hs2] & Ht).
  exists r, w'. split; [exact Hfin|].
  split; [by rewrite Hs1|]. split; [by rewrite Hs2|]. split; [|split].
  - rewrite Ht. unfold w3. simpl. rewrite !removals_app. simpl.
    by rewrite removals_getsize, !app_nil_r.
  - apply Hscan; [by rewrite Hs1|by rewrite Hs2].
  - intros _. rewrite Ht. unfold w3. simpl.
    apply elem_of_app. left. apply elem_of_app. right. by left.
Qed.

Lemma declined_deletes_nothing_witness :
  exists r w',
    main (shelf ["Update"; " no "; ""]) = (r, w') /\
    OS.dirs w' = OS.dirs (shelf []) /\ OS.files w' = OS.files (shelf []).
Proof.
  destruct (declined_deletes_nothing (shelf ["Update"; " no "; ""]) "/d"
              (OS.set_config (OS.LastDir (Some "/d"))
                 (OS.set_trace [OS.Dialog "/home/user"]
                    (shelf ["Update"; " no "; ""])))
              shelf_names "Update" " no " [""])
    as (r & w' & Hrun & Hd & Hf & _).
  - reflexivity.
  - reflexivity.
  - reflexivity.
  - by vm_compute.
  - by vm_compute.
  - by vm_compute.
  - by vm_compute.
  - exists r, w'. split; [exact Hrun|]. split; [exact Hd|exact Hf].
Defined.

(** C7, as it is worded, fails: the answer [" y"] does not begin with [y]
    or [Y], and yet the program, which strips the blanks first, deletes
    [pack.01.VAR]. *)
Lemma unstripped_answer_deletes :
  PyStr.startswith " y" "y" = false /\
  PyStr.startswith " y" "Y" = false /\
  PyStr.lower (PyStr.strip "update") = "update" /\
  outdated_paths "/d" shelf_names <> [] /\
  is_Some (OS.files (shelf ["update"; " y"; ""]) !! "/d/pack.01.VAR") /\
  OS.files (snd (main (shelf ["update"; " y"; ""]))) !! "/d/pack.01.VAR" = None /\
  OS.dirs (snd (main (shelf ["update"; " y"; ""]))) !! "/d"
  <> OS.dirs (shelf ["update"; " y"; ""]) !! "/d" /\
  removals (OS.trace (snd (main (shelf ["update"; " y"; ""]))))
  = ["/d/pack.1.var"; "/d/pack.01.VAR"].
Proof.
  split; [by vm_compute|]. split; [by vm_compute|].
  split; [by vm_compute|]. split; [by vm_compute|].
  split; [by vm_compute; eexists|].
  split; [by vm_compute|]. split; [by vm_compute|]. by vm_compute.
Qed.

(** C2, on a run.  With [pack.1.var] protected against deletion, update
    mode and the answer [y], the program reports the failure for
    [pack.1.var], deletes [pack.01.VAR] alone, and then prints
    [Deleted 2 files.]: the number is that of the outdated files, not that
    of the files deleted. *)
Theorem deleted_count_is_attempts :
  OS.trace (snd (main (shelf ["update"; "y"; ""])))
  = [OS.Dialog "/home/user";
     OS.Input "Choose mode (VIEW/UPDATE): ";
     OS.Listdir "/d"; OS.Listdir "/d";
     OS.Getsize "/d/pack.1.var"; OS.Getsize "/d/pack.01.VAR";
     OS.Print "Outdated files: 2";
     OS.Print "Disk space used: 100.00 bytes";
     OS.Input "OK to delete? [y/N]: ";
     OS.Remove "/d/pack.1.var";
     OS.Print "Failed to delete /d/pack.1.var: [Errno 13] Permission denied";
     OS.Remove "/d/pack.01.VAR";
     OS.Print "Deleted 2 files.";
     OS.Input "Press Enter to exit..."] /\
  fst (main (shelf ["update"; "y"; ""])) = OS.Ok tt /\
  OS.dirs (snd (main (shelf ["update"; "y"; ""]))) !! "/d"
  = Some ["pack.1.var"; "readme.txt"; "pack.2.var"; "x.5.var"; "a.var"; "a.x.var"] /\
  is_Some (OS.files (snd (main (shelf ["update"; "y"; ""]))) !! "/d/pack.1.var") /\
  OS.files (snd (main (shelf ["update"; "y"; ""]))) !! "/d/pack.01.VAR" = None.
Proof.
  split; [by vm_compute|]. split; [by vm_compute|]. split; [by vm_compute|].
  split; [by vm_compute; eexists|]. by vm_compute.
Qed.

(** C8. The deletion loop never stops on a failure: it ends normally,
    having called [os.remove] once on every path of the list, in order; and
    whenever the call for a path raises [OSError(reason)], in the world
    that the turns before it have left, a line with that path and that
    reason is printed.  In [main], after a confirmation in update mode,
    this loop runs on the outdated list of the scan, so that [os.remove] is
    called on every outdated file whatever fails. *)
Theorem delete_all_continues :
  (forall paths w,
     exists w',
       delete_all paths w = (OS.Ok tt, w') /\
       (exists es, OS.trace w' = OS.trace w ++ es /\ removals es = paths) /\
       (forall i p, paths !! i = Some p ->
          exists wi,
            delete_all (take i paths) w = (OS.Ok tt, wi) /\
            forall reason, remove_error wi p = Some reason ->
              OS.Print ("Failed to delete " +:+ p +:+ ": " +:+ reason)
              ∈ OS.trace w')) /\
  (forall w d w0 names line resp rest text,
     pick_directory w = (OS.Ok (Some d), w0) ->
     OS.dirs w !! d = Some names ->
     OS.stdin w0 = line :: resp :: rest ->
     PyStr.lower (PyStr.strip line) = "update" ->
     outdated_paths d names <> [] ->
     PyStr.startswith (PyStr.lower (PyStr.strip resp)) "y" = true ->
     format_size (PyFloat.Int (sum_Z (readable_size w <$>
                                        outdated_paths d names)))
     = Some text ->
     exists w1 w2 r w',
       same_files w w1 /\
       delete_all (outdated_paths d names) w1 = (OS.Ok tt, w2) /\
       main w = (r, w') /\ same_files w2 w' /\
       removals (OS.trace w')
       = removals (OS.trace w) ++ outdated_paths d names).
Proof.
  split.
  - intros paths w.
    destruct (delete_all_run paths w) as (w' & Hrun & _ & _ & Hes & _).
    exists w'. split; [done|]. split; [done|].
    intros i p Hi.
    destruct (delete_all_turn paths w i p Hi) as (wi & w'' & Hpre & Hrun' & Hmsg).
    rewrite Hrun in Hrun'. injection Hrun' as <-. by exists wi.
  - intros w d w0 names line resp rest text Hpick Hd Hin Hmode Hout Hyes Htext.
    destruct (main_confirmed w d w0 names line resp rest text
                Hpick Hd Hin Hmode Hout Hyes Htext)
      as (w1 & w2 & r & w' & Hs1 & Hrem & Hdel & Hrun & Hs2 & Ht).
    exists w1, w2, r, w'. split; [done|]. split; [done|]. split; [done|].
    split; [done|].
    destruct (delete_all_run (outdated_paths d names) w1)
      as (w2' & Hdel' & _ & _ & (es & Hes & Hrm) & _).
    rewrite Hdel in Hdel'. injection Hdel' as <-.
    rewrite Ht, Hes, !removals_app, Hrem, Hrm. simpl. by rewrite app_nil_r.
Qed.

Lemma delete_all_continues_witness :
  remove_error (shelf []) "/d/pack.1.var" = Some "[Errno 13] Permission denied" /\
  (exists w',
     delete_all ["/d/pack.1.var"; "/d/pack.01.VAR"] (shelf []) = (OS.Ok tt, w') /\
     removals (OS.trace w') = ["/d/pack.1.var"; "/d/pack.01.VAR"] /\
     OS.Print "Failed to delete /d/pack.1.var: [Errno 13] Permission denied"
     ∈ OS.trace w') /\
  exists r w',
    main (shelf ["UPDATE"; "Yes"; ""]) = (r, w') /\
    removals (OS.trace w') = ["/d/pack.1.var"; "/d/pack.01.VAR"].
Proof.
  destruct delete_all_continues as [Hloop Hmain].
  split; [reflexivity|]. split.
  - destruct (Hloop ["/d/pack.1.var"; "/d/pack.01.VAR"] (shelf []))
      as (w' & Hrun & (es & Ht & Hes) & Hturn).
    exists w'. split; [exact Hrun|]. split.
    + rewrite Ht. exact Hes.
    + destruct (Hturn 0%nat "/d/pack.1.var" eq_refl) as (wi & Hpre & Hmsg).
      injection Hpre as <-. apply Hmsg. reflexivity.
  - destruct (Hmain (shelf ["UPDATE"; "Yes"; ""]) "/d"
                (OS.set_config (OS.LastDir (Some "/d"))
                   (OS.set_trace [OS.Dialog "/home/user"]
                      (shelf ["UPDATE"; "Yes"; ""])))
                shelf_names "UPDATE" "Yes" [""] "100.00 bytes")
      as (w1 & w2 & r & w' & _ & _ & Hrun & _ & Hrem).
    + reflexivity.
    + reflexivity.
    + reflexivity.
    + by vm_compute.
    + by vm_compute.
    + by vm_compute.
    + by vm_compute.
    + exists r, w'. split; [exact Hrun|exact Hrem].
Defined.

(** C10. In a directory whose names hold no [/], every base with a
    matching file has a file that carries its maximum version and whose
    path is not in the outdated list that [scan_directory] returns.
    Whatever is typed, [main] leaves every file outside that list as it
    was, and that file of the base is still listed when [main] is over: the
    deletion never takes every version of a base. *)
Theorem newest_version_survives w d w0 names b :
  pick_directory w = (OS.Ok (Some d), w0) ->
  OS.dirs w !! d = Some names ->
  Forall entry_name names ->
  (exists n v, n ∈ names /\ parse n = Some (b, v)) ->
  exists n m,
    n ∈ names /\ parse n = Some (b, m) /\ is_max_version names b m /\
    (exists total,
       fst (scan_directory d w) = OS.Ok (outdated_paths d names, total)) /\
    (PyStr.path_join d n ∉ outdated_paths d names) /\
    exists r w',
      main w = (r, w') /\
      (forall q, q ∉ outdated_paths d names ->
         OS.files w' !! q = OS.files w !! q) /\
      (exists names', OS.dirs w' !! d = Some names' /\ n ∈ names') /\
      OS.files w' !! PyStr.path_join d n = OS.files w !! PyStr.path_join d n.
Proof.
  intros Hpick Hd Hall (n0 & v0 & Hn0 & Hp0).
  destruct (max_version_exists names n0 b v0 Hn0 Hp0) as (m & Hm & _).
  apply max_version_spec in Hm. pose proof Hm as [(n & Hn & Hp) _].
  exists n, m. split; [done|]. split; [done|]. split; [done|].
  split; [eexists; by rewrite (scan_directory_run w _ names Hd)|].
  assert (Hnot : PyStr.path_join d n ∉ outdated_paths d names).
  { rewrite in_outdated_paths by done.
    by apply (max_version_not_outdated names n b m). }
  split; [done|].
  destruct (main_files w d w0 names Hpick Hd)
    as (r & w' & Hrun & [[[Hs1 Hs2] _]|(w1 & w2 & [Hs1 Hs2] & Hdel & [Hs3 Hs4])]).
  - exists r, w'. split; [done|]. rewrite Hs1, Hs2. eauto.
  - exists r, w'. split; [done|].
    destruct (delete_all_run (outdated_paths d names) w1)
      as (w2' & Hdel' & _ & _ & _ & Hfiles & Hdirs).
    rewrite Hdel in Hdel'. injection Hdel' as <-.
    rewrite Hs3, Hs4. split; [|split].
    + intros q Hq. rewrite Hfiles by done. by rewrite Hs2.
    + apply (Hdirs _ names); [by rewrite Hs1|done|done].
    + rewrite Hfiles by done. by rewrite Hs2.
Qed.

Lemma newest_version_survives_witness :
  exists n m,
    n ∈ shelf_names /\ parse n = Some ("pack", m) /\
    is_max_version shelf_names "pack" m /\
    exists r w',
      main (shelf ["update"; "y"; ""]) = (r, w') /\
      exists names', OS.dirs w' !! "/d" = Some names' /\ n ∈ names'.
Proof.
  destruct (newest_version_survives (shelf ["update"; "y"; ""]) "/d"
              (OS.set_config (OS.LastDir (Some "/d"))
                 (OS.set_trace [OS.Dialog "/home/user"]
                    (shelf ["update"; "y"; ""])))
              shelf_names "pack")
    as (n & m & Hn & Hp & Hm & _ & _ & r & w' & Hrun & _ & Hkept & _).
  - reflexivity.
  - reflexivity.
  - unfold shelf_names. repeat constructor.
  - exists "pack.1.var", 1. split; [|by vm_compute].
    unfold shelf_names. apply elem_of_cons. by left.
  - exists n, m. split; [exact Hn|]. split; [exact Hp|]. split; [exact Hm|].
    exists r, w'. split; [exact Hrun|exact Hkept].
Defined.

End MainTheorems.

(* ===================================================================== *)
(** ** Binary64: where the arithmetic of [format_size] is exact *)
(* ===================================================================== *)

Section FloatFacts.

Lemma ltb_int_1024 n : PyFloat.ltb (PyFloat.Int n) PyFloat.f1024 = (n <? 1024).
Proof.
  unfold PyFloat.ltb. 
  change PyFloat.f1024 with (S754_finite false 4503599627370496 (-42)).
  unfold PyFloat.int_ltb_float.
  change (0 <=? -42) with false. cbv iota.
  change (- -42) with 42. 
  destruct (Z.ltb_spec n 1024); destruct (Z.ltb_spec (n * 2 ^ 42) (Z.pos 4503599627370496)); try done; lia.
Qed.

Lemma div_eucl_pair a b : Z.div_eucl a b = (a / b, a mod b).
Proof. unfold Z.div, Z.modulo. by destruct (Z.div_eucl a b). Qed.

Lemma div_1024_exact s m e :
  digits2_pos m = 53%positive -> -1063 <= e <= 971 ->
  SFdiv PyFloat.prec PyFloat.emax (S754_finite s m e) PyFloat.f1024
  = S754_finite s m (e - 10).
Proof.
  intros Hd He.
  change PyFloat.f1024 with (S754_finite false 4503599627370496 (-42)).
  unfold SFdiv, SFdiv_core_binary.
  unfold Zdigits2. rewrite Hd.
  change (digits2_pos 4503599627370496) with 53%positive.
  unfold fexp, emin, PyFloat.prec, PyFloat.emax.
  set (e' := Z.min _ _).
  assert (He' : e' = e - 11) by (unfold e'; lia).
  clearbody e'. subst e'.
  replace (e - -42 - (e - 11)) with 53 by lia.
  cbv iota beta.
  rewrite Z.shiftl_mul_pow2 by lia.
  rewrite div_eucl_pair.
  replace (Z.pos m * 2 ^ 53) with (Z.pos m~0 * 4503599627370496) by lia.
  rewrite Z.div_mul by lia. rewrite Z.mod_mul by lia.
  change (new_location 4503599627370496 0) with loc_Exact.
  unfold binary_round_aux, shr_fexp, Zdigits2.
  cbn [digits2_pos]. rewrite Hd.
  unfold fexp, emin.
  replace (Z.max (Z.pos (Pos.succ 53) + (e - 11) - 53) (3 - 1024 - 53) - (e - 11)) with 1 by lia.
  cbn [shr shr_record_of_loc].
  change (SpecFloat.iter_pos shr_1 1
            {| shr_m := Z.pos m~0; shr_r := false; shr_s := false |})
    with {| shr_m := Z.pos m; shr_r := false; shr_s := false |}.
  cbn [shr_m loc_of_shr_record round_nearest_even].
  rewrite Hd.
  replace (Z.max (Z.pos 53 + (e - 11 + 1) - 53) (3 - 1024 - 53) - (e - 11 + 1)) with 0 by lia.
  cbn [shr shr_m].
  replace (e - 11 + 1 <=? 1024 - 53) with true by (symmetry; apply Z.leb_le; lia).
  rewrite xorb_false_r. f_equal. lia.
Qed.

Lemma iter_xO_value p k : Z.pos (Pos.iter xO p k) = Z.pos p * 2 ^ Z.pos k.
Proof.
  induction k as [|k IH] using Pos.peano_ind.
  - simpl. lia.
  - rewrite Pos.iter_succ, Pos2Z.inj_succ, Z.pow_succ_r by lia.
    rewrite Pos2Z.inj_xO, IH. lia.
Qed.

Lemma iter_xO_digits p k :
  digits2_pos (Pos.iter xO p k) = (digits2_pos p + k)%positive.
Proof.
  induction k as [|k IH] using Pos.peano_ind.
  - simpl. lia.
  - rewrite Pos.iter_succ. cbn [digits2_pos]. rewrite IH. lia.
Qed.

Lemma round_canonical s m e :
  digits2_pos m = 53%positive -> -1074 <= e <= 971 ->
  binary_round_aux 53 1024 s (Z.pos m) e loc_Exact = S754_finite s m e.
Proof.
  intros Hd He.
  unfold binary_round_aux, shr_fexp, Zdigits2, fexp, emin.
  rewrite Hd.
  replace (Z.max (Z.pos 53 + e - 53) (3 - 1024 - 53) - e) with 0 by lia.
  cbn [shr shr_record_of_loc shr_m loc_of_shr_record round_nearest_even].
  rewrite Hd.
  replace (Z.max (Z.pos 53 + e - 53) (3 - 1024 - 53) - e) with 0 by lia.
  cbn [shr shr_m].
  replace (e <=? 1024 - 53) with true by (symmetry; apply Z.leb_le; lia).
  done.
Qed.

Lemma of_int_exact p :
  Z.pos (digits2_pos p) <= 53 ->
  exists mz,
    PyFloat.of_int (Z.pos p)
    = Some (S754_finite false mz (Z.pos (digits2_pos p) - 53)) /\
    digits2_pos mz = 53%positive /\
    Z.pos mz = Z.pos p * 2 ^ (53 - Z.pos (digits2_pos p)).
Proof.
  intros Hd. unfold PyFloat.of_int, binary_normalize, binary_round, shl_align.
  unfold fexp at 1 2, emin, PyFloat.prec, PyFloat.emax.
  set (d := digits2_pos p) in *.
  replace (Z.max (Z.pos d + 0 - 53) (3 - 1024 - 53)) with (Z.pos d - 53) by lia.
  rewrite Z.sub_0_r.
  destruct (Z.pos d - 53) as [|k|k] eqn:Hk; [|lia|].
  - exists p. rewrite (round_canonical false p 0) by (done || lia).
    fold d. split; [done|]. split; [lia|].
    replace (53 - Z.pos d) with 0 by lia. lia.
  - exists (Pos.iter xO p k).
    assert (Hdig : digits2_pos (Pos.iter xO p k) = 53%positive).
    { rewrite iter_xO_digits. fold d. lia. }
    rewrite round_canonical by (done || lia).
    split; [done|]. split; [done|].
    rewrite iter_xO_value. f_equal. f_equal. lia.
Qed.

Lemma round_half_even_scale a b c :
  0 < b -> 0 < c -> PyFloat.round_half_even (a * c) (b * c) = PyFloat.round_half_even a b.
Proof.
  intros Hb Hc. unfold PyFloat.round_half_even.
  rewrite Z.div_mul_cancel_r by lia.
  rewrite Z.mul_mod_distr_r by lia.
  assert (Hcmp : (2 * (a mod b * c) ?= b * c) = (2 * (a mod b) ?= b)).
  { destruct (Z.compare_spec (2 * (a mod b)) b);
      [apply Z.compare_eq_iff|apply Z.compare_lt_iff|apply Z.compare_gt_iff]; nia. }
  by rewrite Hcmp.
Qed.

Lemma digits2_pos_bounds p :
  2 ^ (Z.pos (digits2_pos p) - 1) <= Z.pos p < 2 ^ Z.pos (digits2_pos p).
Proof.
  induction p as [p IH|p IH|]; cbn [digits2_pos].
  - rewrite Pos2Z.inj_succ. replace (Z.succ (Z.pos (digits2_pos p)) - 1) with (Z.succ (Z.pos (digits2_pos p) - 1)) by lia.
    rewrite !Z.pow_succ_r by lia. lia.
  - rewrite Pos2Z.inj_succ. replace (Z.succ (Z.pos (digits2_pos p)) - 1) with (Z.succ (Z.pos (digits2_pos p) - 1)) by lia.
    rewrite !Z.pow_succ_r by lia. lia.
  - simpl. lia.
Qed.


Lemma SFltb_1024 m e :
  digits2_pos m = 53%positive ->
  SFltb (S754_finite false m e) PyFloat.f1024 = (e <? -42).
Proof.
  intros Hd.
  change PyFloat.f1024 with (S754_finite false 4503599627370496 (-42)).
  unfold SFltb, SFcompare.
  destruct (Z.compare_spec e (-42)) as [->|Hlt|Hgt].
  - assert (Hb : 2 ^ 52 <= Z.pos m).
    { pose proof (digits2_pos_bounds m) as [Hb _].
      replace (Z.pos (digits2_pos m) - 1) with 52 in Hb
        by (rewrite Hd; reflexivity).
      exact Hb. }
    rewrite Pos.compare_cont_spec. unfold Pos.switch_Eq.
    destruct (Pos.compare_spec m 4503599627370496) as [Heq|Hlt|Hgt];
      [reflexivity| |reflexivity].
    change (2 ^ 52) with (Z.pos 4503599627370496) in Hb.
    apply Pos2Z.pos_lt_pos in Hlt. exfalso. clear Hd.
    revert Hb Hlt. generalize (Z.pos m). intros. lia.
  - symmetry. apply Z.ltb_lt. lia.
  - symmetry. apply Z.ltb_ge. lia.
Qed.

Lemma scaled_float m e k :
  digits2_pos m = 53%positive -> -1063 + 10 * Z.of_nat k <= e <= 971 ->
  scaled (PyFloat.Float (S754_finite false m e)) k
  = Some (PyFloat.Float (S754_finite false m (e - 10 * Z.of_nat k))).
Proof.
  intros Hd. revert e. induction k as [|k IH]; intros e He.
  - simpl. by rewrite Z.sub_0_r.
  - cbn [scaled PyFloat.div]. rewrite div_1024_exact by (done || lia).
    rewrite IH by lia. do 3 f_equal. lia.
Qed.

Lemma round_half_even_1 a : PyFloat.round_half_even a 1 = a.
Proof.
  unfold PyFloat.round_half_even. rewrite Z.div_1_r, Z.mod_1_r. done.
Qed.

Lemma hundredths_value mz e n a :
  Z.pos mz = n * 2 ^ a -> 0 <= a -> 0 <= - e - a ->
  PyFloat.hundredths mz e = PyFloat.round_half_even (100 * n) (2 ^ (- e - a)).
Proof.
  intros Hval Ha He. unfold PyFloat.hundredths.
  destruct (Z.leb_spec 0 e) as [Hpos|Hneg].
  - assert (e = 0) as -> by lia. assert (a = 0) as -> by lia.
    rewrite Hval. change (- 0 - 0) with 0. change (2 ^ 0) with 1.
    rewrite round_half_even_1. lia.
  - rewrite Hval.
    replace (n * 2 ^ a * 100) with (100 * n * 2 ^ a) by lia.
    replace (- e) with ((- e - a) + a) at 1 by lia.
    rewrite Z.pow_add_r by lia.
    apply round_half_even_scale; apply Z.pow_pos_nonneg; lia.
Qed.

Lemma pow_1024 k : 1024 ^ k = 2 ^ (10 * k).
Proof.
  destruct (Z.le_gt_cases 0 k) as [Hk|Hk].
  - change 1024 with (2 ^ 10). by rewrite <- Z.pow_mul_r by lia.
  - rewrite !Z.pow_neg_r by lia. done.
Qed.

End FloatFacts.

(* ===================================================================== *)
(** ** The grammar of the names, and the sizes *)
(* ===================================================================== *)

Section GrammarAndSizes.

(** C3, as it is worded, fails: [pack.1.2.var] is not read as base [pack]
    with version 1. *)
Lemma pack_1_2_not_version_1 :
  parse "pack.1.2.var" <> Some ("pack", 1) /\
  (VERSION_RE_match "pack.1.2.var" ≫= Re.lookup_group "base") <> Some "pack" /\
  (VERSION_RE_match "pack.1.2.var" ≫= Re.lookup_group "version") <> Some "1".
Proof. split; [by vm_compute|]. split; by vm_compute. Qed.

(** C3, as the program has it.  [pack.1.2.var] matches with base [pack.1]
    and version 2: after the base [pack] the rest of the name, [.1.2.var],
    is not a dot, digits and [.var] up to the end, so the lazy base grows
    until the rest is exactly that.  In every match the name is the base, a
    dot, the digits of the version, a dot and an extension that reads
    [var] in lower case, with nothing after it but the newline that [$]
    lets pass. *)
Theorem pack_1_2_is_version_2 :
  VERSION_RE_match "pack.1.2.var" = Some [("version", "2"); ("base", "pack.1")] /\
  parse "pack.1.2.var" = Some ("pack.1", 2) /\
  Re.run VERSION_FLAGS (tail VERSION_RE) ".1.2.var" [("base", "pack")] = None /\
  Re.run VERSION_FLAGS (tail VERSION_RE) ".2.var" [("base", "pack.1")]
  = Some [("version", "2"); ("base", "pack.1")] /\
  forall name m,
    VERSION_RE_match name = Some m ->
    exists base digits ext tail,
      name = base +:+ "." +:+ digits +:+ "." +:+ ext +:+ tail /\
      base <> "" /\ digits <> "" /\ all_chars PyStr.is_digit digits = true /\
      PyStr.lower ext = "var" /\
      (tail = "" \/ tail = String Re.newline "") /\
      m = [("version", digits); ("base", base)].
Proof.
  split; [by vm_compute|]. split; [by vm_compute|].
  split; [by vm_compute|]. split; [by vm_compute|].
  intros name m Hm.
  destruct (VERSION_RE_shape name m Hm)
    as (base & digits & ext & tl & H1 & H2 & _ & H3 & H4 & H5 & H6 & H7).
  by exists base, digits, ext, tl.
Qed.

Lemma pack_1_2_is_version_2_witness :
  exists base digits ext tail,
    "a.10.VAR" = base +:+ "." +:+ digits +:+ "." +:+ ext +:+ tail /\
    PyStr.lower ext = "var".
Proof.
  destruct pack_1_2_is_version_2 as (_ & _ & _ & _ & Hshape).
  destruct (Hshape "a.10.VAR" [("version", "10"); ("base", "a")] eq_refl)
    as (base & digits & ext & tl & Hname & _ & _ & _ & Hext & _).
  exists base, digits, ext, tl. split; [exact Hname|exact Hext].
Defined.

Lemma format_size_loop_unit units num k x :
  (k <= length units)%nat ->
  scaled num k = Some x ->
  (forall j y, (j < k)%nat -> scaled num j = Some y ->
     PyFloat.ltb y PyFloat.f1024 = false) ->
  ((k < length units)%nat -> PyFloat.ltb x PyFloat.f1024 = true) ->
  format_size_loop units num
  = match PyFloat.format_2f x with
    | Some text => Some (text +:+ " " +:+ nth k units "PB")
    | None => None
    end.
Proof.
  revert num k. induction units as [|u units IH]; intros num k Hk Hx Hbig Hsmall.
  - destruct k; [|simpl in Hk; lia]. simpl in Hx. injection Hx as <-. done.
  - destruct k as [|k].
    + simpl in Hx. injection Hx as <-. cbn [format_size_loop nth].
      rewrite Hsmall by (simpl; lia). done.
    + cbn [format_size_loop nth].
      rewrite (Hbig 0%nat num) by (done || lia).
      cbn [scaled] in Hx.
      destruct (PyFloat.div num PyFloat.f1024) as [num'|] eqn:Hdiv; [|done].
      apply IH; [simpl in Hk; lia|done| |intros; apply Hsmall; simpl; lia].
      intros j y Hj Hy. apply (Hbig (S j)); [lia|].
      cbn [scaled]. by rewrite Hdiv.
Qed.

Lemma format_size_exact n k :
  0 <= n < 2 ^ 53 -> (k <= 5)%nat ->
  ((0 < k)%nat -> 1024 ^ Z.of_nat k <= n) ->
  ((k < 5)%nat -> n < 1024 ^ (Z.of_nat k + 1)) ->
  format_size (PyFloat.Int n)
  = Some (PyFloat.fixed2 (PyFloat.round_half_even (100 * n) (1024 ^ Z.of_nat k))
          +:+ " " +:+ unit_name k).
Proof.
  intros Hn Hk Hlow Hhigh.
  destruct n as [|p|p]; [| |lia].
  - destruct k as [|k]; [by vm_compute|].
    assert (0 < 1024 ^ Z.of_nat (S k)) by (apply Z.pow_pos_nonneg; lia).
    specialize (Hlow ltac:(lia)). lia.
  - pose proof (digits2_pos_bounds p) as [Hd1 Hd2].
    set (d := Z.pos (digits2_pos p)) in *.
    assert (Hd : 1 <= d <= 53).
    { split; [unfold d; lia|].
      assert (d - 1 < 53); [|lia].
      apply (Z.pow_lt_mono_r_iff 2); [lia|lia|]. lia. }
    destruct (of_int_exact p ltac:(fold d; lia)) as (mz & Hof & Hdig & Hval).
    fold d in Hof, Hval.
    assert (HA : (0 < k)%nat -> 10 * Z.of_nat k + 1 <= d).
    { intros H0. specialize (Hlow H0). rewrite pow_1024 in Hlow.
      assert (10 * Z.of_nat k < d); [|lia].
      apply (Z.pow_lt_mono_r_iff 2); [lia|lia|]. lia. }
    assert (HB : (k < 5)%nat -> d <= 10 * (Z.of_nat k + 1)).
    { intros H5. specialize (Hhigh H5). rewrite pow_1024 in Hhigh.
      assert (d - 1 < 10 * (Z.of_nat k + 1)); [|lia].
      apply (Z.pow_lt_mono_r_iff 2); [lia|lia|]. lia. }
    assert (Hscaled : forall j, (0 < j <= 5)%nat ->
              scaled (PyFloat.Int (Z.pos p)) j
              = Some (PyFloat.Float
                        (S754_finite false mz (d - 53 - 10 * Z.of_nat j)))).
    { intros [|j] Hj; [lia|]. cbn [scaled PyFloat.div]. rewrite Hof.
      rewrite div_1024_exact by (done || lia).
      rewrite scaled_float by (done || lia). do 3 f_equal. lia. }
    unfold format_size.
    destruct k as [|k].
    + rewrite (format_size_loop_unit _ _ 0%nat (PyFloat.Int (Z.pos p)));
        [|simpl; lia|done|intros; lia|].
      2:{ intros _. rewrite ltb_int_1024. apply Z.ltb_lt.
          specialize (Hhigh ltac:(lia)). simpl in Hhigh. lia. }
      cbn [PyFloat.format_2f]. rewrite Hof. cbn [PyFloat.format_2f_float].
      rewrite (hundredths_value mz _ (Z.pos p) (53 - d)) by (done || lia).
      replace (- (d - 53) - (53 - d)) with 0 by lia. done.
    + rewrite (format_size_loop_unit _ _ (S k)
                 (PyFloat.Float (S754_finite false mz (d - 53 - 10 * Z.of_nat (S k)))));
        [|simpl; lia|apply Hscaled; lia| |].
      2:{ intros [|j] y Hj Hy.
          - simpl in Hy. injection Hy as <-. rewrite ltb_int_1024.
            apply Z.ltb_ge. specialize (Hlow ltac:(lia)).
            assert (1024 ^ 1 <= 1024 ^ Z.of_nat (S k))
              by (apply Z.pow_le_mono_r; lia).
            lia.
          - rewrite Hscaled in Hy by lia. injection Hy as <-.
            cbn [PyFloat.ltb]. rewrite SFltb_1024 by done.
            apply Z.ltb_ge. specialize (HA ltac:(lia)). lia. }
      2:{ intros H5. cbn [PyFloat.ltb]. rewrite SFltb_1024 by done.
          apply Z.ltb_lt. specialize (HB ltac:(simpl in H5; lia)). lia. }
      cbn [PyFloat.format_2f PyFloat.format_2f_float].
      rewrite (hundredths_value mz _ (Z.pos p) (53 - d)) by (done || lia).
      replace (- (d - 53 - 10 * Z.of_nat (S k)) - (53 - d))
        with (10 * Z.of_nat (S k)) by lia.
      rewrite <- pow_1024.
      unfold unit_name. simpl in Hk.
      do 5 (destruct k as [|k]; [done|]). lia.
Qed.

Lemma format_2f_convertible num :
  convertible num -> is_Some (PyFloat.format_2f num).
Proof.
  destruct num as [n|f]; simpl; [|by eexists].
  intros [g ->]. by eexists.
Qed.

Lemma first_below_1024 (units : list string) num :
  convertible num ->
  exists k x,
    (k <= length units)%nat /\
    scaled num k = Some x /\
    (forall j y, (j < k)%nat -> scaled num j = Some y ->
       PyFloat.ltb y PyFloat.f1024 = false) /\
    ((k < length units)%nat -> PyFloat.ltb x PyFloat.f1024 = true) /\
    convertible x.
Proof.
  revert num. induction units as [|u units IH]; intros num Hnum.
  - exists 0%nat, num. split; [done|]. split; [done|].
    split; [intros; lia|]. split; [simpl; lia|done].
  - destruct (PyFloat.ltb num PyFloat.f1024) eqn:Hlt.
    + exists 0%nat, num. split; [simpl; lia|]. split; [done|].
      split; [intros; lia|]. done.
    + assert (Hdiv : exists f, PyFloat.div num PyFloat.f1024 = Some (PyFloat.Float f)).
      { destruct num as [n|g]; simpl in *; [|by eexists].
        destruct Hnum as [g ->]. by eexists. }
      destruct Hdiv as [f Hdiv].
      destruct (IH (PyFloat.Float f) I) as (k & x & Hk & Hx & Hbig & Hsmall & Hconv).
      exists (S k), x. split; [simpl; lia|]. split; [simpl; by rewrite Hdiv|].
      split; [|split; [intros; apply Hsmall; simpl in *; lia|done]].
      intros [|j] y Hj Hy.
      * simpl in Hy. by injection Hy as <-.
      * simpl in Hy. rewrite Hdiv in Hy. apply (Hbig j); [lia|done].
Qed.

(** C5. For every number that [float] accepts, [format_size] returns a
    text: the number after [k] divisions by [1024.0], with two decimals,
    and the unit of index [k] in bytes, KB, MB, GB, TB, PB, where [k] is
    the first index at which the number is below [1024.0], or 5 when there
    is none among the first five.  For a size [n] below 2**53, where
    binary64 holds [n] and all its quotients exactly, this reads in
    integers: the unit is the one with [1024**k <= n < 1024**(k+1)] (0 below
    1024, 5 from 1024**5 on), and the digits are those of [100 * n / 1024**k]
    rounded to the nearest integer, ties to even.  So 0 gives [0.00 bytes],
    1536 gives [1.50 KB] and 1024**3 gives [1.00 GB]. *)
Theorem format_size_unit :
  (forall num,
     convertible num ->
     exists k x text,
       (k <= 5)%nat /\
       scaled num k = Some x /\
       (forall j y, (j < k)%nat -> scaled num j = Some y ->
          PyFloat.ltb y PyFloat.f1024 = false) /\
       ((k < 5)%nat -> PyFloat.ltb x PyFloat.f1024 = true) /\
       PyFloat.format_2f x = Some text /\
       format_size num = Some (text +:+ " " +:+ unit_name k)) /\
  (forall n k,
     0 <= n < 2 ^ 53 -> (k <= 5)%nat ->
     ((0 < k)%nat -> 1024 ^ Z.of_nat k <= n) ->
     ((k < 5)%nat -> n < 1024 ^ (Z.of_nat k + 1)) ->
     format_size (PyFloat.Int n)
     = Some (PyFloat.fixed2
               (PyFloat.round_half_even (100 * n) (1024 ^ Z.of_nat k))
             +:+ " " +:+ unit_name k)) /\
  format_size (PyFloat.Int 0) = Some "0.00 bytes" /\
  format_size (PyFloat.Int 1536) = Some "1.50 KB" /\
  format_size (PyFloat.Int (1024 ^ 3)) = Some "1.00 GB".
Proof.
  split; [|split; [exact format_size_exact|]];
    [|split; [by vm_compute|split; by vm_compute]].
  intros num Hnum.
  destruct (first_below_1024 ["bytes"; "KB"; "MB"; "GB"; "TB"] num Hnum)
    as (k & x & Hk & Hx & Hbig & Hsmall & Hconv).
  destruct (format_2f_convertible x Hconv) as [text Htext].
  exists k, x, text. split; [done|]. split; [done|]. split; [done|].
  split; [done|]. split; [done|].
  unfold format_size.
  rewrite (format_size_loop_unit _ num k x Hk Hx Hbig Hsmall), Htext.
  unfold unit_name. simpl in Hk.
  do 6 (destruct k as [|k]; [done|]). lia.
Qed.

Lemma format_size_unit_witness :
  convertible (PyFloat.Int 1536) /\
  (exists k x text,
     scaled (PyFloat.Int 1536) k = Some x /\
     PyFloat.format_2f x = Some text /\
     format_size (PyFloat.Int 1536) = Some (text +:+ " " +:+ unit_name k)) /\
  (0 <= 1536 < 2 ^ 53 /\ 1024 ^ Z.of_nat 1 <= 1536 < 1024 ^ (Z.of_nat 1 + 1)) /\
  format_size (PyFloat.Int 1536)
  = Some (PyFloat.fixed2
            (PyFloat.round_half_even (100 * 1536) (1024 ^ Z.of_nat 1))
          +:+ " " +:+ unit_name 1).
Proof.
  assert (Hconv : convertible (PyFloat.Int 1536)) by (by eexists).
  destruct format_size_unit as (Hunit & Hexact & _).
  split; [exact Hconv|]. split; [|split].
  - destruct (Hunit (PyFloat.Int 1536) Hconv)
      as (k & x & text & _ & Hx & _ & _ & Htext & Hfmt).
    exists k, x, text. split; [exact Hx|]. split; [exact Htext|exact Hfmt].
  - simpl. lia.
  - apply Hexact.
    + lia.
    + lia.
    + intros _. simpl. lia.
    + intros _. simpl. lia.
Defined.

End GrammarAndSizes.

(* ===================================================================== *)
(** ** The grammar of the names, both ways *)
(* ===================================================================== *)

Section GrammarFacts.

Lemma app_empty_l s : "" +:+ s = s.
Proof. reflexivity. Qed.

Lemma string_length_app s t :
  String.length (s +:+ t) = (String.length s + String.length t)%nat.
Proof. induction s as [|c s IH]; [done|]. rewrite app_cons. simpl. by rewrite IH. Qed.

(** Two ways of cutting a text before a suffix of the same length are
    the same way. *)
Lemma app_inj_suffix s s' t t' :
  String.length t = String.length t' ->
  s +:+ t = s' +:+ t' -> s = s' /\ t = t'.
Proof.
  revert s'. induction s as [|c s IH]; intros [|c' s'] Hlen Heq.
  - done.
  - exfalso. rewrite app_empty_l in Heq. subst t.
    rewrite app_cons in Hlen. simpl in Hlen. rewrite string_length_app in Hlen.
    lia.
  - exfalso. rewrite app_empty_l in Heq. subst t'.
    rewrite app_cons in Hlen. simpl in Hlen. rewrite string_length_app in Hlen.
    lia.
  - rewrite !app_cons in Heq. injection Heq as -> Heq.
    destruct (IH s' Hlen Heq) as [-> ->]. done.
Qed.

Lemma digits_no_dot x y :
  all_chars PyStr.is_digit (x +:+ String "." y) = false.
Proof.
  induction x as [|c x IH]; [done|].
  rewrite app_cons. simpl. rewrite IH. apply andb_false_r.
Qed.

(** A text is cut in one way only into something, a dot and digits. *)
Lemma last_dot_unique b d b' d' :
  all_chars PyStr.is_digit d = true -> all_chars PyStr.is_digit d' = true ->
  b +:+ "." +:+ d = b' +:+ "." +:+ d' -> b = b' /\ d = d'.
Proof.
  intros Hd Hd'. revert b'. induction b as [|c b IH]; intros [|c' b'] Heq.
  - rewrite !app_empty_l, !app_cons, !app_empty_l in Heq. by injection Heq as ->.
  - exfalso. rewrite !app_cons, !app_empty_l in Heq. injection Heq as <- ->.
    by rewrite digits_no_dot in Hd.
  - exfalso. rewrite !app_cons, !app_empty_l in Heq. injection Heq as -> <-.
    by rewrite digits_no_dot in Hd'.
  - rewrite !(app_cons _ b), !(app_cons _ b') in Heq. injection Heq as -> Heq.
    by destruct (IH b' Heq) as [-> ->].
Qed.

Lemma lower_length s : String.length (PyStr.lower s) = String.length s.
Proof. induction s as [|c s IH]; [done|]. simpl. by rewrite IH. Qed.

Lemma lazy_plus_some ok k b rest taken :
  b <> "" -> all_chars ok b = true ->
  is_Some (k (taken +:+ b) rest) ->
  is_Some (Re.lazy_plus ok k (b +:+ rest) taken).
Proof.
  revert taken. induction b as [|c b IH]; intros taken Hne Hall Hk; [done|].
  rewrite app_cons. simpl in *. apply andb_prop in Hall as [Hc Hall].
  rewrite Hc.
  destruct (k (taken +:+ String c "") (b +:+ rest)) as [r|] eqn:Hhere;
    [by eexists|].
  destruct b as [|c' b].
  - rewrite app_empty_l in Hhere. rewrite Hhere in Hk. by destruct Hk.
  - apply IH; [done|done|]. by rewrite app_assoc'.
Qed.

Lemma greedy_plus_some ok k ds rest taken :
  ds <> "" -> all_chars ok ds = true ->
  is_Some (k (taken +:+ ds) rest) ->
  is_Some (Re.greedy_plus ok k (ds +:+ rest) taken).
Proof.
  revert taken. induction ds as [|c ds IH]; intros taken Hne Hall Hk; [done|].
  rewrite app_cons. simpl in *. apply andb_prop in Hall as [Hc Hall].
  rewrite Hc.
  destruct (Re.greedy_plus ok k (ds +:+ rest) (taken +:+ String c ""))
    as [r|] eqn:Hmore; [by eexists|].
  destruct ds as [|c' ds].
  - by rewrite app_empty_l.
  - exfalso.
    assert (is_Some (Re.greedy_plus ok k (String c' ds +:+ rest)
                       (taken +:+ String c ""))) as [r Hr].
    { apply IH; [done|done|]. by rewrite app_assoc'. }
    congruence.
Qed.

Lemma lower_var_chars ext :
  PyStr.lower ext = "var" ->
  exists cv ca cr,
    ext = String cv (String ca (String cr "")) /\
    PyStr.lower_char cv = "v"%char /\ PyStr.lower_char ca = "a"%char /\
    PyStr.lower_char cr = "r"%char.
Proof.
  destruct ext as [|cv [|ca [|cr [|c ext]]]]; try discriminate.
  simpl. intros [= Hv Ha Hr]. by exists cv, ca, cr.
Qed.

Lemma once_chr c d k rest :
  PyStr.lower_char c = PyStr.lower_char d ->
  Re.once (Re.accepts VERSION_FLAGS (Re.Chr d)) k (String c rest)
  = k (String c "") rest.
Proof.
  intros H. cbn [Re.once Re.accepts Re.ignorecase VERSION_FLAGS].
  by rewrite H, Ascii.eqb_refl.
Qed.

(** Every name of the grammar is matched. *)
Lemma VERSION_RE_matches base digits ext :
  base <> "" -> all_chars (Re.accepts VERSION_FLAGS Re.Dot) base = true ->
  digits <> "" -> all_chars PyStr.is_digit digits = true ->
  PyStr.lower ext = "var" ->
  is_Some (VERSION_RE_match (base +:+ "." +:+ digits +:+ "." +:+ ext)).
Proof.
  intros Hb Hball Hd Hdall (cv & ca & cr & -> & Hv & Ha & Hr)%lower_var_chars.
  unfold VERSION_RE_match, Re.match_, VERSION_RE. cbn [Re.run Re.how Re.what Re.group].
  apply lazy_plus_some; [done|done|].
  rewrite app_empty_l, app_cons, app_empty_l, once_chr by done.
  apply greedy_plus_some; [done|done|].
  rewrite app_cons, !app_empty_l, once_chr by done.
  rewrite !once_chr by (by rewrite ?Hv, ?Ha, ?Hr).
  cbn. by eexists.
Qed.

Lemma endswith_app s suffix : PyStr.endswith (s +:+ suffix) suffix = true.
Proof.
  induction s as [|c s IH].
  - change ("" +:+ suffix) with suffix. destruct suffix; simpl;
      by rewrite ?Ascii.eqb_refl, ?String.eqb_refl.
  - rewrite app_cons. cbn [PyStr.endswith]. rewrite IH. by destruct (String.eqb _ _).
Qed.


Lemma lower_var_length ext : PyStr.lower ext = "var" -> String.length ext = 3%nat.
Proof. intros H. by rewrite <- lower_length, H. Qed.

(** The forward half: what a parsed name spells. *)
Lemma parse_spells name b v :
  parse name = Some (b, v) ->
  exists digits ext,
    name = b +:+ "." +:+ digits +:+ "." +:+ ext /\
    b <> "" /\ one_line b /\
    digits <> "" /\ all_chars PyStr.is_digit digits = true /\
    PyStr.lower ext = "var" /\ PyStr.int digits = Some v.
Proof.
  unfold parse. destruct (PyStr.endswith _ _) eqn:Hend; [|done].
  destruct (VERSION_RE_match name) as [m|] eqn:Hm; [|done]. simpl.
  destruct (VERSION_RE_shape _ _ Hm)
    as (base & digits & ext & tl & Hname & Hb & Hline & Hd & Hall & Hext & Htl & ->).
  cbn. destruct (PyStr.int digits) as [v'|] eqn:Hint; [|done].
  cbn. intros [= <- <-]. exists digits, ext.
  destruct Htl as [->| ->].
  - rewrite app_empty_r in Hname. done.
  - exfalso. rewrite Hname in Hend.
    replace (base +:+ "." +:+ digits +:+ "." +:+ ext +:+ String Re.newline "")
      with ((base +:+ "." +:+ digits +:+ "." +:+ ext) +:+ String Re.newline "")
      in Hend by (by rewrite !app_assoc').
    by rewrite endswith_newline in Hend.
Qed.

(** A name is cut in one way only into a base, a dot, digits, a dot and
    an extension of three letters. *)
Lemma spelling_unique b d ext b' d' ext' :
  all_chars PyStr.is_digit d = true -> all_chars PyStr.is_digit d' = true ->
  String.length ext = String.length ext' ->
  b +:+ "." +:+ d +:+ "." +:+ ext = b' +:+ "." +:+ d' +:+ "." +:+ ext' ->
  b = b' /\ d = d' /\ ext = ext'.
Proof.
  intros Hd Hd' Hlen Heq.
  assert (H : (b +:+ "." +:+ d) +:+ ("." +:+ ext)
              = (b' +:+ "." +:+ d') +:+ ("." +:+ ext'))
    by (by rewrite !app_assoc').
  apply app_inj_suffix in H as [H He];
    [|by change (S (String.length ext) = S (String.length ext')); rewrite Hlen].
  change (String "." ext = String "." ext') in He. injection He as ->.
  by apply last_dot_unique in H as [-> ->].
Qed.

(** The backward half: every name so spelt is parsed, and as spelt. *)
Lemma parse_spelt b digits ext v :
  b <> "" -> one_line b ->
  digits <> "" -> all_chars PyStr.is_digit digits = true ->
  PyStr.lower ext = "var" -> PyStr.int digits = Some v ->
  parse (b +:+ "." +:+ digits +:+ "." +:+ ext) = Some (b, v).
Proof.
  intros Hb Hline Hd Hall Hext Hint.
  destruct (VERSION_RE_matches b digits ext Hb Hline Hd Hall Hext) as [m Hm].
  assert (Hend : PyStr.endswith
                   (PyStr.lower (b +:+ "." +:+ digits +:+ "." +:+ ext)) ".var" = true).
  { replace (b +:+ "." +:+ digits +:+ "." +:+ ext)
      with ((b +:+ "." +:+ digits) +:+ ("." +:+ ext)) by (by rewrite !app_assoc').
    rewrite (lower_app (b +:+ "." +:+ digits) ("." +:+ ext)).
    change (PyStr.lower ("." +:+ ext)) with (String "." (PyStr.lower ext)).
    rewrite Hext. apply endswith_app. }
  destruct (parse (b +:+ "." +:+ digits +:+ "." +:+ ext)) as [[b' v']|] eqn:Hp.
  - apply parse_spells in Hp
      as (d' & ext' & Heq & _ & _ & _ & Hall' & Hext' & Hint').
    apply spelling_unique in Heq as (-> & -> & ->); [| done | done |].
    + congruence.
    + by rewrite !lower_var_length.
  - exfalso. unfold parse in Hp. rewrite Hend, Hm in Hp. simpl in Hp.
    destruct (VERSION_RE_groups _ _ Hm) as (b' & t & v' & Hb' & Ht & Hi & _).
    rewrite Hb' in Hp. simpl in Hp. rewrite Ht in Hp. simpl in Hp.
    rewrite Hi in Hp. done.
Qed.

Lemma app_inv_head' s t t' : s +:+ t = s +:+ t' -> t = t'.
Proof.
  induction s as [|c s IH]; [done|]. rewrite !app_cons. intros [= H]. by apply IH.
Qed.

(** A text is cut in one way only into digits, a dot and something. *)
Lemma first_dot_unique d e d' e' :
  all_chars PyStr.is_digit d = true -> all_chars PyStr.is_digit d' = true ->
  d +:+ "." +:+ e = d' +:+ "." +:+ e' -> d = d' /\ e = e'.
Proof.
  revert d'. induction d as [|c d IH]; intros [|c' d'] Hd Hd' Heq.
  - rewrite !app_empty_l in Heq. change (String "." e = String "." e') in Heq.
    by injection Heq as ->.
  - exfalso. rewrite app_empty_l, app_cons in Heq.
    change (String "." e = String c' (d' +:+ "." +:+ e')) in Heq.
    injection Heq as <- _. done.
  - exfalso. rewrite app_empty_l, app_cons in Heq.
    change (String c (d +:+ "." +:+ e) = String "." e') in Heq.
    injection Heq as -> _. done.
  - rewrite !app_cons in Heq. injection Heq as -> Heq.
    simpl in Hd, Hd'. apply andb_prop in Hd as [_ Hd]. apply andb_prop in Hd' as [_ Hd'].
    by destruct (IH d' Hd Hd' Heq) as [-> ->].
Qed.

Lemma int_leading_zero d :
  d <> "" -> PyStr.int (String "0" d) = PyStr.int d.
Proof. by destruct d. Qed.

End GrammarFacts.

Section GrammarTheorems.

(** X1. A name is read as version [v] of [b] exactly when it spells [b],
    a dot, a non-empty run of digits whose value is [v], a dot and [var]
    in any case, where [b] is not empty and holds no newline: the grammar
    of the two loops of [scan_directory] is complete as well as sound, and
    the base and the version it reads are the only ones possible. *)
Theorem parse_iff name b v :
  parse name = Some (b, v) <->
  exists digits ext,
    name = b +:+ "." +:+ digits +:+ "." +:+ ext /\
    b <> "" /\ one_line b /\
    digits <> "" /\ all_chars PyStr.is_digit digits = true /\
    PyStr.lower ext = "var" /\ PyStr.int digits = Some v.
Proof.
  split; [apply parse_spells|].
  intros (digits & ext & -> & Hb & Hline & Hd & Hall & Hext & Hint).
  by apply parse_spelt.
Qed.

(** X2. Zeros before the digits of a version change nothing: the name
    with one more leading zero is read as the same version of the same
    base, so that in any listing it is outdated exactly when the other
    is. *)
Theorem leading_zero_same_version b digits ext v names :
  all_chars PyStr.is_digit digits = true ->
  parse (b +:+ "." +:+ digits +:+ "." +:+ ext) = Some (b, v) ->
  parse (b +:+ "." +:+ String "0" digits +:+ "." +:+ ext) = Some (b, v) /\
  outdated_name names (b +:+ "." +:+ String "0" digits +:+ "." +:+ ext)
  = outdated_name names (b +:+ "." +:+ digits +:+ "." +:+ ext).
Proof.
  intros Hall Hp.
  assert (Hp0 : parse (b +:+ "." +:+ String "0" digits +:+ "." +:+ ext) = Some (b, v)).
  { pose proof Hp as (d' & ext' & Heq & Hb & Hline & Hd & Hall' & Hext & Hint)%parse_spells.
    apply app_inv_head' in Heq.
    change (String "." (digits +:+ "." +:+ ext) = String "." (d' +:+ "." +:+ ext')) in Heq.
    injection Heq as Heq.
    apply first_dot_unique in Heq as [<- <-]; [|done..].
    apply parse_spelt; try done. by rewrite int_leading_zero. }
  split; [done|]. unfold outdated_name. by rewrite Hp, Hp0.
Qed.

Lemma leading_zero_same_version_witness :
  parse "pack.01.VAR" = Some ("pack", 1) /\
  outdated_name shelf_names "pack.01.VAR"
  = outdated_name shelf_names "pack.1.VAR".
Proof.
  apply (leading_zero_same_version "pack" "1" "VAR" 1 shelf_names);
    by vm_compute.
Defined.

End GrammarTheorems.

(* ===================================================================== *)
(** ** More on the scan *)
(* ===================================================================== *)

Section ScanMoreFacts.

Lemma max_list_None l : max_list l = None <-> l = [].
Proof. by destruct l. Qed.

(** The maximum of a list depends on its elements only. *)
Lemma max_list_ext l l' :
  (forall v, v ∈ l <-> v ∈ l') -> max_list l = max_list l'.
Proof.
  intros Hext.
  destruct (max_list l) as [m|] eqn:Hm, (max_list l') as [m'|] eqn:Hm'.
  - apply max_list_spec in Hm as [Hin Hle], Hm' as [Hin' Hle'].
    f_equal. apply Z.le_antisymm.
    + apply Hle', Hext, Hin.
    + apply Hle, Hext, Hin'.
  - apply max_list_None in Hm' as ->. apply max_list_spec in Hm as [Hin _].
    apply Hext in Hin. by apply elem_of_nil in Hin.
  - apply max_list_None in Hm as ->. apply max_list_spec in Hm' as [Hin _].
    apply Hext in Hin. by apply elem_of_nil in Hin.
  - done.
Qed.

Lemma max_version_ext names names' b :
  (forall n, n ∈ names <-> n ∈ names') ->
  max_version names b = max_version names' b.
Proof.
  intros Hext. apply max_list_ext. intros v.
  rewrite !elem_of_versions_of. by setoid_rewrite Hext.
Qed.

Lemma outdated_name_ext names names' n :
  (forall x, x ∈ names <-> x ∈ names') ->
  outdated_name names n = outdated_name names' n.
Proof.
  intros Hext. unfold outdated_name. destruct (parse n) as [[b v]|]; [|done].
  by rewrite (max_version_ext names names' b Hext).
Qed.

Lemma sum_Z_Permutation l l' : l ≡ₚ l' -> sum_Z l = sum_Z l'.
Proof.
  induction 1 as [|x l l' _ IH|x y l|l l' l'' _ IH _ IH']; simpl in *; lia.
Qed.

Lemma outdated_names_Permutation names names' :
  names ≡ₚ names' -> outdated_names names ≡ₚ outdated_names names'.
Proof.
  intros Hperm. unfold outdated_names.
  rewrite (list_filter_iff _ (fun n => outdated_name names' n = true)).
  - by rewrite Hperm.
  - intros n. rewrite (outdated_name_ext names names'); [done|].
    intros x. by rewrite Hperm.
Qed.

Lemma readable_size_files w w' p :
  OS.files w' = OS.files w -> readable_size w' p = readable_size w p.
Proof. unfold readable_size. by intros ->. Qed.

Lemma outdated_names_nil names :
  outdated_names names = [] <->
  forall n b v, n ∈ names -> parse n = Some (b, v) -> is_max_version names b v.
Proof.
  split.
  - intros Hnil n b v Hin Hp.
    destruct (max_version_exists names n b v Hin Hp) as (m & Hm & Hle).
    apply max_version_spec in Hm.
    destruct (decide (v = m)) as [->|Hne]; [done|].
    assert (Hout : n ∈ outdated_names names).
    { apply elem_of_outdated_names. split; [done|]. exists b, v, m.
      repeat split; try done; try apply Hm. lia. }
    rewrite Hnil in Hout. by apply elem_of_nil in Hout.
  - intros Hall. destruct (outdated_names names) as [|n l] eqn:Hl; [done|].
    assert (Hout : n ∈ outdated_names names) by (rewrite Hl; left).
    apply elem_of_outdated_names in Hout
      as (Hin & b & v & m & Hp & [(n' & Hin' & Hp') _] & Hlt).
    destruct (Hall n b v Hin Hp) as [_ Hle].
    specialize (Hle n' m Hin' Hp'). lia.
Qed.

Lemma scan_directory_fails w d :
  OS.dirs w !! d = None ->
  scan_directory d w
  = (OS.Raise (OS.listdir_error w d), add_events w [OS.Listdir d]).
Proof.
  intros H. unfold scan_directory, mbind, M_bind, OS.bind, OS.listdir.
  cbn. by rewrite H.
Qed.

Lemma scan_directory_same_files w w' d :
  same_files w w' -> fst (scan_directory d w') = fst (scan_directory d w).
Proof.
  intros [Hd Hf]. destruct (OS.dirs w !! d) as [names|] eqn:Hn.
  - rewrite (scan_directory_run w d names Hn).
    rewrite (scan_directory_run w' d names) by (by rewrite Hd).
    simpl. do 3 f_equal. apply list_fmap_ext. intros _ p _.
    by apply readable_size_files.
  - rewrite (scan_directory_fails w d Hn).
    rewrite (scan_directory_fails w' d) by (by rewrite Hd).
    unfold OS.listdir_error. by rewrite Hf.
Qed.

Lemma outdated_paths_NoDup d names :
  Forall entry_name names -> NoDup names -> NoDup (outdated_paths d names).
Proof.
  intros Hentry Hnd. unfold outdated_paths, outdated_names.
  apply NoDup_fmap_2_strong; [|by apply NoDup_filter].
  intros n n' [_ Hin]%list_elem_of_filter [_ Hin']%list_elem_of_filter.
  rewrite Forall_forall in Hentry. apply path_join_inj; by apply Hentry.
Qed.

End ScanMoreFacts.

Section ScanMoreTheorems.



(** X4. Whether it returns or raises, [scan_directory] only reads: all
    it does is to list its directory and to ask for sizes, so that the
    directories, the files, the lines to be read and the preference file
    are what they were, nothing is printed and nothing is removed. *)
Theorem scan_directory_reads_only w d :
  exists es,
    snd (scan_directory d w) = add_events w es /\
    Forall (scan_event d) es /\
    same_files w (snd (scan_directory d w)) /\
    OS.stdin (snd (scan_directory d w)) = OS.stdin w /\
    OS.config (snd (scan_directory d w)) = OS.config w /\
    removals (OS.trace (snd (scan_directory d w))) = removals (OS.trace w).
Proof.
  destruct (OS.dirs w !! d) as [names|] eqn:Hn.
  - rewrite (scan_directory_run w d names Hn). simpl.
    eexists. split; [done|]. split; [|split; [done|split; [done|split; [done|]]]].
    + repeat constructor. apply Forall_fmap, Forall_true. done.
    + rewrite removals_app. simpl. rewrite removals_getsize. by rewrite app_nil_r.
  - rewrite (scan_directory_fails w d Hn). simpl.
    eexists. split; [done|]. split; [|split; [done|split; [done|split; [done|]]]].
    + by repeat constructor.
    + rewrite removals_app. simpl. by rewrite app_nil_r.
Qed.

(** X5. The result of [scan_directory] depends on the directories and
    the files only; a second scan right after the first returns the same
    list and the same total, or raises the same error. *)
Theorem scan_directory_repeatable w d :
  (forall w', same_files w w' ->
     fst (scan_directory d w') = fst (scan_directory d w)) /\
  fst (scan_directory d (snd (scan_directory d w))) = fst (scan_directory d w).
Proof.
  split; [intros w'; apply scan_directory_same_files|].
  apply scan_directory_same_files.
  destruct (OS.dirs w !! d) as [names|] eqn:Hn.
  - by rewrite (scan_directory_run w d names Hn).
  - by rewrite (scan_directory_fails w d Hn).
Qed.

(** X6. The order in which [os.listdir] reports the names does not
    matter: for two listings of the same names over the same files, the
    outdated lists hold the same paths, in the order of their listing,
    and the totals are equal. *)
Theorem scan_directory_order_independent w w' d names names' :
  OS.dirs w !! d = Some names -> OS.dirs w' !! d = Some names' ->
  OS.files w' = OS.files w -> names ≡ₚ names' ->
  exists l l' total,
    fst (scan_directory d w) = OS.Ok (l, total) /\
    fst (scan_directory d w') = OS.Ok (l', total) /\
    l ≡ₚ l'.
Proof.
  intros Hn Hn' Hf Hperm.
  rewrite (scan_directory_run w d names Hn), (scan_directory_run w' d names' Hn').
  assert (Hp : outdated_paths d names ≡ₚ outdated_paths d names').
  { unfold outdated_paths. by rewrite (outdated_names_Permutation _ _ Hperm). }
  eexists _, _, _. split; [done|]. split; [|done]. simpl. do 2 f_equal.
  rewrite (list_fmap_ext (readable_size w') (readable_size w) (outdated_paths d names'))
    by (intros; by apply readable_size_files).
  symmetry. apply sum_Z_Permutation. by rewrite Hp.
Qed.

Lemma scan_directory_order_independent_witness :
  exists l l' total,
    fst (scan_directory "/d" (shelf [])) = OS.Ok (l, total) /\
    fst (scan_directory "/d" (with_listing (shelf []) "/d" (reverse shelf_names)))
    = OS.Ok (l', total) /\
    l ≡ₚ l'.
Proof.
  apply (scan_directory_order_independent (shelf [])
           (with_listing (shelf []) "/d" (reverse shelf_names))
           "/d" shelf_names (reverse shelf_names)).
  - reflexivity.
  - reflexivity.
  - reflexivity.
  - symmetry. apply reverse_Permutation.
Defined.

(** X7. [scan_directory] finds nothing outdated exactly when every
    matching file of the listing carries the maximum version of its
    base. *)
Theorem nothing_outdated_iff w d names :
  OS.dirs w !! d = Some names ->
  fst (scan_directory d w) = OS.Ok ([], 0) <->
  forall n b v, n ∈ names -> parse n = Some (b, v) -> is_max_version names b v.
Proof.
  intros Hn. rewrite (scan_directory_run w d names Hn), <- outdated_names_nil.
  simpl. unfold outdated_paths. split.
  - intros [= H _]. by apply fmap_nil_inv in H.
  - by intros ->.
Qed.

Lemma nothing_outdated_iff_witness :
  OS.dirs (with_listing (shelf []) "/d" ["pack.2.var"; "x.5.var"; "a.var"]) !! "/d"
  = Some ["pack.2.var"; "x.5.var"; "a.var"] /\
  fst (scan_directory "/d"
         (with_listing (shelf []) "/d" ["pack.2.var"; "x.5.var"; "a.var"]))
  = OS.Ok ([], 0).
Proof.
  split; [reflexivity|].
  apply (nothing_outdated_iff _ "/d" ["pack.2.var"; "x.5.var"; "a.var"]);
    [reflexivity|].
  intros n b v Hin Hp. apply max_version_spec.
  apply list_elem_of_In in Hin. simpl in Hin.
  destruct Hin as [<-|[<-|[<-|[]]]]; vm_compute in Hp; try discriminate;
    injection Hp as <- <-; reflexivity.
Defined.

(** X8. In a listing without repeated names, none of which holds a [/],
    no path comes twice in the outdated list: the count that [main]
    prints is a count of files. *)
Theorem outdated_paths_distinct w d names :
  OS.dirs w !! d = Some names ->
  Forall entry_name names -> NoDup names ->
  exists l total,
    fst (scan_directory d w) = OS.Ok (l, total) /\ NoDup l /\
    len l = Z.of_nat (size (list_to_set l : gset string)).
Proof.
  intros Hn Hentry Hnd. rewrite (scan_directory_run w d names Hn).
  eexists _, _. split; [done|].
  assert (H := outdated_paths_NoDup d names Hentry Hnd). split; [done|].
  unfold len. by rewrite size_list_to_set.
Qed.

Lemma outdated_paths_distinct_witness :
  exists l total,
    fst (scan_directory "/d" (shelf [])) = OS.Ok (l, total) /\ NoDup l /\
    len l = Z.of_nat (size (list_to_set l : gset string)).
Proof.
  apply (outdated_paths_distinct (shelf []) "/d" shelf_names).
  - reflexivity.
  - repeat constructor.
  - exact (bool_decide_unpack (NoDup shelf_names) I).
Defined.

End ScanMoreTheorems.

(* ===================================================================== *)
(** ** More on the sizes *)
(* ===================================================================== *)

Section SizeMoreFacts.

Lemma round_half_even_lower a b c :
  0 < b -> c * b <= a -> c <= PyFloat.round_half_even a b.
Proof.
  intros Hb Hle. unfold PyFloat.round_half_even. cbv zeta.
  assert (Hq : c <= a / b) by (apply Z.div_le_lower_bound; lia).
  destruct (2 * (a mod b) ?= b); [destruct (Z.even _)| |]; lia.
Qed.

Lemma round_half_even_upper a b c :
  0 < b -> a <= c * b -> PyFloat.round_half_even a b <= c.
Proof.
  intros Hb Hle. unfold PyFloat.round_half_even. cbv zeta.
  pose proof (Z.div_mod a b ltac:(lia)) as Hdm.
  pose proof (Z.mod_pos_bound a b Hb) as Hr.
  assert (Hq : a / b <= c) by (apply Z.div_le_upper_bound; lia).
  destruct (Z.eq_dec (a / b) c) as [Heq|Hne].
  - assert (Hr0 : a mod b = 0) by nia.
    rewrite Hr0.
    assert (Hc : (2 * 0 ?= b) = Lt) by (apply Z.compare_lt_iff; lia).
    rewrite Hc. lia.
  - destruct (2 * (a mod b) ?= b); [destruct (Z.even _)|..]; lia.
Qed.

Lemma fixed2_whole n : 0 <= n -> PyFloat.fixed2 (100 * n) = PyStr.str_of_Z n +:+ ".00".
Proof.
  intros Hn. unfold PyFloat.fixed2.
  replace (100 * n / 100) with n by (rewrite Z.mul_comm, Z.div_mul; lia).
  replace ((100 * n) mod 100) with 0 by (rewrite Z.mul_comm, Z.mod_mul; lia).
  done.
Qed.

(** A number that [float] refuses makes the first turn of the loop
    raise, at the formatting or at the division. *)
Lemma format_size_not_convertible num :
  ~ convertible num -> format_size num = None.
Proof.
  destruct num as [n|f]; [|by intros []]. unfold convertible.
  intros Hn. apply eq_None_not_Some in Hn.
  unfold format_size, format_size_loop, PyFloat.format_2f, PyFloat.div.
  rewrite Hn. by destruct (PyFloat.ltb _ _).
Qed.

Lemma format_size_convertible num :
  convertible num -> is_Some (format_size num).
Proof.
  intros Hc.
  destruct (first_below_1024 ["bytes"; "KB"; "MB"; "GB"; "TB"] num Hc)
    as (k & x & Hk & Hs & Hbefore & Hbelow & Hcx).
  unfold format_size.
  rewrite (format_size_loop_unit _ num k x Hk Hs Hbefore Hbelow).
  by destruct (format_2f_convertible x Hcx) as [text ->].
Qed.

End SizeMoreFacts.

Section SizeMoreTheorems.

(** X9. Below 1024 a size is printed as it is, in bytes, with [.00]
    after it. *)
Theorem format_size_bytes n :
  0 <= n < 1024 ->
  format_size (PyFloat.Int n) = Some (PyStr.str_of_Z n +:+ ".00 bytes").
Proof.
  intros Hn.
  rewrite (format_size_exact n 0); [| lia | lia | intros; lia | intros _; simpl; lia ].
  change (1024 ^ Z.of_nat 0) with 1. rewrite round_half_even_1, fixed2_whole by lia.
  by rewrite app_assoc'.
Qed.

Lemma format_size_bytes_witness :
  format_size (PyFloat.Int 1023) = Some "1023.00 bytes".
Proof. apply (format_size_bytes 1023). lia. Defined.

(** X10. From KB on, the number in front of the unit is at least 1.00,
    and up to TB it is at most 1024.00; the bound is reached, since the
    quotient is rounded after the unit is chosen: one byte less than a
    megabyte is [1024.00 KB]. *)
Theorem format_size_number_range :
  (forall n k,
     0 <= n < 2 ^ 53 -> (0 < k <= 5)%nat ->
     1024 ^ Z.of_nat k <= n ->
     ((k < 5)%nat -> n < 1024 ^ (Z.of_nat k + 1)) ->
     exists h,
       format_size (PyFloat.Int n)
       = Some (PyFloat.fixed2 h +:+ " " +:+ unit_name k) /\
       100 <= h /\ ((k < 5)%nat -> h <= 102400)) /\
  format_size (PyFloat.Int (1024 ^ 2 - 1)) = Some "1024.00 KB".
Proof.
  split; [|by vm_compute].
  intros n k Hn Hk Hlo Hhi.
  exists (PyFloat.round_half_even (100 * n) (1024 ^ Z.of_nat k)).
  assert (Hpos : 0 < 1024 ^ Z.of_nat k) by (apply Z.pow_pos_nonneg; lia).
  split; [apply format_size_exact; [done | lia | done | done]|].
  split; [apply round_half_even_lower; lia|].
  intros Hk5. specialize (Hhi Hk5).
  apply round_half_even_upper; [done|].
  rewrite Z.pow_add_r, Z.pow_1_r in Hhi by lia. lia.
Qed.

Lemma format_size_number_range_witness :
  exists h,
    format_size (PyFloat.Int 5000000)
    = Some (PyFloat.fixed2 h +:+ " " +:+ unit_name 2%nat) /\
    100 <= h /\ ((2 < 5)%nat -> h <= 102400).
Proof.
  apply (proj1 format_size_number_range 5000000 2%nat).
  - split; [lia|]. reflexivity.
  - lia.
  - vm_compute. discriminate.
  - intros _. reflexivity.
Defined.

(** X11. [format_size] returns a text exactly for the numbers that
    [float] accepts; for an int too large for binary64 it raises
    [OverflowError], at the division or at the formatting.  The largest
    int it accepts is the last one that does not round to 2**1024. *)
Theorem format_size_defined_iff num :
  (is_Some (format_size num) <-> convertible num) /\
  format_size (PyFloat.Int (2 ^ 1024 - 2 ^ 970)) = None /\
  is_Some (format_size (PyFloat.Int (2 ^ 1024 - 2 ^ 970 - 1))) /\
  format_size (PyFloat.Int (- 2 ^ 1024)) = None.
Proof.
  split; [split|].
  - intros Hs. destruct num as [n|f]; [|done].
    destruct (decide (convertible (PyFloat.Int n))) as [|Hn]; [done|].
    rewrite (format_size_not_convertible _ Hn) in Hs. by destruct Hs.
  - apply format_size_convertible.
  - split; [by vm_compute|]. split; [by vm_compute; eexists|by vm_compute].
Qed.

End SizeMoreTheorems.

(* ===================================================================== *)
(** ** The directory and the preference file *)
(* ===================================================================== *)

Section PickFacts.

Lemma save_last_dir_run path w :
  save_last_dir path w = (OS.Ok tt, recorded path w).
Proof.
  unfold save_last_dir, recorded, OS.catch, OS.write_config.
  by destruct (OS.config_writable w), (OS.config_openable w).
Qed.

Lemma load_last_dir_run w :
  load_last_dir w
  = (OS.Ok match OS.config w with
           | OS.LastDir dir => OS.Str <$> dir
           | OS.LastOther v => Some (OS.Other v)
           | _ => None
           end, w).
Proof.
  unfold load_last_dir, mbind, M_bind, OS.bind, OS.config_exists,
    OS.read_config, OS.ret.
  cbn. destruct (OS.config w) as [| |[dir|]|v] eqn:Hc; cbn; by rewrite ?Hc.
Qed.

Lemma initial_dir_run w :
  (last ← load_last_dir;
   or_else last (cwd ← OS.getcwd; OS.ret (OS.Str cwd))) w
  = match initial_dir w with
    | Some initial => (OS.Ok initial, w)
    | None => (OS.Raise cwd_gone, w)
    end.
Proof.
  unfold mbind, M_bind, OS.bind. rewrite load_last_dir_run.
  unfold initial_dir, remembered, or_else, OS.getcwd, OS.ret.
  destruct (OS.config w) as [| |[dir|]|v]; cbn [fmap option_fmap option_map];
    try (by destruct (OS.cwd w)).
  - destruct (OS.truthy (OS.Str dir)); [done|by destruct (OS.cwd w)].
  - destruct (OS.truthy (OS.Other v)); [done|by destruct (OS.cwd w)].
Qed.

(** The end of [pick_directory] for a string. *)
Lemma keep_directory_str s w :
  keep_directory (OS.Str s) w
  = if negb (String.eqb s "")
       && (bool_decide (is_Some (OS.dirs w !! s)) || OS.is_folder w s)
    then (OS.Ok (Some s), recorded s w)
    else (OS.Ok None, w).
Proof.
  unfold keep_directory. cbn [OS.truthy].
  destruct (negb (String.eqb s "")); [|done].
  unfold mbind, M_bind, OS.bind, OS.isdir_value, OS.isdir. cbn [andb].
  destruct (_ || _); [|done]. by rewrite save_last_dir_run.
Qed.

(** The end of [pick_directory] for a value that is no string: nothing is
    returned, and [os.path.isdir] raises on what is no file descriptor. *)
Lemma keep_directory_other v w :
  keep_directory (OS.Other v) w
  = if OS.truthy (OS.Other v) then
      match v with
      | OS.JBool _ => (OS.Ok None, w)
      | OS.JInt n =>
          if (- 2 ^ 31 <=? n) && (n <? 2 ^ 31) then (OS.Ok None, w)
          else (OS.Raise OS.OverflowError, w)
      | _ => (OS.Raise OS.TypeError, w)
      end
    else (OS.Ok None, w).
Proof.
  unfold keep_directory. destruct (OS.truthy (OS.Other v)); [|done].
  unfold mbind, M_bind, OS.bind, OS.isdir_value, OS.isdir_other.
  destruct v as [b|n|z t|z t|z t]; try done.
  by destruct (_ && _).
Qed.

(** [pick_directory], by the answer of the dialog or of the prompt. *)
Lemma pick_directory_run w :
  pick_directory w
  = match initial_dir w with
    | None => (OS.Raise cwd_gone, w)
    | Some initial =>
        match OS.dialog w with
        | Some answer =>
            keep_directory (OS.Str answer)
              (add_events w [OS.dialog_event initial])
        | None =>
            match OS.stdin w with
            | [] =>
                (OS.Raise OS.EOFError,
                 add_events w [OS.Input (path_prompt initial)])
            | line :: rest =>
                keep_directory
                  (if OS.truthy (OS.Str (PyStr.strip line))
                   then OS.Str (PyStr.strip line) else initial)
                  (after_input w (path_prompt initial) rest)
            end
        end
    end.
Proof.
  unfold pick_directory.
  pose proof (initial_dir_run w) as Hinit.
  unfold mbind, M_bind, OS.bind in Hinit |- *.
  rewrite load_last_dir_run in Hinit |- *.
  destruct (or_else _ _ w) as [r w1].
  destruct (initial_dir w) as [initial|]; injection Hinit as -> ->; [|done].
  unfold OS.catch, OS.askdirectory.
  destruct (OS.dialog w) as [answer|]; [done|].
  rewrite input_run. unfold path_prompt.
  destruct (OS.stdin w) as [|line rest]; [done|].
  unfold or_else, OS.ret. cbv zeta.
  by destruct (OS.truthy (OS.Str (PyStr.strip line))).
Qed.

Lemma truthy_str s : OS.truthy (OS.Str s) = true <-> s <> "".
Proof.
  unfold OS.truthy. rewrite negb_true_iff. apply String.eqb_neq.
Qed.

(** What [keep_directory] returns for a string, and what it leaves. *)
Lemma keep_directory_str_result s w r w0 :
  keep_directory (OS.Str s) w = (r, w0) ->
  (exists d, r = OS.Ok (Some d) /\ d = s /\ d <> "" /\
     (is_Some (OS.dirs w !! d) \/ OS.is_folder w d = true) /\
     w0 = recorded d w) \/
  (r = OS.Ok None /\ w0 = w).
Proof.
  rewrite keep_directory_str.
  destruct (negb _ && _) eqn:Hok; intros [= <- <-]; [|by right].
  left. apply andb_prop in Hok as [Hne Hdir]. exists s.
  split; [done|]. split; [done|]. split; [by apply truthy_str|].
  split; [|done]. apply orb_prop in Hdir as [Hdir|Hdir]; [left|by right].
  by apply bool_decide_eq_true in Hdir.
Qed.

Lemma keep_directory_other_result v w r w0 :
  keep_directory (OS.Other v) w = (r, w0) ->
  w0 = w /\
  (r = OS.Ok None \/
   (OS.truthy (OS.Other v) = true /\
    (r = OS.Raise OS.TypeError \/ r = OS.Raise OS.OverflowError))).
Proof.
  rewrite keep_directory_other.
  destruct (OS.truthy (OS.Other v)); [|intros [= <- <-]; by split; [|left]].
  destruct v as [b|n|z t|z t|z t]; try destruct (_ && _);
    intros [= <- <-]; (split; [done|]); try (by left);
    right; (split; [done|]); by (left + right).
Qed.

Lemma recorded_config d w :
  OS.config (recorded d w)
  = if OS.config_writable w then OS.LastDir (Some d)
    else if OS.config_openable w then OS.Corrupt
    else OS.config w.
Proof.
  unfold recorded. by destruct (OS.config_writable w), (OS.config_openable w).
Qed.

(** What [pick_directory] returns. *)
Lemma pick_directory_result w r w0 :
  pick_directory w = (OS.Ok r, w0) ->
  match r with
  | Some d =>
      d <> "" /\
      (is_Some (OS.dirs w !! d) \/ OS.is_folder w d = true) /\
      OS.config w0
      = (if OS.config_writable w then OS.LastDir (Some d)
         else if OS.config_openable w then OS.Corrupt
         else OS.config w)
  | None => OS.config w0 = OS.config w
  end.
Proof.
  rewrite pick_directory_run.
  destruct (initial_dir w) as [initial|]; [|done].
  destruct (OS.dialog w) as [answer|]; [|destruct (OS.stdin w) as [|line rest]].
  - intros [(d & [= ->] & _ & Hne & Hdir & ->)|[[= ->] ->]]%keep_directory_str_result;
      [|done].
    split; [done|]. split; [done|]. by rewrite recorded_config.
  - done.
  - cbv zeta. destruct (OS.truthy (OS.Str (PyStr.strip line))).
    + intros [(d & [= ->] & _ & Hne & Hdir & ->)|[[= ->] ->]]%keep_directory_str_result;
        [|done].
      split; [done|]. split; [done|]. by rewrite recorded_config.
    + destruct initial as [s|v].
      * intros [(d & [= ->] & _ & Hne & Hdir & ->)|[[= ->] ->]]%keep_directory_str_result;
          [|done].
        split; [done|]. split; [done|]. by rewrite recorded_config.
      * intros [-> [[= ->]|[_ [[=]|[=]]]]]%keep_directory_other_result. done.
Qed.

End PickFacts.

Section PickTheorems.

(** X12. [save_last_dir] never raises, prints nothing and touches
    nothing but the preference file.  When that file can be written in
    full, [load_last_dir] reads back the path that was saved.  When it
    can be opened and not written in full, it is left without a value,
    whatever it held, and [load_last_dir] returns [None].  When it
    cannot be opened, it is as it was. *)
Theorem save_last_dir_round_trip path w :
  fst (save_last_dir path w) = OS.Ok tt /\
  same_files w (snd (save_last_dir path w)) /\
  OS.trace (snd (save_last_dir path w)) = OS.trace w /\
  OS.stdin (snd (save_last_dir path w)) = OS.stdin w /\
  (OS.config_writable w = true ->
   fst (load_last_dir (snd (save_last_dir path w)))
   = OS.Ok (Some (OS.Str path))) /\
  (OS.config_writable w = false -> OS.config_openable w = true ->
   OS.config (snd (save_last_dir path w)) = OS.Corrupt /\
   fst (load_last_dir (snd (save_last_dir path w))) = OS.Ok None) /\
  (OS.config_writable w = false -> OS.config_openable w = false ->
   snd (save_last_dir path w) = w).
Proof.
  rewrite save_last_dir_run. cbn [fst snd]. unfold recorded.
  split; [done|].
  destruct (OS.config_writable w), (OS.config_openable w);
    (split; [done|]); (split; [done|]); (split; [done|]);
    (split; [|split]); try done; intros _; rewrite ?load_last_dir_run; done.
Qed.

Lemma save_last_dir_round_trip_witness :
  fst (load_last_dir (snd (save_last_dir "/d" (shelf []))))
  = OS.Ok (Some (OS.Str "/d")).
Proof.
  apply (proj1 (proj2 (proj2 (proj2 (proj2
           (save_last_dir_round_trip "/d" (shelf []))))))).
  reflexivity.
Defined.

(** X13. What [pick_directory] returns, when it returns: a path that is
    not empty and that is a directory, whether or not it can be listed,
    and then [save_last_dir] has been called on it, so that the
    preference file records it when it can be written in full, is left
    without a value when it can only be opened, and is as it was
    otherwise; or nothing, and then the preference file is as it was. *)
Theorem pick_directory_sound w r w0 :
  pick_directory w = (OS.Ok r, w0) ->
  match r with
  | Some d =>
      d <> "" /\
      (is_Some (OS.dirs w !! d) \/ OS.is_folder w d = true) /\
      OS.config w0
      = (if OS.config_writable w then OS.LastDir (Some d)
         else if OS.config_openable w then OS.Corrupt
         else OS.config w)
  | None => OS.config w0 = OS.config w
  end.
Proof.
  rewrite pick_directory_run.
  destruct (initial_dir w) as [initial|]; [|done].
  assert (Hstr : forall s w1,
             OS.dirs w1 = OS.dirs w -> OS.files w1 = OS.files w ->
             OS.config w1 = OS.config w ->
             OS.config_writable w1 = OS.config_writable w ->
             OS.config_openable w1 = OS.config_openable w ->
             keep_directory (OS.Str s) w1 = (OS.Ok r, w0) ->
             match r with
             | Some d =>
                 d <> "" /\
                 (is_Some (OS.dirs w !! d) \/ OS.is_folder w d = true) /\
                 OS.config w0
                 = (if OS.config_writable w then OS.LastDir (Some d)
                    else if OS.config_openable w then OS.Corrupt
                    else OS.config w)
             | None => OS.config w0 = OS.config w
             end).
  { intros s w1 Hd Hf Hc Hw Ho.
    intros [(d & [= ->] & _ & Hne & Hdir & ->)|[[= ->] ->]]%keep_directory_str_result;
      [|done].
    split; [done|]. split.
    - unfold OS.is_folder in *. by rewrite <- Hd, <- Hf.
    - by rewrite recorded_config, Hw, Ho, Hc. }
  destruct (OS.dialog w) as [answer|]; [|destruct (OS.stdin w) as [|line rest]].
  - by apply Hstr.
  - done.
  - cbv zeta. destruct (OS.truthy (OS.Str (PyStr.strip line))); [by apply Hstr|].
    destruct initial as [s|v]; [by apply Hstr|].
    by intros [-> [[= ->]|[_ [[=]|[=]]]]]%keep_directory_other_result.
Qed.

Lemma pick_directory_sound_witness :
  "/d" <> "" /\
  (is_Some (OS.dirs (shelf []) !! "/d") \/ OS.is_folder (shelf []) "/d" = true) /\
  OS.config (snd (pick_directory (shelf []))) = OS.LastDir (Some "/d").
Proof.
  exact (pick_directory_sound (shelf []) (Some "/d")
           (snd (pick_directory (shelf []))) eq_refl).
Defined.

(** X14. The directory that was picked is proposed the next time: once
    [pick_directory] has returned [d] and could write its preference
    file, a later call opens the dialog on [d]; without a display it
    shows [d] in its prompt, and an empty answer picks [d] again if it is
    still a directory. *)
Theorem pick_directory_remembers w d w0 w1 :
  pick_directory w = (OS.Ok (Some d), w0) ->
  OS.config_writable w = true ->
  OS.config w1 = OS.config w0 ->
  (forall answer, OS.dialog w1 = Some answer ->
     OS.trace (snd (pick_directory w1)) = OS.trace w1 ++ [OS.Dialog d]) /\
  (forall line rest,
     OS.dialog w1 = None -> OS.stdin w1 = line :: rest ->
     OS.trace (snd (pick_directory w1))
     = OS.trace w1 ++ [OS.Input ("Enter directory path [" +:+ d +:+ "]: ")] /\
     (PyStr.strip line = "" -> is_Some (OS.dirs w1 !! d) ->
      fst (pick_directory w1) = OS.Ok (Some d))).
Proof.
  intros Hpick Hwr Hcfg.
  apply pick_directory_result in Hpick as (Hne & _ & Hc). rewrite Hwr in Hc.
  assert (Hinit : initial_dir w1 = Some (OS.Str d)).
  { unfold initial_dir, remembered. rewrite Hcfg, Hc.
    by rewrite (proj2 (truthy_str d) Hne). }
  assert (Htrace : forall x w2, OS.trace (snd (keep_directory x w2)) = OS.trace w2).
  { intros [s|v] w2.
    - rewrite keep_directory_str. destruct (negb _ && _); [|done].
      cbn. unfold recorded.
      by destruct (OS.config_writable w2), (OS.config_openable w2).
    - destruct (keep_directory (OS.Other v) w2) as [r w3] eqn:Hk.
      by apply keep_directory_other_result in Hk as [-> _]. }
  split.
  - intros answer Hdlg. rewrite pick_directory_run, Hinit, Hdlg.
    by rewrite Htrace.
  - intros line rest Hdlg Hin. rewrite pick_directory_run, Hinit, Hdlg, Hin.
    cbv zeta. split; [by rewrite Htrace|].
    intros -> Hdir. cbn [OS.truthy]. change ("" =? "")%string with true.
    cbn [negb]. rewrite keep_directory_str.
    rewrite (proj2 (truthy_str d) Hne) || idtac.
    destruct (String.eqb_spec d ""); [done|]. cbn [negb andb].
    cbn [OS.dirs after_input add_events OS.set_stdin OS.set_trace].
    by rewrite (bool_decide_eq_true_2 _ Hdir).
Qed.

Lemma pick_directory_remembers_witness :
  OS.trace (snd (pick_directory (snd (pick_directory (shelf [])))))
  = [OS.Dialog "/home/user"; OS.Dialog "/d"].
Proof.
  exact (proj1 (pick_directory_remembers (shelf []) "/d"
                  (snd (pick_directory (shelf [])))
                  (snd (pick_directory (shelf [])))
                  eq_refl eq_refl eq_refl) "/d" eq_refl).
Defined.



End PickTheorems.

(* ===================================================================== *)
(** ** What the deletion loop and [main] leave behind *)
(* ===================================================================== *)

Section DeleteMoreFacts.

Lemma remove_error_lookup w p :
  remove_error w p
  = match OS.files w !! p with
    | Some f =>
        match OS.locked f with
        | Some reason => Some reason
        | None =>
            if OS.folder f
            then Some ("[Errno 21] Is a directory: '" +:+ p +:+ "'")
            else None
        end
    | None => Some ("[Errno 2] No such file or directory: '" +:+ p +:+ "'")
    end.
Proof.
  unfold remove_error, OS.remove. cbn [OS.files OS.log OS.set_trace fst].
  destruct (OS.files w !! p) as [f|]; [|done].
  destruct (OS.locked f); [done|]. by destruct (OS.folder f).
Qed.

Lemma deletable_files w w' p :
  OS.files w' = OS.files w -> deletable w' p <-> deletable w p.
Proof. unfold deletable. rewrite !remove_error_lookup. by intros ->. Qed.

Lemma unlist_lookup p ds d :
  OS.unlist p ds !! d
  = filter (fun n => PyStr.path_join d n <> p) <$> ds !! d.
Proof. unfold OS.unlist. rewrite map_lookup_imap. by destruct (ds !! d). Qed.

Lemma filter_ext_in {A} (P Q : A -> Prop) `{!forall x, Decision (P x)}
    `{!forall x, Decision (Q x)} (l : list A) :
  (forall x, x ∈ l -> P x <-> Q x) -> filter P l = filter Q l.
Proof.
  induction l as [|x l IH]; intros Hext; [done|].
  rewrite !filter_cons. rewrite IH by (intros y Hy; apply Hext; by right).
  destruct (decide (P x)) as [HP|HP], (decide (Q x)) as [HQ|HQ]; try done.
  - exfalso. apply HQ, Hext; [by left|done].
  - exfalso. apply HP, Hext; [by left|done].
Qed.

Lemma deletable_lookup w p :
  deletable w p <->
  exists f, OS.files w !! p = Some f /\ OS.locked f = None /\
            OS.folder f = false.
Proof.
  unfold deletable. rewrite remove_error_lookup.
  destruct (OS.files w !! p) as [f|];
    [destruct (OS.locked f) eqn:Hl; [|destruct (OS.folder f) eqn:Hfo]|].
  - split; [done|]. intros (f' & [= <-] & H & _). congruence.
  - split; [done|]. intros (f' & [= <-] & _ & H). congruence.
  - split; [|done]. intros _. by exists f.
  - split; [done|]. by intros (f' & [=] & _).
Qed.

Lemma filter_all {A} (P : A -> Prop) `{!forall x, Decision (P x)} (l : list A) :
  (forall x, x ∈ l -> P x) -> filter P l = l.
Proof.
  induction l as [|x l IH]; intros Hall; [done|].
  rewrite filter_cons_True by (apply Hall; by left).
  rewrite IH; [done|]. intros y Hy. apply Hall. by right.
Qed.

(** One turn of the deletion loop, as a change of the world. *)
Lemma delete_turn p w :
  exists w1,
    (forall rest, delete_all (p :: rest) w = delete_all rest w1) /\
    (forall q, OS.files w1 !! q
               = if decide (q = p /\ deletable w q) then None
                 else OS.files w !! q) /\
    (forall d, OS.dirs w1 !! d
               = filter (fun n => ~ (PyStr.path_join d n = p /\
                                     deletable w (PyStr.path_join d n)))
                   <$> OS.dirs w !! d) /\
    (forall q, deletable w1 q <-> deletable w q /\ q <> p) /\
    (deletable w p -> OS.trace w1 = OS.trace w ++ [OS.Remove p]).
Proof.
  destruct (decide (deletable w p)) as [Hp|Hp].
  - pose proof Hp as (f & Hf & Hl & Hfo)%deletable_lookup.
    eexists. split.
    { intros rest. cbn [delete_all].
      unfold mbind, M_bind, OS.bind, OS.catch, OS.remove.
      cbn [OS.files OS.log OS.set_trace OS.dirs OS.trace OS.stdin fst].
      rewrite Hf, Hl, Hfo. reflexivity. }
    cbn. split; [|split; [|split; [|done]]].
    + intros q. destruct (decide _) as [[-> H]|Hn].
      * apply lookup_delete_eq.
      * destruct (decide (q = p)) as [->|Hne]; [by exfalso; apply Hn|].
        by rewrite lookup_delete_ne.
    + intros d. rewrite unlist_lookup.
      destruct (OS.dirs w !! d) as [names|]; [|done]. cbn. f_equal.
      apply filter_ext_in. intros n _. split.
      * intros Hne [Heq _]. done.
      * intros Hn Heq. apply Hn. split; [done|]. by rewrite Heq.
    + intros q. rewrite !deletable_lookup. cbn.
      destruct (decide (q = p)) as [->|Hne].
      * rewrite lookup_delete_eq. split; [by intros (? & [=] & _)|by intros [_ ?]].
      * rewrite lookup_delete_ne by done. split; [by intros ?|by intros [? _]].
  - assert (Hrun : exists reason,
               forall rest,
                 delete_all (p :: rest) w
                 = delete_all rest
                     (add_events w [OS.Remove p;
                                    OS.Print (failure_message p reason)])).
    { cbn [delete_all]. unfold mbind, M_bind, OS.bind, OS.catch, OS.remove.
      cbn [OS.files OS.log OS.set_trace OS.dirs OS.trace OS.stdin fst].
      rewrite deletable_lookup in Hp.
      destruct (OS.files w !! p) as [f|] eqn:Hf;
        [destruct (OS.locked f) as [reason|] eqn:Hl;
           [|destruct (OS.folder f) eqn:Hfo]|].
      - exists reason. intros rest. f_equal.
        unfold add_events, OS.log, OS.set_trace. cbn. by rewrite <- app_assoc.
      - eexists. intros rest. f_equal.
        unfold add_events, OS.log, OS.set_trace. cbn. by rewrite <- app_assoc.
      - exfalso. apply Hp. by exists f.
      - eexists. intros rest. f_equal.
        unfold add_events, OS.log, OS.set_trace. cbn. by rewrite <- app_assoc. }
    destruct Hrun as [reason Hrun]. eexists. split; [exact Hrun|].
    cbn. split; [|split; [|split; [|done]]].
    + intros q. destruct (decide _) as [[-> H]|]; done.
    + intros d. destruct (OS.dirs w !! d) as [names|]; [|done]. cbn. f_equal.
      symmetry. apply filter_all. intros n _ [Heq H]. apply Hp. by rewrite <- Heq.
    + intros q. rewrite !deletable_lookup. cbn. split; [|by intros [? _]].
      intros H. split; [done|]. intros ->. by apply Hp, deletable_lookup.
Qed.

(** The whole loop, as a change of the world: the files that go are
    those of the list that can be deleted, and every listing loses their
    names and no other. *)
Lemma delete_all_state paths w :
  exists w',
    delete_all paths w = (OS.Ok tt, w') /\
    (forall q, OS.files w' !! q
               = if decide (q ∈ paths /\ deletable w q) then None
                 else OS.files w !! q) /\
    (forall d, OS.dirs w' !! d
               = filter (fun n => ~ (PyStr.path_join d n ∈ paths /\
                                     deletable w (PyStr.path_join d n)))
                   <$> OS.dirs w !! d) /\
    (NoDup paths -> (forall p, p ∈ paths -> deletable w p) ->
     OS.trace w' = OS.trace w ++ (OS.Remove <$> paths)).
Proof.
  revert w. induction paths as [|p paths IH]; intros w.
  - exists w. split; [done|]. split; [|split].
    + intros q. destruct (decide _) as [[H _]|]; [|done].
      by apply elem_of_nil in H.
    + intros d. destruct (OS.dirs w !! d) as [names|]; [|done]. cbn. f_equal.
      symmetry. apply filter_all. intros n _ [H _]. by apply elem_of_nil in H.
    + intros _ _. cbn. by rewrite app_nil_r.
  - destruct (delete_turn p w) as (w1 & Hrun & Hf1 & Hd1 & Hdel1 & Ht1).
    destruct (IH w1) as (w' & Hrun' & Hf' & Hd' & Ht').
    exists w'. split; [by rewrite Hrun|]. split; [|split].
    + intros q. rewrite Hf', Hf1.
      destruct (decide (q ∈ paths /\ deletable w1 q)) as [[Hin Hq]|Hn].
      * apply Hdel1 in Hq as [Hq Hne].
        rewrite decide_True; [done|]. split; [by right|done].
      * destruct (decide (q = p /\ deletable w q)) as [[-> Hq]|Hn1].
        -- rewrite decide_True; [done|]. split; [by left|done].
        -- rewrite decide_False; [done|]. intros [Hin Hq].
           apply elem_of_cons in Hin as [->|Hin]; [by apply Hn1|].
           destruct (decide (q = p)) as [->|Hne]; [by apply Hn1|].
           apply Hn. split; [done|]. by apply Hdel1.
    + intros d. rewrite Hd', Hd1.
      destruct (OS.dirs w !! d) as [names|]; [|done]. cbn. f_equal.
      rewrite list_filter_filter. apply filter_ext_in. intros n _.
      rewrite Hdel1, elem_of_cons. split.
      * intros [Ha Hb] [[Heq|Hin] Hq]; [by apply Hb|].
        destruct (decide (PyStr.path_join d n = p)) as [Heq|Hne]; [by apply Hb|].
        by apply Ha.
      * intros Hn. split.
        -- intros [Hin [Hq _]]. apply Hn. split; [by right|done].
        -- intros [Heq Hq]. apply Hn. split; [by left|done].
    + intros [Hnotin Hnd]%NoDup_cons Hall.
      rewrite Ht', Ht1.
      * by rewrite fmap_cons, <- app_assoc.
      * apply Hall. by left.
      * done.
      * intros q Hq. apply Hdel1. split; [apply Hall; by right|].
        intros ->. done.
Qed.

End DeleteMoreFacts.

Section MainMoreFacts.

(** Among the files that the scan keeps, none is outdated. *)
Lemma outdated_names_kept names : outdated_names (kept_names names) = [].
Proof.
  apply outdated_names_nil. intros n b v [Hkeep Hin]%list_elem_of_filter Hp.
  destruct (max_version_exists names n b v Hin Hp) as (m & Hm & Hle).
  assert (v = m) as <-.
  { unfold outdated_name in Hkeep. rewrite Hp, Hm in Hkeep.
    apply Z.ltb_ge in Hkeep. lia. }
  apply max_version_spec in Hm as [_ Hmax]. split.
  - exists n. split; [|done]. by apply list_elem_of_filter.
  - intros n' v' [_ Hin']%list_elem_of_filter Hp'. by apply (Hmax n').
Qed.

Lemma report_world w0 d out text rest :
  add_events
    (add_events
       (add_events (after_input w0 "Choose mode (VIEW/UPDATE): " rest)
          (OS.Listdir d :: OS.Listdir d :: (OS.Getsize <$> out)))
       [OS.Print ("Outdated files: " +:+ PyStr.str_of_Z (len out))])
    [OS.Print ("Disk space used: " +:+ text)]
  = OS.set_stdin rest (add_events w0 (report_events d out text)).
Proof.
  unfold add_events, after_input, OS.set_stdin, OS.set_trace, report_events.
  cbn. f_equal. by rewrite <- !app_assoc.
Qed.

(** [main] from a picked directory to the end of its report. *)
Lemma main_report w d w0 names line rest text :
  pick_directory w = (OS.Ok (Some d), w0) ->
  OS.dirs w !! d = Some names ->
  OS.stdin w0 = line :: rest ->
  PyStr.lower (PyStr.strip line) = "view" \/
  PyStr.lower (PyStr.strip line) = "update" ->
  format_size (PyFloat.Int (sum_Z (readable_size w <$> outdated_paths d names)))
  = Some text ->
  main w
  = ((if String.eqb (PyStr.lower (PyStr.strip line)) "update"
         && (len (outdated_paths d names) >? 0)
      then confirm_and_delete (outdated_paths d names) else OS.ret tt);;
     _ ← OS.input "Press Enter to exit..."; OS.ret tt)
      (OS.set_stdin rest
         (add_events w0 (report_events d (outdated_paths d names) text))).
Proof.
  intros Hpick Hd Hin Hmode Htext.
  rewrite (main_run w d w0 names Hpick Hd), Hin. cbv zeta.
  replace (negb _) with false by (by destruct Hmode as [-> | ->]).
  rewrite report_and_delete_run. cbv zeta. rewrite Htext.
  by rewrite report_world.
Qed.

Lemma finish_at w rest0 :
  OS.stdin w = rest0 ->
  exists w',
    (OS.input "Press Enter to exit..." ≫= fun _ => OS.ret tt) w
    = (at_last_prompt rest0, w') /\
    same_files w w' /\ OS.stdin w' = tail rest0 /\
    OS.trace w' = OS.trace w ++ [OS.Input "Press Enter to exit..."].
Proof.
  intros <-. rewrite finish_run.
  destruct (OS.stdin w) as [|l r] eqn:Hs; eexists; (split; [reflexivity|]);
    cbn; rewrite ?Hs; done.
Qed.

(** [main] when nothing is to be confirmed: the report, and the last
    prompt. *)
Lemma main_report_only w d w0 names line rest text :
  pick_directory w = (OS.Ok (Some d), w0) ->
  OS.dirs w !! d = Some names ->
  OS.stdin w0 = line :: rest ->
  PyStr.lower (PyStr.strip line) = "view" \/
  (PyStr.lower (PyStr.strip line) = "update" /\ outdated_paths d names = []) ->
  format_size (PyFloat.Int (sum_Z (readable_size w <$> outdated_paths d names)))
  = Some text ->
  exists w',
    main w = (at_last_prompt rest, w') /\
    same_files w w' /\
    OS.stdin w' = tail rest /\
    OS.trace w'
    = OS.trace w0 ++ report_events d (outdated_paths d names) text
      ++ [OS.Input "Press Enter to exit..."].
Proof.
  intros Hpick Hd Hin Hmode Htext.
  destruct (pick_directory_files w _ w0 Hpick) as [[Hp1 Hp2] _].
  rewrite (main_report w d w0 names line rest text Hpick Hd Hin); [|tauto|done].
  replace (_ && _) with false.
  2:{ destruct Hmode as [-> | [-> ->]]; [done|].
      change ("update" =? "update")%string with true. done. }
  set (w1 := OS.set_stdin _ _).
  destruct (finish_at w1 rest eq_refl) as (w' & Hfin & [Hs1 Hs2] & Hst & Ht).
  exists w'. split; [exact Hfin|]. split; [split; cbn in *; congruence|].
  split; [done|]. rewrite Ht. cbn. by rewrite <- app_assoc.
Qed.

(** [main] in update mode after a confirmation, around the deletion
    loop. *)
Lemma main_confirmed_state w d w0 names line resp rest text :
  pick_directory w = (OS.Ok (Some d), w0) ->
  OS.dirs w !! d = Some names ->
  OS.stdin w0 = line :: resp :: rest ->
  PyStr.lower (PyStr.strip line) = "update" ->
  outdated_paths d names <> [] ->
  PyStr.startswith (PyStr.lower (PyStr.strip resp)) "y" = true ->
  format_size (PyFloat.Int (sum_Z (readable_size w <$> outdated_paths d names)))
  = Some text ->
  exists w1 w2 w',
    same_files w w1 /\
    OS.trace w1
    = OS.trace w0 ++ report_events d (outdated_paths d names) text
      ++ [OS.Input "OK to delete? [y/N]: "] /\
    delete_all (outdated_paths d names) w1 = (OS.Ok tt, w2) /\
    main w = (at_last_prompt rest, w') /\ same_files w2 w' /\
    OS.trace w'
    = OS.trace w2
      ++ [OS.Print ("Deleted "
                    +:+ PyStr.str_of_Z (len (outdated_paths d names))
                    +:+ " files.");
          OS.Input "Press Enter to exit..."].
Proof.
  intros Hpick Hd Hin Hmode Hout Hyes Htext.
  destruct (pick_directory_files w _ w0 Hpick) as [[Hp1 Hp2] _].
  rewrite (main_report w d w0 names line (resp :: rest) text Hpick Hd Hin);
    [|tauto|done].
  rewrite Hmode. change ("update" =? "update")%string with true.
  assert (Hlen : (len (outdated_paths d names) >? 0) = true).
  { unfold len. destruct (outdated_paths d names); [done|].
    apply Z.gtb_lt. simpl length. lia. }
  rewrite Hlen. cbn [andb].
  unfold mbind at 1, M_bind at 1, OS.bind at 1.
  rewrite confirm_and_delete_run. simpl (OS.stdin _).
  cbv beta iota zeta. rewrite Hyes.
  set (w1 := after_input _ "OK to delete? [y/N]: " _).
  destruct (delete_all_run (outdated_paths d names) w1)
    as (w2 & Hdel & Hst2 & _).
  rewrite (bind_run _ _ _ _ _ Hdel). unfold OS.print at 1.
  set (w3 := OS.log _ w2).
  destruct (finish_at w3 rest) as (w' & Hfin & [Hs1 Hs2] & _ & Ht).
  { unfold w3. cbn. by rewrite Hst2. }
  exists w1, w2, w'. split; [done|]. split.
  { unfold w1, after_input, add_events, OS.set_stdin, OS.set_trace.
    cbn [OS.trace]. by rewrite <- app_assoc. }
  split; [done|]. split; [exact Hfin|]. split; [done|].
  rewrite Ht. unfold w3. simpl. by rewrite <- app_assoc.
Qed.

(** The listing of the directory once the files of the outdated list
    that can be deleted are gone. *)
Lemma kept_after_delete w1 w2 d names :
  OS.dirs w1 !! d = Some names ->
  Forall entry_name names ->
  (forall p, p ∈ outdated_paths d names -> deletable w1 p) ->
  (forall d', OS.dirs w2 !! d'
     = filter (fun n => ~ (PyStr.path_join d' n ∈ outdated_paths d names /\
                           deletable w1 (PyStr.path_join d' n)))
         <$> OS.dirs w1 !! d') ->
  OS.dirs w2 !! d = Some (kept_names names).
Proof.
  intros Hd Hentry Hall Hdirs. rewrite Hdirs, Hd. cbn. f_equal.
  apply filter_ext_in. intros n Hin. split.
  - intros Hn. destruct (outdated_name names n) eqn:Ho; [|done].
    exfalso. apply Hn.
    assert (Hp : PyStr.path_join d n ∈ outdated_paths d names).
    { apply list_elem_of_fmap. exists n. split; [done|].
      by apply list_elem_of_filter. }
    split; [done|]. by apply Hall.
  - intros Ho [Hp _]. apply in_outdated_paths in Hp; [|done..].
    apply list_elem_of_filter in Hp as [Hp _]. congruence.
Qed.

End MainMoreFacts.

Section MainMoreTheorems.

(** X15. What the deletion loop leaves: a file is gone exactly when its
    path is in the list and [os.remove] could delete it at the start, the
    other files are untouched, and every listing loses the names of the
    files that are gone and no other name. *)
Theorem delete_all_outcome paths w :
  exists w',
    delete_all paths w = (OS.Ok tt, w') /\
    (forall q, OS.files w' !! q
               = if decide (q ∈ paths /\ deletable w q) then None
                 else OS.files w !! q) /\
    (forall d, OS.dirs w' !! d
               = filter (fun n => ~ (PyStr.path_join d n ∈ paths /\
                                     deletable w (PyStr.path_join d n)))
                   <$> OS.dirs w !! d).
Proof.
  destruct (delete_all_state paths w) as (w' & Hrun & Hf & Hd & _).
  by exists w'.
Qed.

(** X16. Without a directory, [main] prints that none was selected and
    returns: it asks for no mode, lists nothing and changes no file. *)
Theorem main_no_directory w w0 :
  pick_directory w = (OS.Ok None, w0) ->
  main w
  = (OS.Ok tt, add_events w0 [OS.Print "No directory selected. Exiting."]) /\
  same_files w w0 /\
  accesses (OS.trace w0) = accesses (OS.trace w).
Proof.
  intros Hpick. split; [|exact (quiet_pick_directory w _ w0 Hpick)].
  unfold main. by rewrite (bind_run _ _ _ _ _ Hpick).
Qed.

Lemma main_no_directory_witness :
  main (with_dialog (Some "") (shelf []))
  = (OS.Ok tt,
     add_events (with_dialog (Some "") (shelf []))
       [OS.Dialog "/home/user"; OS.Print "No directory selected. Exiting."]).
Proof.
  rewrite (proj1 (main_no_directory (with_dialog (Some "") (shelf []))
                    (add_events (with_dialog (Some "") (shelf []))
                       [OS.Dialog "/home/user"]) eq_refl)).
  reflexivity.
Defined.

(** X17. When a directory has been picked and no line can be read for
    the mode, [main] ends with [EOFError] right after the prompt, before
    any listing: none of the directories and files that it could scan is
    changed.  The preference file is not among them: [pick_directory]
    has called [save_last_dir] on the directory before the mode is
    asked, so that the file records the directory when it can be written
    in full, is left without a value when it can only be opened, and is
    as it was when it cannot be opened. *)
Theorem main_input_exhausted w d w0 :
  pick_directory w = (OS.Ok (Some d), w0) ->
  OS.stdin w0 = [] ->
  main w
  = (OS.Raise OS.EOFError,
     add_events w0 [OS.Input "Choose mode (VIEW/UPDATE): "]) /\
  same_files w w0 /\
  accesses (OS.trace w0) = accesses (OS.trace w) /\
  OS.config (snd (main w))
  = (if OS.config_writable w then OS.LastDir (Some d)
     else if OS.config_openable w then OS.Corrupt
     else OS.config w).
Proof.
  intros Hpick Hin.
  assert (Hrun : main w
                 = (OS.Raise OS.EOFError,
                    add_events w0 [OS.Input "Choose mode (VIEW/UPDATE): "]))
    by (by rewrite (main_head w d w0 Hpick), Hin).
  split; [exact Hrun|].
  destruct (quiet_pick_directory w _ w0 Hpick) as [Hs Ha].
  split; [exact Hs|]. split; [exact Ha|].
  rewrite Hrun. cbn [snd].
  by destruct (pick_directory_result w _ w0 Hpick) as (_ & _ & Hc).
Qed.

Lemma main_input_exhausted_witness :
  fst (main (shelf [])) = OS.Raise OS.EOFError /\
  OS.config (shelf []) = OS.NoFile /\
  OS.config (snd (main (shelf []))) = OS.LastDir (Some "/d").
Proof.
  destruct (main_input_exhausted (shelf []) "/d"
              (snd (pick_directory (shelf []))) eq_refl eq_refl)
    as (Hrun & _ & _ & Hc).
  split; [by rewrite Hrun|]. split; [reflexivity|exact Hc].
Defined.

(** X18. In view mode [main] only reports: it lists the directory, reads
    the sizes of the outdated files, prints their number and the space
    they use, and waits for the last line.  It asks for no confirmation
    and calls [os.remove] on nothing, however many files are outdated. *)
Theorem view_mode_only_reports w d w0 names line rest text :
  pick_directory w = (OS.Ok (Some d), w0) ->
  OS.dirs w !! d = Some names ->
  OS.stdin w0 = line :: rest ->
  PyStr.lower (PyStr.strip line) = "view" ->
  format_size (PyFloat.Int (sum_Z (readable_size w <$> outdated_paths d names)))
  = Some text ->
  exists w',
    main w = (at_last_prompt rest, w') /\
    same_files w w' /\
    OS.stdin w' = tail rest /\
    OS.trace w'
    = OS.trace w0 ++ report_events d (outdated_paths d names) text
      ++ [OS.Input "Press Enter to exit..."] /\
    removals (OS.trace w') = removals (OS.trace w).
Proof.
  intros Hpick Hd Hin Hmode Htext.
  destruct (main_report_only w d w0 names line rest text Hpick Hd Hin
              (or_introl Hmode) Htext) as (w' & Hrun & Hs & Hst & Ht).
  exists w'. split; [done|]. split; [done|]. split; [done|]. split; [done|].
  destruct (pick_directory_files w _ w0 Hpick) as [_ Hrem].
  rewrite Ht, !removals_app, Hrem. unfold report_events.
  rewrite !removals_app, removals_getsize. cbn. by rewrite app_nil_r.
Qed.

Lemma view_mode_only_reports_witness :
  OS.trace (snd (main (shelf [" View "; ""])))
  = [OS.Dialog "/home/user";
     OS.Input "Choose mode (VIEW/UPDATE): ";
     OS.Listdir "/d"; OS.Listdir "/d";
     OS.Getsize "/d/pack.1.var"; OS.Getsize "/d/pack.01.VAR";
     OS.Print "Outdated files: 2";
     OS.Print "Disk space used: 100.00 bytes";
     OS.Input "Press Enter to exit..."].
Proof.
  destruct (view_mode_only_reports (shelf [" View "; ""]) "/d"
              (snd (pick_directory (shelf [" View "; ""]))) shelf_names
              " View " [""] "100.00 bytes")
    as (w' & Hrun & _ & _ & Ht & _);
    [reflexivity | reflexivity | reflexivity | reflexivity | by vm_compute |].
  rewrite Hrun. cbn [snd]. rewrite Ht. reflexivity.
Defined.

(** X19. In update mode with nothing outdated, [main] reports 0 files
    and [0.00 bytes] and goes to the last prompt: there is no prompt for
    a confirmation, and nothing is deleted. *)
Theorem update_nothing_outdated w d w0 names line rest :
  pick_directory w = (OS.Ok (Some d), w0) ->
  OS.dirs w !! d = Some names ->
  OS.stdin w0 = line :: rest ->
  PyStr.lower (PyStr.strip line) = "update" ->
  outdated_paths d names = [] ->
  exists w',
    main w = (at_last_prompt rest, w') /\
    same_files w w' /\
    OS.stdin w' = tail rest /\
    OS.trace w'
    = OS.trace w0
      ++ [OS.Input "Choose mode (VIEW/UPDATE): ";
          OS.Listdir d; OS.Listdir d;
          OS.Print "Outdated files: 0";
          OS.Print "Disk space used: 0.00 bytes";
          OS.Input "Press Enter to exit..."].
Proof.
  intros Hpick Hd Hin Hmode Hout.
  destruct (main_report_only w d w0 names line rest "0.00 bytes" Hpick Hd Hin)
    as (w' & Hrun & Hs & Hst & Ht).
  - right. done.
  - rewrite Hout. by vm_compute.
  - exists w'. split; [done|]. split; [done|]. split; [done|].
    rewrite Ht, Hout. reflexivity.
Qed.

Lemma update_nothing_outdated_witness :
  OS.trace (snd (main (with_listing (shelf ["update"; ""]) "/d"
                         ["pack.2.var"; "x.5.var"; "a.var"])))
  = [OS.Dialog "/home/user";
     OS.Input "Choose mode (VIEW/UPDATE): ";
     OS.Listdir "/d"; OS.Listdir "/d";
     OS.Print "Outdated files: 0";
     OS.Print "Disk space used: 0.00 bytes";
     OS.Input "Press Enter to exit..."].
Proof.
  destruct (update_nothing_outdated
              (with_listing (shelf ["update"; ""]) "/d"
                 ["pack.2.var"; "x.5.var"; "a.var"]) "/d"
              (snd (pick_directory
                      (with_listing (shelf ["update"; ""]) "/d"
                         ["pack.2.var"; "x.5.var"; "a.var"])))
              ["pack.2.var"; "x.5.var"; "a.var"] "update" [""])
    as (w' & Hrun & _ & _ & Ht);
    [reflexivity | reflexivity | reflexivity | reflexivity | by vm_compute |].
  rewrite Hrun. cbn [snd]. rewrite Ht. reflexivity.
Defined.

(** X20. A confirmed update cleans the directory: when every outdated
    file can be deleted, each of them is gone when [main] is over, the
    directory lists the other names and them alone, in their order, and
    a new scan finds nothing outdated. *)
Theorem confirmed_update_cleans w d w0 names line resp rest text :
  pick_directory w = (OS.Ok (Some d), w0) ->
  OS.dirs w !! d = Some names ->
  Forall entry_name names ->
  OS.stdin w0 = line :: resp :: rest ->
  PyStr.lower (PyStr.strip line) = "update" ->
  outdated_paths d names <> [] ->
  PyStr.startswith (PyStr.lower (PyStr.strip resp)) "y" = true ->
  format_size (PyFloat.Int (sum_Z (readable_size w <$> outdated_paths d names)))
  = Some text ->
  (forall p, p ∈ outdated_paths d names -> deletable w p) ->
  exists w',
    main w = (at_last_prompt rest, w') /\
    (forall p, p ∈ outdated_paths d names -> OS.files w' !! p = None) /\
    (forall q, q ∉ outdated_paths d names ->
       OS.files w' !! q = OS.files w !! q) /\
    OS.dirs w' !! d = Some (kept_names names) /\
    fst (scan_directory d w') = OS.Ok ([], 0).
Proof.
  intros Hpick Hd Hentry Hin Hmode Hout Hyes Htext Hall.
  destruct (main_confirmed_state w d w0 names line resp rest text
              Hpick Hd Hin Hmode Hout Hyes Htext)
    as (w1 & w2 & w' & [Hd1 Hf1] & _ & Hdel & Hrun & [Hd2 Hf2] & _).
  destruct (delete_all_state (outdated_paths d names) w1)
    as (w2' & Hdel' & Hfiles & Hdirs & _).
  rewrite Hdel in Hdel'. injection Hdel' as <-.
  assert (Hall1 : forall p, p ∈ outdated_paths d names -> deletable w1 p).
  { intros p Hp. apply (deletable_files w w1); [done|]. by apply Hall. }
  assert (Hkept : OS.dirs w' !! d = Some (kept_names names)).
  { rewrite Hd2. apply (kept_after_delete w1 w2 d names); try done.
    by rewrite Hd1. }
  exists w'. split; [done|]. split; [|split; [|split; [done|]]].
  - intros p Hp. rewrite Hf2, Hfiles. rewrite decide_True; [done|].
    split; [done|]. by apply Hall1.
  - intros q Hq. rewrite Hf2, Hfiles, Hf1. rewrite decide_False; [done|].
    by intros [? _].
  - rewrite (scan_directory_run w' d _ Hkept). cbn.
    unfold outdated_paths. by rewrite outdated_names_kept.
Qed.

Lemma confirmed_update_cleans_witness :
  exists w',
    main (open_shelf ["update"; "Yes"; ""]) = (OS.Ok tt, w') /\
    OS.dirs w' !! "/d"
    = Some ["readme.txt"; "pack.2.var"; "x.5.var"; "a.var"; "a.x.var"] /\
    fst (scan_directory "/d" w') = OS.Ok ([], 0).
Proof.
  destruct (confirmed_update_cleans (open_shelf ["update"; "Yes"; ""]) "/d"
              (snd (pick_directory (open_shelf ["update"; "Yes"; ""])))
              shelf_names "update" "Yes" [""] "100.00 bytes")
    as (w' & Hrun & _ & _ & Hd & Hscan).
  - reflexivity.
  - reflexivity.
  - repeat constructor.
  - reflexivity.
  - reflexivity.
  - by vm_compute.
  - reflexivity.
  - by vm_compute.
  - intros p Hp.
    assert (Hl : outdated_paths "/d" shelf_names
                 = ["/d/pack.1.var"; "/d/pack.01.VAR"]) by (by vm_compute).
    rewrite Hl in Hp. apply list_elem_of_In in Hp. simpl in Hp.
    destruct Hp as [<-|[<-|[]]]; reflexivity.
  - exists w'. split; [exact Hrun|]. split; [|exact Hscan].
    rewrite Hd. reflexivity.
Defined.

(** X21. When every outdated file can be deleted, in a listing without
    repeated names, the line [Deleted N files.] is exact: the run prints
    no failure, [os.remove] is called once on each outdated file, and the
    files that are gone are the N outdated files. *)
Theorem deleted_count_exact w d w0 names line resp rest text :
  pick_directory w = (OS.Ok (Some d), w0) ->
  OS.dirs w !! d = Some names ->
  Forall entry_name names -> NoDup names ->
  OS.stdin w0 = line :: resp :: rest ->
  PyStr.lower (PyStr.strip line) = "update" ->
  outdated_paths d names <> [] ->
  PyStr.startswith (PyStr.lower (PyStr.strip resp)) "y" = true ->
  format_size (PyFloat.Int (sum_Z (readable_size w <$> outdated_paths d names)))
  = Some text ->
  (forall p, p ∈ outdated_paths d names -> deletable w p) ->
  exists w',
    main w = (at_last_prompt rest, w') /\
    OS.trace w'
    = OS.trace w0 ++ report_events d (outdated_paths d names) text
      ++ [OS.Input "OK to delete? [y/N]: "]
      ++ (OS.Remove <$> outdated_paths d names)
      ++ [OS.Print ("Deleted "
                    +:+ PyStr.str_of_Z (len (outdated_paths d names))
                    +:+ " files.");
          OS.Input "Press Enter to exit..."] /\
    dom (OS.files w') = dom (OS.files w) ∖ list_to_set (outdated_paths d names) /\
    Z.of_nat (size (OS.files w))
    = Z.of_nat (size (OS.files w')) + len (outdated_paths d names).
Proof.
  intros Hpick Hd Hentry Hnd Hin Hmode Hout Hyes Htext Hall.
  destruct (main_confirmed_state w d w0 names line resp rest text
              Hpick Hd Hin Hmode Hout Hyes Htext)
    as (w1 & w2 & w' & [Hd1 Hf1] & Ht1 & Hdel & Hrun & [Hd2 Hf2] & Ht').
  destruct (delete_all_state (outdated_paths d names) w1)
    as (w2' & Hdel' & Hfiles & _ & Ht2).
  rewrite Hdel in Hdel'. injection Hdel' as <-.
  assert (Hall1 : forall p, p ∈ outdated_paths d names -> deletable w1 p).
  { intros p Hp. apply (deletable_files w w1); [done|]. by apply Hall. }
  assert (Hdom : dom (OS.files w')
                 = dom (OS.files w) ∖ list_to_set (outdated_paths d names)).
  { apply set_eq. intros q.
    rewrite elem_of_difference, !elem_of_dom, elem_of_list_to_set.
    rewrite Hf2, Hfiles, Hf1.
    destruct (decide _) as [[Hq _]|Hn].
    - split; [by intros []|by intros [_ ?]].
    - split; [|by intros [? _]]. intros Hs. split; [done|].
      intros Hq. apply Hn. split; [done|]. by apply Hall1. }
  assert (Hsub : (list_to_set (outdated_paths d names) : gset string)
                 ⊆ dom (OS.files w)).
  { intros q Hq%elem_of_list_to_set. apply Hall, deletable_lookup in Hq.
    destruct Hq as (f & Hf & _). apply elem_of_dom. by exists f. }
  exists w'. split; [done|]. split; [|split; [done|]].
  - rewrite Ht', Ht2, Ht1; [|by apply outdated_paths_NoDup|done].
    by rewrite <- !app_assoc.
  - rewrite <- !size_dom, Hdom.
    rewrite size_difference by done.
    rewrite size_list_to_set by (by apply outdated_paths_NoDup).
    unfold len.
    assert (Hle := subseteq_size _ _ Hsub).
    rewrite size_list_to_set in Hle by (by apply outdated_paths_NoDup). lia.
Qed.

Lemma deleted_count_exact_witness :
  exists w',
    main (open_shelf ["update"; "Yes"; ""]) = (OS.Ok tt, w') /\
    removals (OS.trace w') = ["/d/pack.1.var"; "/d/pack.01.VAR"] /\
    Z.of_nat (size (OS.files (open_shelf ["update"; "Yes"; ""])))
    = Z.of_nat (size (OS.files w')) + 2.
Proof.
  destruct (deleted_count_exact (open_shelf ["update"; "Yes"; ""]) "/d"
              (snd (pick_directory (open_shelf ["update"; "Yes"; ""])))
              shelf_names "update" "Yes" [""] "100.00 bytes")
    as (w' & Hrun & Ht & _ & Hsize).
  - reflexivity.
  - reflexivity.
  - repeat constructor.
  - exact (bool_decide_unpack (NoDup shelf_names) I).
  - reflexivity.
  - reflexivity.
  - by vm_compute.
  - reflexivity.
  - by vm_compute.
  - intros p Hp.
    assert (Hl : outdated_paths "/d" shelf_names
                 = ["/d/pack.1.var"; "/d/pack.01.VAR"]) by (by vm_compute).
    rewrite Hl in Hp. apply list_elem_of_In in Hp. simpl in Hp.
    destruct Hp as [<-|[<-|[]]]; reflexivity.
  - exists w'. split; [exact Hrun|]. split; [by rewrite Ht|exact Hsize].
Defined.



End MainMoreTheorems.
